(** * mapray SceneLoader: the asynchronous scene loading pipeline

    A shallow embedding of [src/mapray/SceneLoader.js].  The loader is an
    event-driven object: the constructor issues the scene fetch, and everything
    else happens in promise reactions, image handlers and the [cancel()] method.
    JavaScript runs each of these to completion on one thread, so every
    reaction is one atomic [step] of a transition function over an explicit
    [state]; the order in which the environment (network, image decoder,
    microtask queue, the user calling [cancel()]) triggers them is a list of
    [event]s, and a property of the loader is a property of [run] on every
    such list.

    What is outside [SceneLoader.js] is taken at its interface: the scene
    keeps a set of loaders and a list of entities; the constructors of
    [Mesh], [Texture] and of the entity classes, the transform callback and
    the finish callback return normally (the finish callback is of type
    [(loader, isSuccess) -> void]); the scene file, once parsed, has the shape
    of the record [manifest]. *)

From stdpp Require Import gmap strings list.

Local Open Scope Z_scope.

(** ** Data model *)

(** [SceneLoader.ResourceType] *)
Inductive ResourceType := SCENE | IMAGE | MESH.

(** Modelled from the spec: [CredentialMode] is imported from
    [./CredentialMode], which is not part of the analysed sources; the
    transport policies are [omit], [same-origin] and [include]. *)
Inductive CredentialMode := OMIT | SAME_ORIGIN | INCLUDE.

Definition credentials (c : CredentialMode) : string :=
  match c with
  | OMIT => "omit"
  | SAME_ORIGIN => "same-origin"
  | INCLUDE => "include"
  end.

(** [SceneLoader.TransformResult]; an optional property is [None] when it is
    missing. *)
Record TransformResult := {
  tr_url : string;
  tr_credentials : option CredentialMode;
  tr_headers : option (list (string * string)) }.

Definition defaultTransformCallback (url : string) (type : ResourceType)
  : TransformResult :=
  {| tr_url := url; tr_credentials := None; tr_headers := None |}.

(** The [init] argument of [fetch()]; its [signal] is always the loader's
    abort signal, kept in the state as [aborted]. *)
Record FetchInit := {
  init_credentials : string;
  init_headers : option (list (string * string)) }.

(** The scene file after [response.json()].  Registers are JSON objects: a
    list of (key, value) in [Object.keys] order.  A property of type string
    that the source tests for truthiness is an [option string]: [None] when
    the property is missing, and the empty string is falsy as well (see
    [truthy]). *)
Record mesh_json := {
  mesh_binary : option string;
  mesh_vertices : option (list Z) }.

Record texture_json := {
  texture_image : option string }.

Record entity_json := {
  item_type : option string;
  item_id : option string;
  item_payload : string }.

Record manifest := {
  mesh_register : option (list (string * mesh_json));
  texture_register : option (list (string * texture_json));
  entity_list : option (list entity_json) }.

(** The register entries that carry nothing to load: a mesh with neither
    [binary] nor [vertices], a texture without [image]. *)
Definition ignored_mesh (entry : string * mesh_json) : bool :=
  match mesh_binary entry.2, mesh_vertices entry.2 with
  | None, None => true
  | _, _ => false
  end.

Definition ignored_texture (entry : string * texture_json) : bool :=
  match texture_image entry.2 with
  | None => true
  | Some _ => false
  end.

(** The scene file with these entries left out. *)
Definition without_ignored (m : manifest) : manifest :=
  {| mesh_register :=
       filter (fun entry => ignored_mesh entry = false) <$> mesh_register m;
     texture_register :=
       filter (fun entry => ignored_texture entry = false)
         <$> texture_register m;
     entity_list := entity_list m |}.

(** JavaScript truthiness of an optional string property. *)
Definition truthy (o : option string) : option string :=
  match o with
  | Some s => if decide (s = EmptyString) then None else Some s
  | None => None
  end.

(** The objects a loader builds.  The constructors of [Mesh], [Texture] and of
    the entity classes are external collaborators: an object is identified by
    the class and the arguments it was constructed from. *)
Inductive EntityKind := GenericEntity | MarkerLineEntity | TextEntity.

Record Entity := {
  entity_kind : EntityKind;
  entity_item : entity_json }.

Record Image := {
  image_crossOrigin : option string;
  image_src : string }.

Inductive Obj :=
| MeshOfJson (mesh : mesh_json)
| MeshOfBuffer (buffer : list Byte.byte)
| TextureOfImage (image : Image)
| EntityObj (entity : Entity).

(** What the loader does to the outside world, in the order it does it.
    [EnterPostload] is not an effect of the program: it marks the entry into
    [_postload_object], so that the join can be observed. *)
Inductive effect :=
| Fetch (url : string) (init : FetchInit)
| ImageRequest (image : Image)
| AddLoader
| RemoveLoader
| AddEntity (entity : Entity)
| AbortRequests
| QueueCancelJob
| Callback (isSuccess : bool)
| ConsoleError (msg : string)
| EnterPostload.

(** Modelled from the spec: [Scene] ([./Scene] is not part of the analysed
    sources).  The scene tracks the set of active loaders and an ordered
    entity list; loaders are named by a handle. *)
Record Scene := {
  scene_loaders : gset nat;
  scene_entities : list Entity }.

Definition addLoader (loader : nat) (sc : Scene) : Scene :=
  {| scene_loaders := {[loader]} ∪ scene_loaders sc;
     scene_entities := scene_entities sc |}.

Definition removeLoader (loader : nat) (sc : Scene) : Scene :=
  {| scene_loaders := scene_loaders sc ∖ {[loader]};
     scene_entities := scene_entities sc |}.

Definition addEntity (entity : Entity) (sc : Scene) : Scene :=
  {| scene_loaders := scene_loaders sc;
     scene_entities := scene_entities sc ++ [entity] |}.

(** Where each promise chain stands.  A chain moves when one of its reactions
    runs. *)
Inductive scene_stage :=
| SceneFetching      (* fetch() pending *)
| SceneParsing       (* response.json() pending *)
| SceneRejected      (* rejected, .catch reaction not yet run *)
| SceneFailed        (* .catch reaction has run *)
| SceneLoaded.       (* _load_object has run *)

Inductive mesh_stage :=
| MeshFetching               (* fetch() pending *)
| MeshReading                (* response.arrayBuffer() pending *)
| MeshRejected               (* rejected, .catch reaction not yet run *)
| MeshSettled (ok : bool)    (* last .then reaction not yet run *)
| MeshDone (ok : bool).

Record mesh_task := {
  mt_id : string;
  mt_url : string;
  mt_stage : mesh_stage }.

Inductive image_stage :=
| ImageLoading
| ImageDone (ok : bool).

Record texture_task := {
  tt_id : string;
  tt_image : Image;
  tt_stage : image_stage }.

(** The loader ([_url] ... [aborted]), the two properties it adds to the
    parsed scene object ([req_count], [req_ended]), the pending asynchronous
    work, and the effects so far. *)
Record state := {
  _scene : Scene;
  _url : string;
  _references : gmap string Obj;
  _cancelled : bool;
  _finished : bool;
  aborted : bool;
  req_count : Z;
  req_ended : bool;
  chain : scene_stage;
  mesh_tasks : list mesh_task;
  texture_tasks : list texture_task;
  cancel_jobs : nat;
  trace : list effect }.

Definition set_scene (v : Scene) (s : state) : state :=
  {| _scene := v; _url := _url s; _references := _references s;
     _cancelled := _cancelled s; _finished := _finished s;
     aborted := aborted s; req_count := req_count s;
     req_ended := req_ended s; chain := chain s;
     mesh_tasks := mesh_tasks s; texture_tasks := texture_tasks s;
     cancel_jobs := cancel_jobs s; trace := trace s |}.

Definition set_references (v : gmap string Obj) (s : state) : state :=
  {| _scene := _scene s; _url := _url s; _references := v;
     _cancelled := _cancelled s; _finished := _finished s;
     aborted := aborted s; req_count := req_count s;
     req_ended := req_ended s; chain := chain s;
     mesh_tasks := mesh_tasks s; texture_tasks := texture_tasks s;
     cancel_jobs := cancel_jobs s; trace := trace s |}.

Definition set_cancelled (v : bool) (s : state) : state :=
  {| _scene := _scene s; _url := _url s; _references := _references s;
     _cancelled := v; _finished := _finished s;
     aborted := aborted s; req_count := req_count s;
     req_ended := req_ended s; chain := chain s;
     mesh_tasks := mesh_tasks s; texture_tasks := texture_tasks s;
     cancel_jobs := cancel_jobs s; trace := trace s |}.

Definition set_finished (v : bool) (s : state) : state :=
  {| _scene := _scene s; _url := _url s; _references := _references s;
     _cancelled := _cancelled s; _finished := v;
     aborted := aborted s; req_count := req_count s;
     req_ended := req_ended s; chain := chain s;
     mesh_tasks := mesh_tasks s; texture_tasks := texture_tasks s;
     cancel_jobs := cancel_jobs s; trace := trace s |}.

Definition set_aborted (v : bool) (s : state) : state :=
  {| _scene := _scene s; _url := _url s; _references := _references s;
     _cancelled := _cancelled s; _finished := _finished s;
     aborted := v; req_count := req_count s;
     req_ended := req_ended s; chain := chain s;
     mesh_tasks := mesh_tasks s; texture_tasks := texture_tasks s;
     cancel_jobs := cancel_jobs s; trace := trace s |}.

Definition set_req_count (v : Z) (s : state) : state :=
  {| _scene := _scene s; _url := _url s; _references := _references s;
     _cancelled := _cancelled s; _finished := _finished s;
     aborted := aborted s; req_count := v;
     req_ended := req_ended s; chain := chain s;
     mesh_tasks := mesh_tasks s; texture_tasks := texture_tasks s;
     cancel_jobs := cancel_jobs s; trace := trace s |}.

Definition set_req_ended (v : bool) (s : state) : state :=
  {| _scene := _scene s; _url := _url s; _references := _references s;
     _cancelled := _cancelled s; _finished := _finished s;
     aborted := aborted s; req_count := req_count s;
     req_ended := v; chain := chain s;
     mesh_tasks := mesh_tasks s; texture_tasks := texture_tasks s;
     cancel_jobs := cancel_jobs s; trace := trace s |}.

Definition set_chain (v : scene_stage) (s : state) : state :=
  {| _scene := _scene s; _url := _url s; _references := _references s;
     _cancelled := _cancelled s; _finished := _finished s;
     aborted := aborted s; req_count := req_count s;
     req_ended := req_ended s; chain := v;
     mesh_tasks := mesh_tasks s; texture_tasks := texture_tasks s;
     cancel_jobs := cancel_jobs s; trace := trace s |}.

Definition set_mesh_tasks (v : list mesh_task) (s : state) : state :=
  {| _scene := _scene s; _url := _url s; _references := _references s;
     _cancelled := _cancelled s; _finished := _finished s;
     aborted := aborted s; req_count := req_count s;
     req_ended := req_ended s; chain := chain s;
     mesh_tasks := v; texture_tasks := texture_tasks s;
     cancel_jobs := cancel_jobs s; trace := trace s |}.

Definition set_texture_tasks (v : list texture_task) (s : state) : state :=
  {| _scene := _scene s; _url := _url s; _references := _references s;
     _cancelled := _cancelled s; _finished := _finished s;
     aborted := aborted s; req_count := req_count s;
     req_ended := req_ended s; chain := chain s;
     mesh_tasks := mesh_tasks s; texture_tasks := v;
     cancel_jobs := cancel_jobs s; trace := trace s |}.

Definition set_cancel_jobs (v : nat) (s : state) : state :=
  {| _scene := _scene s; _url := _url s; _references := _references s;
     _cancelled := _cancelled s; _finished := _finished s;
     aborted := aborted s; req_count := req_count s;
     req_ended := req_ended s; chain := chain s;
     mesh_tasks := mesh_tasks s; texture_tasks := texture_tasks s;
     cancel_jobs := v; trace := trace s |}.

Definition emits (es : list effect) (s : state) : state :=
  {| _scene := _scene s; _url := _url s; _references := _references s;
     _cancelled := _cancelled s; _finished := _finished s;
     aborted := aborted s; req_count := req_count s;
     req_ended := req_ended s; chain := chain s;
     mesh_tasks := mesh_tasks s; texture_tasks := texture_tasks s;
     cancel_jobs := cancel_jobs s; trace := trace s ++ es |}.

Definition emit (e : effect) (s : state) : state := emits [e] s.

(** A statement either completes or throws. *)
Inductive completion := Normal | Throw (msg : string).

(** The value of a property read [obj[id]] on the reference object: an object
    stored by [_setReference], or a member inherited from [Object.prototype]
    (the reference object is created by the literal [{}]). *)
Inductive value :=
| Stored (o : Obj)
| Inherited (name : string).

Definition Object_prototype : list string :=
  ["constructor"; "__defineGetter__"; "__defineSetter__"; "hasOwnProperty";
   "__lookupGetter__"; "__lookupSetter__"; "isPrototypeOf";
   "propertyIsEnumerable"; "toString"; "valueOf"; "__proto__";
   "toLocaleString"].

(** [this._references[id]]; [None] is [undefined]. *)
Definition get_property (refs : gmap string Obj) (id : string) : option value :=
  match refs !! id with
  | Some o => Some (Stored o)
  | None => if decide (id ∈ Object_prototype) then Some (Inherited id) else None
  end.

(** ** Scenes and scene files used in the examples *)

Definition empty_scene : Scene :=
  {| scene_loaders := ∅; scene_entities := [] |}.

Definition empty_manifest : manifest :=
  {| mesh_register := None; texture_register := None; entity_list := None |}.

(** One texture and one generic entity. *)
Definition texture_and_entity : manifest :=
  {| mesh_register := None;
     texture_register := Some [("t1", {| texture_image := Some "a.png" |})];
     entity_list :=
       Some [{| item_type := Some "generic"; item_id := Some "e1";
                item_payload := EmptyString |}] |}.

(** A texture and a generic entity under the same identifier. *)
Definition shared_identifier : manifest :=
  {| mesh_register := None;
     texture_register := Some [("t1", {| texture_image := Some "a.png" |})];
     entity_list :=
       Some [{| item_type := Some "generic"; item_id := Some "t1";
                item_payload := EmptyString |}] |}.

(** * Viewer.js

    The viewer owns the canvas and the frame loop.  The calls that it makes
    on the objects it holds (the container, the render callback, the debug
    statistics, the render stage, Globe, TileTextureCache, LayerCollection,
    Scene) appear as effects of the trace, in the order of the calls; these
    calls, and the constructors of the classes that the viewer instantiates,
    are taken to return normally and not to call back into the viewer.
    [getElevation] and [getRayIntersection] compute with floating point
    numbers on the terrain of [Globe] and are not modelled.

    The browser is part of the state: [window.maprayRequestAnimationFrame]
    and [window.maprayCancelAnimationFrame] are the browser's
    requestAnimationFrame and cancelAnimationFrame, which hand out handles
    counting up from a non-negative identifier (so a handle is never 0),
    run a callback at most once and do not run a cancelled one.  The time
    stamps of [window.maprayNow] are numbers of JavaScript, kept abstract
    with the operations that the viewer applies to them. *)
Module Viewer.

Inductive RenderMode := SURFACE | WIREFRAME.

(** An object handed in by the options is known by a name. *)
Inductive DemProvider :=
| OptionsDemProvider (name : string)
| StandardDemProvider (prefix suffix : string).

Inductive ImageProvider :=
| OptionsImageProvider (name : string)
| StandardImageProvider (prefix suffix : string) (size zmin zmax : Z).

Inductive RenderCallback :=
| OptionsRenderCallback (name : string)
| NullRenderCallback.

(** The [options] argument; a property is [None] when it is missing (the
    values are objects, hence truthy when present). *)
Record Options := {
  dem_provider : option string;
  image_provider : option string;
  layers : option (list string);
  render_callback : option string;
  render_mode : option RenderMode;
  debug_stats : option string }.

(** The [container] argument: an ID or the element itself. *)
Inductive Container :=
| ById (id : string)
| ByElement (element : string).

(** The canvas: the size of its bitmap and the size that layout gives the
    element.  Sizes are non-negative integers. *)
Record Canvas := {
  width : N;
  height : N;
  clientWidth : N;
  clientHeight : N }.

Section Model.

(** Numbers of JavaScript, with the constant 0, subtraction, division and
    the constant 1000. *)
Variable number : Type.
Variable zero : number.
Variable sub : number -> number -> number.
Variable div : number -> number -> number.
Variable thousand : number.

(** [document.getElementById] *)
Variable getElementById : string -> option string.

Inductive effect :=
| CreateElement (tag : string)
| AppendChild (container : string)
| RemoveChild (container : string)
| Attach (callback : RenderCallback)
| Detach (callback : RenderCallback)
| RequestAnimationFrame (handle : N)
| CancelAnimationFrame (handle : N)
| MaprayNow (now_time : number)
| SetWidth (w : N)
| SetHeight (h : N)
| OnUpdateFrameInner (callback : RenderCallback) (delta_time : number)
| ClearStats
| Render
| StatsOnUpdate
| GlobeCancel
| TileTextureCacheCancel
| LayersCancel
| CancelLoaders.

Record state := {
  _container_element : string;
  _canvas_element : Canvas;
  _dem_provider : DemProvider;
  _image_provider : ImageProvider;
  _layers : option (list string);
  _render_mode : RenderMode;
  _debug_stats : option string;
  _render_callback : RenderCallback;
  _frame_req_id : N;
  _previous_time : option number;
  _is_destroyed : bool;
  (** the canvas is a child of the container *)
  displayed : bool;
  (** the browser: the last handle handed out, and the handles whose
      callback is still to run *)
  raf_last : N;
  raf_pending : gset N;
  trace : list effect }.

Definition set_canvas_element (x : Canvas) (s : state) : state :=
  {| _container_element := _container_element s; _canvas_element := x;
     _dem_provider := _dem_provider s; _image_provider := _image_provider s;
     _layers := _layers s; _render_mode := _render_mode s;
     _debug_stats := _debug_stats s; _render_callback := _render_callback s;
     _frame_req_id := _frame_req_id s; _previous_time := _previous_time s;
     _is_destroyed := _is_destroyed s; displayed := displayed s;
     raf_last := raf_last s; raf_pending := raf_pending s; trace := trace s |}.

Definition set_render_mode (x : RenderMode) (s : state) : state :=
  {| _container_element := _container_element s;
     _canvas_element := _canvas_element s;
     _dem_provider := _dem_provider s; _image_provider := _image_provider s;
     _layers := _layers s; _render_mode := x;
     _debug_stats := _debug_stats s; _render_callback := _render_callback s;
     _frame_req_id := _frame_req_id s; _previous_time := _previous_time s;
     _is_destroyed := _is_destroyed s; displayed := displayed s;
     raf_last := raf_last s; raf_pending := raf_pending s; trace := trace s |}.

Definition set_render_callback (x : RenderCallback) (s : state) : state :=
  {| _container_element := _container_element s;
     _canvas_element := _canvas_element s;
     _dem_provider := _dem_provider s; _image_provider := _image_provider s;
     _layers := _layers s; _render_mode := _render_mode s;
     _debug_stats := _debug_stats s; _render_callback := x;
     _frame_req_id := _frame_req_id s; _previous_time := _previous_time s;
     _is_destroyed := _is_destroyed s; displayed := displayed s;
     raf_last := raf_last s; raf_pending := raf_pending s; trace := trace s |}.

Definition set_frame_req_id (x : N) (s : state) : state :=
  {| _container_element := _container_element s;
     _canvas_element := _canvas_element s;
     _dem_provider := _dem_provider s; _image_provider := _image_provider s;
     _layers := _layers s; _render_mode := _render_mode s;
     _debug_stats := _debug_stats s; _render_callback := _render_callback s;
     _frame_req_id := x; _previous_time := _previous_time s;
     _is_destroyed := _is_destroyed s; displayed := displayed s;
     raf_last := raf_last s; raf_pending := raf_pending s; trace := trace s |}.

Definition set_previous_time (x : option number) (s : state) : state :=
  {| _container_element := _container_element s;
     _canvas_element := _canvas_element s;
     _dem_provider := _dem_provider s; _image_provider := _image_provider s;
     _layers := _layers s; _render_mode := _render_mode s;
     _debug_stats := _debug_stats s; _render_callback := _render_callback s;
     _frame_req_id := _frame_req_id s; _previous_time := x;
     _is_destroyed := _is_destroyed s; displayed := displayed s;
     raf_last := raf_last s; raf_pending := raf_pending s; trace := trace s |}.

Definition set_is_destroyed (x : bool) (s : state) : state :=
  {| _container_element := _container_element s;
     _canvas_element := _canvas_element s;
     _dem_provider := _dem_provider s; _image_provider := _image_provider s;
     _layers := _layers s; _render_mode := _render_mode s;
     _debug_stats := _debug_stats s; _render_callback := _render_callback s;
     _frame_req_id := _frame_req_id s; _previous_time := _previous_time s;
     _is_destroyed := x; displayed := displayed s;
     raf_last := raf_last s; raf_pending := raf_pending s; trace := trace s |}.

Definition set_displayed (x : bool) (s : state) : state :=
  {| _container_element := _container_element s;
     _canvas_element := _canvas_element s;
     _dem_provider := _dem_provider s; _image_provider := _image_provider s;
     _layers := _layers s; _render_mode := _render_mode s;
     _debug_stats := _debug_stats s; _render_callback := _render_callback s;
     _frame_req_id := _frame_req_id s; _previous_time := _previous_time s;
     _is_destroyed := _is_destroyed s; displayed := x;
     raf_last := raf_last s; raf_pending := raf_pending s; trace := trace s |}.

Definition set_raf (last : N) (pending : gset N) (s : state) : state :=
  {| _container_element := _container_element s;
     _canvas_element := _canvas_element s;
     _dem_provider := _dem_provider s; _image_provider := _image_provider s;
     _layers := _layers s; _render_mode := _render_mode s;
     _debug_stats := _debug_stats s; _render_callback := _render_callback s;
     _frame_req_id := _frame_req_id s; _previous_time := _previous_time s;
     _is_destroyed := _is_destroyed s; displayed := displayed s;
     raf_last := last; raf_pending := pending; trace := trace s |}.

Definition emit (e : effect) (s : state) : state :=
  {| _container_element := _container_element s;
     _canvas_element := _canvas_element s;
     _dem_provider := _dem_provider s; _image_provider := _image_provider s;
     _layers := _layers s; _render_mode := _render_mode s;
     _debug_stats := _debug_stats s; _render_callback := _render_callback s;
     _frame_req_id := _frame_req_id s; _previous_time := _previous_time s;
     _is_destroyed := _is_destroyed s; displayed := displayed s;
     raf_last := raf_last s; raf_pending := raf_pending s;
     trace := trace s ++ [e] |}.

(** [window.maprayRequestAnimationFrame( callback )] *)
Definition maprayRequestAnimationFrame (s : state) : N * state :=
  let handle := N.succ (raf_last s) in
  (handle,
   emit (RequestAnimationFrame handle)
     (set_raf handle ({[handle]} ∪ raf_pending s) s)).

(** [window.maprayCancelAnimationFrame( handle )] *)
Definition maprayCancelAnimationFrame (handle : N) (s : state) : state :=
  emit (CancelAnimationFrame handle)
    (set_raf (raf_last s) (raf_pending s ∖ {[handle]}) s).

Definition _createDemProvider (options : option Options) : DemProvider :=
  match options ≫= dem_provider with
  | Some name => OptionsDemProvider name
  | None => StandardDemProvider "/dem/" ".bin"
  end.

Definition _createImageProvider (options : option Options) : ImageProvider :=
  match options ≫= image_provider with
  | Some name => OptionsImageProvider name
  | None =>
      StandardImageProvider "http://cyberjapandata.gsi.go.jp/xyz/std/" ".png"
        256 0 18
  end.

(** The layers that the [LayerCollection] is built from; [None] stands for
    the empty object. *)
Definition _createLayerCollection (options : option Options)
  : option (list string) :=
  options ≫= layers.

(** [callback.attach( this )] on the callback of the options, or on a new
    [NullRenderCallback]. *)
Definition _createRenderCallback (options : option Options) (s : state)
  : state :=
  let callback :=
    match options ≫= render_callback with
    | Some name => OptionsRenderCallback name
    | None => NullRenderCallback
    end in
  set_render_callback callback (emit (Attach callback) s).

Definition _requestNextFrame (s : state) : state :=
  let (handle, s) := maprayRequestAnimationFrame s in
  set_frame_req_id handle s.

Definition _updateTime (now_time : number) (s : state) : number * state :=
  let s := emit (MaprayNow now_time) s in
  let delta_time :=
    match _previous_time s with
    | Some previous => div (sub now_time previous) thousand
    | None => zero
    end in
  (delta_time, set_previous_time (Some now_time) s).

(** [canvas.width = w] and [canvas.height = h] *)
Definition set_width (w : N) (s : state) : state :=
  let canvas := _canvas_element s in
  emit (SetWidth w)
    (set_canvas_element
       {| width := w; height := height canvas;
          clientWidth := clientWidth canvas;
          clientHeight := clientHeight canvas |} s).

Definition set_height (h : N) (s : state) : state :=
  let canvas := _canvas_element s in
  emit (SetHeight h)
    (set_canvas_element
       {| width := width canvas; height := h;
          clientWidth := clientWidth canvas;
          clientHeight := clientHeight canvas |} s).

Definition _updateCanvasSize (s : state) : state :=
  let s :=
    if negb (width (_canvas_element s) =? clientWidth (_canvas_element s))%N
    then set_width (clientWidth (_canvas_element s)) s
    else s in
  if negb (height (_canvas_element s) =? clientHeight (_canvas_element s))%N
  then set_height (clientHeight (_canvas_element s)) s
  else s.

Definition _finishDebugStats (s : state) : state :=
  match _debug_stats s with
  | None => s
  | Some _ => emit StatsOnUpdate s
  end.

(** The callback of the animation frame; [now_time] is what
    [window.maprayNow()] returns. *)
Definition _updateFrame (now_time : number) (s : state) : state :=
  let (delta_time, s) := _updateTime now_time s in
  let s := _requestNextFrame s in
  let s := _updateCanvasSize s in
  let s := emit (OnUpdateFrameInner (_render_callback s) delta_time) s in
  let s := match _debug_stats s with
           | Some _ => emit ClearStats s
           | None => s
           end in
  let s := emit Render s in
  _finishDebugStats s.

Definition destroy (s : state) : state :=
  if _is_destroyed s then s
  else
    let s :=
      if negb (_frame_req_id s =? 0)%N
      then set_frame_req_id 0%N
             (maprayCancelAnimationFrame (_frame_req_id s) s)
      else s in
    let s := emit (Detach (_render_callback s)) s in
    let s := _createRenderCallback None s in
    let s := set_displayed false (emit (RemoveChild (_container_element s)) s) in
    let s := emit GlobeCancel s in
    let s := emit TileTextureCacheCancel s in
    let s := emit LayersCancel s in
    let s := emit CancelLoaders s in
    set_is_destroyed true s.

(** The canvas that [_createCanvas] creates and appends to the container:
    a new canvas is 300 by 150, and [client] is the size that layout gives
    it in the container. *)
Definition _createCanvas (client : N * N) : Canvas :=
  {| width := 300; height := 150;
     clientWidth := client.1; clientHeight := client.2 |}.

(** The constructor once the container element is known; the first two
    effects are those of [_createCanvas], and [raf] is the browser's frame
    handle counter. *)
Definition construct (container_element : string) (options : option Options)
  (client : N * N) (raf : N) : state :=
  let canvas := _createCanvas client in
  let s := {| _container_element := container_element;
              _canvas_element := canvas;
              _dem_provider := _createDemProvider options;
              _image_provider := _createImageProvider options;
              _layers := _createLayerCollection options;
              _render_mode := default SURFACE (options ≫= render_mode);
              _debug_stats := options ≫= debug_stats;
              _render_callback := NullRenderCallback;
              _frame_req_id := 0%N;
              _previous_time := None;
              _is_destroyed := false;
              displayed := true;
              raf_last := raf;
              raf_pending := ∅;
              trace := [CreateElement "canvas";
                        AppendChild container_element] |} in
  let s := _createRenderCallback options s in
  let s := _requestNextFrame s in
  _updateCanvasSize s.

(** [new Viewer( container, options )]; [None] when the constructor throws:
    an ID that names no element makes [container.appendChild] a call on
    [null]. *)
Definition new_Viewer (container : Container) (options : option Options)
  (client : N * N) (raf : N) : option state :=
  let container_element :=
    match container with
    | ById id => getElementById id
    | ByElement element => Some element
    end in
  match container_element with
  | None => None
  | Some element => Some (construct element options client raf)
  end.

(** What happens to a viewer: the user destroys it or sets the render mode,
    the browser runs the callback of a frame request, layout gives the
    canvas a new size. *)
Inductive event :=
| Destroy
| SetRenderMode (val : RenderMode)
| AnimationFrame (handle : N) (now_time : number)
| Layout (w h : N).

Definition step (s : state) (e : event) : state :=
  match e with
  | Destroy => destroy s
  | SetRenderMode val => set_render_mode val s
  | AnimationFrame handle now_time =>
      if decide (handle ∈ raf_pending s)
      then _updateFrame now_time
             (set_raf (raf_last s) (raf_pending s ∖ {[handle]}) s)
      else s
  | Layout w h =>
      set_canvas_element
        {| width := width (_canvas_element s);
           height := height (_canvas_element s);
           clientWidth := w; clientHeight := h |} s
  end.

Definition run (s : state) (evs : list event) : state := foldl step s evs.

(** ** Observations *)

Definition is_now (e : effect) : option number :=
  match e with MaprayNow t => Some t | _ => None end.

Definition is_delta (e : effect) : option number :=
  match e with OnUpdateFrameInner _ d => Some d | _ => None end.

Definition is_render (e : effect) : bool :=
  match e with Render => true | _ => false end.

Definition is_stats (e : effect) : bool :=
  match e with ClearStats | StatsOnUpdate => true | _ => false end.

Definition is_resize (e : effect) : bool :=
  match e with SetWidth _ | SetHeight _ => true | _ => false end.

Definition is_layout (e : event) : bool :=
  match e with Layout _ _ => true | _ => false end.

(** The time stamps of the frames that have run. *)
Definition frame_times (s : state) : list number := omap is_now (trace s).

(** The elapsed times handed to the render callback. *)
Definition delta_times (s : state) : list number := omap is_delta (trace s).

Definition renders (s : state) : nat := length (filter is_render (trace s)).

Definition stats_calls (s : state) : nat := length (filter is_stats (trace s)).

Definition resizes (s : state) : nat := length (filter is_resize (trace s)).

(** The elapsed time of each frame of a list of time stamps: 0 for the
    first, the difference to the frame before in seconds for the others. *)
Fixpoint elapsed (previous : option number) (times : list number)
  : list number :=
  match times with
  | [] => []
  | t :: times =>
      match previous with
      | Some p => div (sub t p) thousand
      | None => zero
      end :: elapsed (Some t) times
  end.

(** The sizes of the canvas bitmap that still differ from the element's. *)
Definition stale (s : state) : nat :=
  ((if (width (_canvas_element s) =? clientWidth (_canvas_element s))%N
    then 0 else 1)
   + (if (height (_canvas_element s) =? clientHeight (_canvas_element s))%N
      then 0 else 1))%nat.

(** ** A frame in closed form *)

(** The assignments of [_updateCanvasSize]. *)
Definition resize_effects (s : state) : list effect :=
  (if (width (_canvas_element s) =? clientWidth (_canvas_element s))%N
   then [] else [SetWidth (clientWidth (_canvas_element s))])
  ++ (if (height (_canvas_element s) =? clientHeight (_canvas_element s))%N
      then [] else [SetHeight (clientHeight (_canvas_element s))]).

(** The elapsed time that [_updateTime] computes. *)
Definition delta_time (now_time : number) (s : state) : number :=
  match _previous_time s with
  | Some previous => div (sub now_time previous) thousand
  | None => zero
  end.

(** The calls of [_updateFrame], in order. *)
Definition frame_effects (now_time : number) (s : state) : list effect :=
  MaprayNow now_time :: RequestAnimationFrame (N.succ (raf_last s))
  :: resize_effects s
  ++ OnUpdateFrameInner (_render_callback s) (delta_time now_time s)
  :: match _debug_stats s with
     | Some _ => [ClearStats; Render; StatsOnUpdate]
     | None => [Render]
     end.

(** The calls of [destroy] on a viewer that lives. *)
Definition destroy_effects (s : state) : list effect :=
  [CancelAnimationFrame (_frame_req_id s); Detach (_render_callback s);
   Attach NullRenderCallback; RemoveChild (_container_element s);
   GlobeCancel; TileTextureCacheCancel; LayersCancel; CancelLoaders].

(** The life of a viewer: while it lives, one frame request is pending,
    the one whose handle it holds, and the canvas is displayed; once
    destroyed, no request is pending and the canvas is gone. *)
Definition lifecycle (s : state) : Prop :=
  if _is_destroyed s
  then raf_pending s = ∅ /\ _frame_req_id s = 0%N /\ displayed s = false /\
       _render_callback s = NullRenderCallback
  else raf_pending s = {[_frame_req_id s]} /\ _frame_req_id s ≠ 0%N /\
       displayed s = true.

(** What the render callback and the render stage have seen: one call each
    per frame, with the elapsed time of the frame. *)
Definition timing (s : state) : Prop :=
  delta_times s = elapsed None (frame_times s) /\
  _previous_time s = last (frame_times s) /\
  renders s = length (frame_times s) /\
  stats_calls s
  = match _debug_stats s with
    | Some _ => (2 * length (frame_times s))%nat
    | None => 0%nat
    end.

End Model.

Arguments CreateElement {number}.
Arguments AppendChild {number}.
Arguments RemoveChild {number}.
Arguments Attach {number}.
Arguments Detach {number}.
Arguments RequestAnimationFrame {number}.
Arguments CancelAnimationFrame {number}.
Arguments MaprayNow {number}.
Arguments SetWidth {number}.
Arguments SetHeight {number}.
Arguments OnUpdateFrameInner {number}.
Arguments ClearStats {number}.
Arguments Render {number}.
Arguments StatsOnUpdate {number}.
Arguments GlobeCancel {number}.
Arguments TileTextureCacheCancel {number}.
Arguments LayersCancel {number}.
Arguments CancelLoaders {number}.
Arguments _container_element {number}.
Arguments _canvas_element {number}.
Arguments _dem_provider {number}.
Arguments _image_provider {number}.
Arguments _layers {number}.
Arguments _render_mode {number}.
Arguments _debug_stats {number}.
Arguments _render_callback {number}.
Arguments _frame_req_id {number}.
Arguments _previous_time {number}.
Arguments _is_destroyed {number}.
Arguments displayed {number}.
Arguments raf_last {number}.
Arguments raf_pending {number}.
Arguments trace {number}.
Arguments set_canvas_element {number}.
Arguments set_render_mode {number}.
Arguments set_render_callback {number}.
Arguments set_frame_req_id {number}.
Arguments set_previous_time {number}.
Arguments set_is_destroyed {number}.
Arguments set_displayed {number}.
Arguments set_raf {number}.
Arguments emit {number}.
Arguments maprayRequestAnimationFrame {number}.
Arguments maprayCancelAnimationFrame {number}.
Arguments _createRenderCallback {number}.
Arguments _requestNextFrame {number}.
Arguments _updateTime {number}.
Arguments set_width {number}.
Arguments set_height {number}.
Arguments _updateCanvasSize {number}.
Arguments _finishDebugStats {number}.
Arguments _updateFrame {number}.
Arguments destroy {number}.
Arguments Destroy {number}.
Arguments SetRenderMode {number}.
Arguments AnimationFrame {number}.
Arguments Layout {number}.
Arguments step {number}.
Arguments run {number}.
Arguments is_now {number}.
Arguments is_delta {number}.
Arguments is_render {number}.
Arguments is_stats {number}.
Arguments is_resize {number}.
Arguments is_layout {number}.
Arguments frame_times {number}.
Arguments delta_times {number}.
Arguments renders {number}.
Arguments stats_calls {number}.
Arguments resizes {number}.
Arguments elapsed {number}.
Arguments stale {number}.
Arguments resize_effects {number}.
Arguments delta_time {number}.
Arguments frame_effects {number}.
Arguments destroy_effects {number}.
Arguments lifecycle {number}.
Arguments timing {number}.

End Viewer.

(** ** The loader *)

Section Loader.

(** The handle under which the scene knows this loader, the
    [options.transform] callback, and the document that [response.json()]
    delivers for the scene URL. *)
Variable this : nat.
Variable _transform : string -> ResourceType -> TransformResult.
Variable oscene : manifest.

Definition _make_fetch_params (tr : TransformResult) : FetchInit :=
  {| init_credentials := credentials (default OMIT (tr_credentials tr));
     init_headers := tr_headers tr |}.

Definition getReference (s : state) (id : string) : option value :=
  get_property (_references s) id.

(** [this._references[id] = item] stores an entry of the reference object.
    (Under the name ["__proto__"] the assignment would replace the prototype
    of the object instead; the identifiers of a scene file are taken to
    differ from it.) *)
Definition _setReference (id : string) (item : Obj) (s : state) : state :=
  set_references (<[id := item]> (_references s)) s.

Definition scene_addLoader (s : state) : state :=
  emit AddLoader (set_scene (addLoader this (_scene s)) s).

Definition scene_removeLoader (s : state) : state :=
  emit RemoveLoader (set_scene (removeLoader this (_scene s)) s).

Definition scene_addEntity (entity : Entity) (s : state) : state :=
  emit (AddEntity entity) (set_scene (addEntity entity (_scene s)) s).

Definition _check_cancel (s : state) : completion :=
  if _cancelled s then Throw "canceled" else Normal.

Definition _cancel_callback (s : state) : state :=
  if _finished s then s else emit (Callback false) s.

Definition _success_callback (s : state) : state :=
  if _cancelled s then s
  else emit (Callback true) (scene_removeLoader (set_finished true s)).

Definition _fail_callback (msg : string) (s : state) : state :=
  if _cancelled s then s
  else emit (Callback false)
         (scene_removeLoader (set_finished true (emit (ConsoleError msg) s))).

Definition cancel (s : state) : state :=
  if _cancelled s then s
  else
    let s := set_aborted true (emit AbortRequests s) in
    let s := set_cancelled true s in
    let s := scene_removeLoader s in
    emit QueueCancelJob (set_cancel_jobs (S (cancel_jobs s)) s).

Definition entity_class (type : string) : option EntityKind :=
  if decide (type = "generic") then Some GenericEntity
  else if decide (type = "markerline") then Some MarkerLineEntity
  else if decide (type = "text") then Some TextEntity
  else None.

(** One turn of the loop of [_load_entity_list]. *)
Definition load_entity (s : state) (item : entity_json) : state :=
  let type := default "generic" (truthy (item_type item)) in
  match entity_class type with
  | None => emit (ConsoleError ("mapray: unknown entity type: " +:+ type)) s
  | Some kind =>
      let entity := {| entity_kind := kind; entity_item := item |} in
      let s := scene_addEntity entity s in
      match truthy (item_id item) with
      | Some id => _setReference id (EntityObj entity) s
      | None => s
      end
  end.

Definition _load_entity_list (s : state) : state :=
  match entity_list oscene with
  | None => s
  | Some items => foldl load_entity s items
  end.

Definition _postload_object (s : state) : state :=
  let s := emit EnterPostload s in
  if _cancelled s then s
  else _success_callback (_load_entity_list s).

Definition _postload_object_ifNoReq (s : state) : state :=
  let s := set_req_count (req_count s - 1) s in
  if (req_count s =? 0) && req_ended s then _postload_object s else s.

Definition _load_mesh_binary (id url : string) (s : state) : state :=
  let tr := _transform url MESH in
  let s := emit (Fetch (tr_url tr) (_make_fetch_params tr)) s in
  let task := {| mt_id := id; mt_url := tr_url tr; mt_stage := MeshFetching |} in
  let s := set_mesh_tasks (mesh_tasks s ++ [task]) s in
  set_req_count (req_count s + 1) s.

(** One turn of the loop of [_load_mesh_register]. *)
Definition load_mesh (s : state) (entry : string * mesh_json) : state :=
  let (id, mesh) := entry in
  match truthy (mesh_binary mesh) with
  | Some url => _load_mesh_binary id url s
  | None =>
      match mesh_vertices mesh with
      | Some _ => _setReference id (MeshOfJson mesh) s
      | None => s
      end
  end.

Definition _load_mesh_register (s : state) : state :=
  match mesh_register oscene with
  | None => s
  | Some register => foldl load_mesh s register
  end.

Definition crossOrigin (tr : TransformResult) : option string :=
  match tr_credentials tr with
  | Some SAME_ORIGIN => Some "anonymous"
  | Some INCLUDE => Some "use-credentials"
  | _ => None
  end.

Definition _load_texture_image (id url : string) (s : state) : state :=
  let tr := _transform url IMAGE in
  let image := {| image_crossOrigin := crossOrigin tr; image_src := tr_url tr |} in
  let task := {| tt_id := id; tt_image := image; tt_stage := ImageLoading |} in
  let s := set_texture_tasks (texture_tasks s ++ [task]) s in
  let s := set_req_count (req_count s + 1) s in
  emit (ImageRequest image) s.

(** One turn of the loop of [_load_texture_register]. *)
Definition load_texture (s : state) (entry : string * texture_json) : state :=
  let (id, texture) := entry in
  match truthy (texture_image texture) with
  | Some url => _load_texture_image id url s
  | None => s
  end.

Definition _load_texture_register (s : state) : state :=
  match texture_register oscene with
  | None => s
  | Some register => foldl load_texture s register
  end.

Definition _load_object (s : state) : state :=
  let s := set_req_ended false (set_req_count 0 s) in
  let s := _load_mesh_register s in
  let s := _load_texture_register s in
  let s := if req_count s =? 0 then _postload_object s else s in
  set_req_ended true s.

Definition failed_to_retrieve (url : string) : string :=
  "mapray: failed to retrieve: " +:+ url.

Definition _loadFile (s : state) : state :=
  let tr := _transform (_url s) SCENE in
  set_chain SceneFetching (emit (Fetch (tr_url tr) (_make_fetch_params tr)) s).

(** [new SceneLoader( scene, url, options )] *)
Definition new_SceneLoader (scene : Scene) (url : string) : state :=
  let s := {| _scene := scene; _url := url; _references := ∅;
              _cancelled := false; _finished := false; aborted := false;
              req_count := 0; req_ended := false; chain := SceneFetching;
              mesh_tasks := []; texture_tasks := []; cancel_jobs := 0%nat;
              trace := [] |} in
  let s := _loadFile s in
  scene_addLoader s.

(** ** Reactions

    What the environment can make happen, one reaction at a time.  A task is
    named by its position in the order of dispatch.  An event that does not
    fit the stage of its chain (a response for a fetch that is not pending)
    leaves the state as it is. *)
Inductive event :=
| Cancel                                  (* the user calls cancel() *)
| CancelJob                               (* the job queued by cancel() *)
| SceneResponse (ok : bool)               (* scene fetch fulfilled / rejected *)
| SceneJson (ok : bool)                   (* response.json() fulfilled / rejected *)
| SceneCatch                              (* the .catch of _loadFile *)
| MeshResponse (i : nat) (ok : bool)      (* mesh fetch fulfilled / rejected *)
| MeshBuffer (i : nat) (buffer : option (list Byte.byte))
| MeshCatch (i : nat)                     (* the .catch of _load_mesh_binary *)
| MeshThen (i : nat)                      (* the last .then of _load_mesh_binary *)
| ImageLoad (i : nat)                     (* image.onload *)
| ImageError (i : nat).                   (* image.onerror *)

Definition set_mesh_stage (i : nat) (t : mesh_task) (st : mesh_stage)
  (s : state) : state :=
  set_mesh_tasks
    (<[i := {| mt_id := mt_id t; mt_url := mt_url t; mt_stage := st |}]>
       (mesh_tasks s)) s.

Definition set_image_stage (i : nat) (t : texture_task) (st : image_stage)
  (s : state) : state :=
  set_texture_tasks
    (<[i := {| tt_id := tt_id t; tt_image := tt_image t; tt_stage := st |}]>
       (texture_tasks s)) s.

Definition scene_step (e : event) (s : state) : state :=
  match e, chain s with
  | SceneResponse true, SceneFetching =>
      match _check_cancel s with
      | Throw _ => set_chain SceneRejected s
      | Normal => set_chain SceneParsing s
      end
  | SceneResponse false, SceneFetching => set_chain SceneRejected s
  | SceneJson true, SceneParsing =>
      match _check_cancel s with
      | Throw _ => set_chain SceneRejected s
      | Normal => set_chain SceneLoaded (_load_object s)
      end
  | SceneJson false, SceneParsing => set_chain SceneRejected s
  | SceneCatch, SceneRejected =>
      let tr := _transform (_url s) SCENE in
      set_chain SceneFailed (_fail_callback (failed_to_retrieve (tr_url tr)) s)
  | _, _ => s
  end.

Definition mesh_step (i : nat) (e : event) (t : mesh_task) (s : state) : state :=
  match e, mt_stage t with
  | MeshResponse _ true, MeshFetching =>
      match _check_cancel s with
      | Throw _ => set_mesh_stage i t MeshRejected s
      | Normal => set_mesh_stage i t MeshReading s
      end
  | MeshResponse _ false, MeshFetching => set_mesh_stage i t MeshRejected s
  | MeshBuffer _ (Some buffer), MeshReading =>
      match _check_cancel s with
      | Throw _ => set_mesh_stage i t MeshRejected s
      | Normal =>
          set_mesh_stage i t (MeshSettled true)
            (_setReference (mt_id t) (MeshOfBuffer buffer) s)
      end
  | MeshBuffer _ None, MeshReading => set_mesh_stage i t MeshRejected s
  | MeshCatch _, MeshRejected =>
      set_mesh_stage i t (MeshSettled false)
        (emit (ConsoleError (failed_to_retrieve (mt_url t))) s)
  | MeshThen _, MeshSettled ok =>
      _postload_object_ifNoReq (set_mesh_stage i t (MeshDone ok) s)
  | _, _ => s
  end.

Definition image_step (i : nat) (e : event) (t : texture_task) (s : state)
  : state :=
  match e, tt_stage t with
  | ImageLoad _, ImageLoading =>
      let s := set_image_stage i t (ImageDone true) s in
      let s := if negb (_cancelled s)
               then _setReference (tt_id t) (TextureOfImage (tt_image t)) s
               else s in
      _postload_object_ifNoReq s
  | ImageError _, ImageLoading =>
      let s := set_image_stage i t (ImageDone false) s in
      let s := emit (ConsoleError (failed_to_retrieve (image_src (tt_image t)))) s in
      _postload_object_ifNoReq s
  | _, _ => s
  end.

Definition step (s : state) (e : event) : state :=
  match e with
  | Cancel => cancel s
  | CancelJob =>
      match cancel_jobs s with
      | O => s
      | S n => _cancel_callback (set_cancel_jobs n s)
      end
  | SceneResponse _ | SceneJson _ | SceneCatch => scene_step e s
  | MeshResponse i _ | MeshBuffer i _ | MeshCatch i | MeshThen i =>
      match mesh_tasks s !! i with
      | Some t => mesh_step i e t s
      | None => s
      end
  | ImageLoad i | ImageError i =>
      match texture_tasks s !! i with
      | Some t => image_step i e t s
      | None => s
      end
  end.

Definition run (s : state) (evs : list event) : state := foldl step s evs.

(** ** Observations on the trace *)

Fixpoint count {A} (p : A -> bool) (l : list A) : nat :=
  match l with
  | [] => 0
  | x :: l => ((if p x then 1 else 0) + count p l)%nat
  end.

Definition is_callback (e : effect) : option bool :=
  match e with Callback b => Some b | _ => None end.

Definition is_entity (e : effect) : option Entity :=
  match e with AddEntity x => Some x | _ => None end.

Definition is_addLoader (e : effect) : bool :=
  match e with AddLoader => true | _ => false end.

Definition is_removeLoader (e : effect) : bool :=
  match e with RemoveLoader => true | _ => false end.

Definition is_postload (e : effect) : bool :=
  match e with EnterPostload => true | _ => false end.

Definition is_request (e : effect) : bool :=
  match e with Fetch _ _ | ImageRequest _ => true | _ => false end.

(** The loader is added to the scene before the first request is issued. *)
Fixpoint registered_before_io (tr : list effect) : bool :=
  match tr with
  | [] => false
  | e :: tr =>
      if is_addLoader e then true
      else if is_request e then false
      else registered_before_io tr
  end.

(** The arguments of the calls of the finish callback, in order. *)
Definition callbacks (s : state) : list bool := omap is_callback (trace s).

Definition postload_calls (s : state) : nat := count is_postload (trace s).

Definition removeLoader_calls (s : state) : nat := count is_removeLoader (trace s).

Definition addLoader_calls (s : state) : nat := count is_addLoader (trace s).

(** Tasks whose last reaction has not run. *)
Definition mesh_pending (t : mesh_task) : bool :=
  match mt_stage t with MeshDone _ => false | _ => true end.

Definition image_pending (t : texture_task) : bool :=
  match tt_stage t with ImageDone _ => false | _ => true end.

Definition outstanding (s : state) : nat :=
  (count mesh_pending (mesh_tasks s) + count image_pending (texture_tasks s))%nat.

(** ** The loops in closed form *)

(** The entity that [_load_entity_list] constructs for one item, if any. *)
Definition build (item : entity_json) : option Entity :=
  match entity_class (default "generic" (truthy (item_type item))) with
  | Some kind => Some {| entity_kind := kind; entity_item := item |}
  | None => None
  end.

Definition entity_effect (item : entity_json) : effect :=
  match build item with
  | Some entity => AddEntity entity
  | None =>
      ConsoleError ("mapray: unknown entity type: "
                    +:+ default "generic" (truthy (item_type item)))
  end.

Definition register_entity (refs : gmap string Obj) (item : entity_json)
  : gmap string Obj :=
  match build item, truthy (item_id item) with
  | Some entity, Some id => <[id := EntityObj entity]> refs
  | _, _ => refs
  end.

Definition mesh_request (entry : string * mesh_json) : option mesh_task :=
  match truthy (mesh_binary entry.2) with
  | Some url =>
      Some {| mt_id := entry.1; mt_url := tr_url (_transform url MESH);
              mt_stage := MeshFetching |}
  | None => None
  end.

Definition mesh_effect (entry : string * mesh_json) : option effect :=
  match truthy (mesh_binary entry.2) with
  | Some url =>
      let tr := _transform url MESH in
      Some (Fetch (tr_url tr) (_make_fetch_params tr))
  | None => None
  end.

Definition register_mesh (refs : gmap string Obj) (entry : string * mesh_json)
  : gmap string Obj :=
  match truthy (mesh_binary entry.2), mesh_vertices entry.2 with
  | None, Some _ => <[entry.1 := MeshOfJson entry.2]> refs
  | _, _ => refs
  end.

Definition texture_request (entry : string * texture_json)
  : option texture_task :=
  match truthy (texture_image entry.2) with
  | Some url =>
      let tr := _transform url IMAGE in
      Some {| tt_id := entry.1;
              tt_image := {| image_crossOrigin := crossOrigin tr;
                             image_src := tr_url tr |};
              tt_stage := ImageLoading |}
  | None => None
  end.

Definition items : list entity_json := default [] (entity_list oscene).

Definition meshes : list (string * mesh_json) :=
  default [] (mesh_register oscene).

Definition textures : list (string * texture_json) :=
  default [] (texture_register oscene).

(** The number of external sub-resources of the scene file. *)
Definition external_requests : nat :=
  (length (omap mesh_request meshes) + length (omap texture_request textures))%nat.

(** [_load_object] has run. *)
Definition loaded (s : state) : bool :=
  match chain s with SceneLoaded => true | _ => false end.

(** ** The invariant of a load operation

    [scene] is the scene the loader was constructed on. *)
Record invariant (scene : Scene) (s : state) : Prop := {
  inv_before : chain s ≠ SceneLoaded ->
    mesh_tasks s = [] /\ texture_tasks s = [] /\ req_ended s = false /\
    req_count s = 0 /\ postload_calls s = 0%nat;
  inv_joined : chain s = SceneLoaded ->
    req_ended s = true /\ req_count s = Z.of_nat (outstanding s) /\
    postload_calls s = (if req_count s =? 0 then 1%nat else 0%nat);
  inv_finished : _finished s = true ->
    chain s = SceneFailed \/ (chain s = SceneLoaded /\ req_count s = 0);
  inv_success : chain s = SceneLoaded -> req_count s = 0 ->
    _cancelled s = false -> _finished s = true;
  inv_callbacks : callbacks s =
    if _finished s then [loaded s]
    else if _cancelled s
         then match cancel_jobs s with O => [false] | S _ => [] end
         else [];
  inv_jobs : (cancel_jobs s <= 1)%nat /\
    (_cancelled s = false -> cancel_jobs s = 0%nat);
  inv_aborted : aborted s = _cancelled s;
  inv_registered : this ∈ scene_loaders (_scene s) <->
    _finished s = false /\ _cancelled s = false;
  inv_removeLoader : removeLoader_calls s =
    ((if _finished s then 1 else 0) + (if _cancelled s then 1 else 0))%nat;
  inv_addLoader : addLoader_calls s = 1%nat;
  inv_entities : scene_entities (_scene s) =
    scene_entities scene ++
    (if _finished s && loaded s
     then omap build items else []) }.

(** ** Where the entries of the reference table come from *)

Definition mesh_succeeded (t : mesh_task) : bool :=
  match mt_stage t with
  | MeshSettled true | MeshDone true => true
  | _ => false
  end.

Definition image_succeeded (t : texture_task) : bool :=
  match tt_stage t with ImageDone true => true | _ => false end.

(** A mesh given by its vertices in the scene file. *)
Definition inline_mesh (entry : string * mesh_json) : bool :=
  match truthy (mesh_binary entry.2), mesh_vertices entry.2 with
  | None, Some _ => true
  | _, _ => false
  end.

(** An item of a known type that carries the identifier [k]. *)
Definition identified (k : string) (item : entity_json) : bool :=
  match build item, truthy (item_id item) with
  | Some _, Some k' => bool_decide (k' = k)
  | _, _ => false
  end.

Definition produced (s : state) (k : string) : Prop :=
  (exists entry, entry ∈ meshes /\ entry.1 = k /\ inline_mesh entry = true) \/
  (exists i t, mesh_tasks s !! i = Some t /\ mt_id t = k /\
               mesh_succeeded t = true) \/
  (exists i t, texture_tasks s !! i = Some t /\ tt_id t = k /\
               image_succeeded t = true) \/
  (_finished s = true /\ loaded s = true /\
   exists item, item ∈ items /\ identified k item = true).

Definition references_sound (s : state) : Prop :=
  forall k, is_Some (_references s !! k) -> produced s k.

(** The reference table right after [_load_entity_list]. *)
Definition entities_registered (s : state) : Prop :=
  _finished s = true -> loaded s = true ->
  exists refs, _references s = foldl register_entity refs items.

(** The entity that the table holds for [k] once the items have been
    registered: the one built from the last item of a known type that
    carries the identifier [k]. *)
Definition registered_entity (k : string) (l : list entity_json)
  : option Entity :=
  foldl (fun found item =>
           if identified k item then build item else found) None l.

(** ** Requests and console errors *)

Definition is_error (e : effect) : bool :=
  match e with ConsoleError _ => true | _ => false end.

Definition as_request (e : effect) : option effect :=
  match e with
  | Fetch _ _ | ImageRequest _ => Some e
  | _ => None
  end.

(** The requests issued so far, in order, and the number of console errors. *)
Definition requests (s : state) : list effect := omap as_request (trace s).

Definition errors (s : state) : nat := count is_error (trace s).

Definition entities_added (s : state) : list Entity := omap is_entity (trace s).

(** A request whose failure has been reported. *)
Definition mesh_failed (t : mesh_task) : bool :=
  match mt_stage t with
  | MeshSettled false | MeshDone false => true
  | _ => false
  end.

Definition image_failed (t : texture_task) : bool :=
  match tt_stage t with ImageDone false => true | _ => false end.

(** An item whose type is none of the known ones. *)
Definition unknown (item : entity_json) : bool :=
  match build item with Some _ => false | None => true end.

Definition image_request (t : texture_task) : effect :=
  ImageRequest (tt_image t).

(** The requests for the sub-resources of the scene file, as
    [_load_mesh_register] and [_load_texture_register] issue them. *)
Definition sub_requests : list effect :=
  omap mesh_effect meshes ++ (image_request <$> omap texture_request textures).

Definition scene_request (url : string) : effect :=
  Fetch (tr_url (_transform url SCENE))
    (_make_fetch_params (_transform url SCENE)).

Definition mesh_key (t : mesh_task) : string * string := (mt_id t, mt_url t).

Definition texture_key (t : texture_task) : string * Image :=
  (tt_id t, tt_image t).

(** What a load keeps account of; [url] is the URL the loader was
    constructed with. *)
Record accounts (url : string) (s : state) : Prop := {
  acc_url : _url s = url;
  acc_empty : chain s ≠ SceneLoaded -> _references s = ∅;
  acc_failed : chain s = SceneFailed ->
    _finished s = true \/ _cancelled s = true;
  acc_meshes : chain s = SceneLoaded ->
    mesh_key <$> mesh_tasks s = mesh_key <$> omap mesh_request meshes;
  acc_textures : chain s = SceneLoaded ->
    texture_key <$> texture_tasks s
    = texture_key <$> omap texture_request textures;
  acc_requests : requests s =
    scene_request url :: (if loaded s then sub_requests else []);
  acc_errors : errors s =
    (count mesh_failed (mesh_tasks s) + count image_failed (texture_tasks s)
     + (if _finished s
        then (if loaded s then count unknown items else 1)
        else 0))%nat;
  acc_entities : entities_added s =
    if _finished s && loaded s then omap build items else [];
  acc_trace : _cancelled s = false -> chain s ≠ SceneLoaded ->
    trace s =
    scene_request url :: AddLoader ::
      (if _finished s
       then [ConsoleError (failed_to_retrieve (tr_url (_transform url SCENE)));
             RemoveLoader; Callback false]
       else []) }.



(** What a successful load does last: the entities of the scene file are
    handed to the scene, the loader leaves the scene and the finish
    callback is called. *)
Definition success_effects : list effect :=
  (entity_effect <$> items) ++ [RemoveLoader; Callback true].

(** What cancel() does on a loader that is not cancelled. *)
Definition cancel_effects (s : state) : list effect :=
  if _cancelled s then [AbortRequests; RemoveLoader; QueueCancelJob] else [].

Definition success_is_last (s : state) : Prop :=
  _finished s = true -> loaded s = true ->
  exists pre, trace s = pre ++ success_effects ++ cancel_effects s.

(** ** How many reactions a load can still have

    A fetch of a mesh is followed by at most four reactions (response,
    buffer or rejection, catch, final then), an image by one, the fetch of
    the scene file by at most three. *)
Definition stage_reactions (st : mesh_stage) : nat :=
  match st with
  | MeshFetching => 4
  | MeshReading => 3
  | MeshRejected => 2
  | MeshSettled _ => 1
  | MeshDone _ => 0
  end.

Definition mesh_reactions (t : mesh_task) : nat := stage_reactions (mt_stage t).

Definition image_stage_reactions (st : image_stage) : nat :=
  match st with ImageLoading => 1 | ImageDone _ => 0 end.

Definition image_reactions (t : texture_task) : nat :=
  image_stage_reactions (tt_stage t).

Definition sub_reactions : nat :=
  (sum_list (mesh_reactions <$> omap mesh_request meshes)
   + sum_list (image_reactions <$> omap texture_request textures))%nat.

Definition scene_reactions (st : scene_stage) : nat :=
  match st with
  | SceneFetching => 3 + sub_reactions
  | SceneParsing => 2 + sub_reactions
  | SceneRejected => 1
  | SceneFailed | SceneLoaded => 0
  end.

Definition reactions_left (s : state) : nat :=
  (scene_reactions (chain s)
   + sum_list (mesh_reactions <$> mesh_tasks s)
   + sum_list (image_reactions <$> texture_tasks s))%nat.

(** The reactions to a response, as opposed to what the user does. *)
Definition is_response (e : event) : bool :=
  match e with Cancel | CancelJob => false | _ => true end.
(** ** Counting and the loops *)

Lemma count_app {A} (p : A -> bool) (l1 l2 : list A) :
  count p (l1 ++ l2) = (count p l1 + count p l2)%nat.
Proof. induction l1 as [|x l1 IH]; simpl; [done|]. rewrite IH. lia. Qed.

Lemma count_none {A} (p : A -> bool) (l : list A) :
  (forall x, x ∈ l -> p x = false) -> count p l = 0%nat.
Proof.
  induction l as [|x l IH]; intros H; simpl; [done|].
  rewrite (H x) by left. rewrite IH; [done|]. intros y Hy. apply H. by right.
Qed.

Lemma count_insert {A} (p : A -> bool) (l : list A) (i : nat) (x y : A) :
  l !! i = Some x ->
  (count p (<[i := y]> l) + (if p x then 1 else 0)
   = count p l + (if p y then 1 else 0))%nat.
Proof.
  revert i. induction l as [|a l IH]; intros [|i] H; simplify_eq/=.
  - lia.
  - specialize (IH i H). lia.
Qed.

Lemma load_entities_eq (l : list entity_json) (s : state) :
  foldl load_entity s l =
  set_references (foldl register_entity (_references s) l)
    (set_scene {| scene_loaders := scene_loaders (_scene s);
                  scene_entities := scene_entities (_scene s) ++ omap build l |}
       (emits (entity_effect <$> l) s)).
Proof.
  revert s. induction l as [|item l IH]; intros s; simpl.
  - destruct s as [[] ]. unfold set_references, set_scene, emits; simpl.
    by rewrite !app_nil_r.
  - rewrite IH. unfold load_entity, register_entity, entity_effect, build.
    destruct (entity_class _) as [kind|]; simpl.
    + destruct (truthy (item_id item)) as [id|];
        unfold set_references, set_scene, emits, scene_addEntity, emit, emits;
        simpl; by rewrite <- !app_assoc.
    + unfold set_references, set_scene, emits, emit, emits; simpl.
      by rewrite <- !app_assoc.
Qed.

Lemma load_meshes_eq (l : list (string * mesh_json)) (s : state) :
  foldl load_mesh s l =
  set_references (foldl register_mesh (_references s) l)
    (set_mesh_tasks (mesh_tasks s ++ omap mesh_request l)
       (set_req_count (req_count s + Z.of_nat (length (omap mesh_request l)))
          (emits (omap mesh_effect l) s))).
Proof.
  revert s. induction l as [|[id mesh] l IH]; intros s; simpl.
  - destruct s. unfold set_references, set_mesh_tasks, set_req_count, emits;
      simpl. rewrite !app_nil_r. f_equal. lia.
  - rewrite IH. unfold register_mesh, mesh_request, mesh_effect; simpl.
    destruct (truthy (mesh_binary mesh)) as [url|]; simpl.
    + unfold set_references, set_mesh_tasks, set_req_count, emits,
        _load_mesh_binary, emit, emits; simpl.
      rewrite <- !app_assoc. simpl. f_equal. unfold omap. lia.
    + destruct (mesh_vertices mesh); done.
Qed.

Lemma load_textures_eq (l : list (string * texture_json)) (s : state) :
  foldl load_texture s l =
  set_texture_tasks (texture_tasks s ++ omap texture_request l)
    (set_req_count (req_count s + Z.of_nat (length (omap texture_request l)))
       (emits ((fun t => ImageRequest (tt_image t)) <$> omap texture_request l) s)).
Proof.
  revert s. induction l as [|[id texture] l IH]; intros s; simpl.
  - destruct s. unfold set_texture_tasks, set_req_count, emits; simpl.
    rewrite !app_nil_r. f_equal. lia.
  - rewrite IH. unfold texture_request; simpl.
    destruct (truthy (texture_image texture)) as [url|]; simpl; [|done].
    unfold set_texture_tasks, set_req_count, emits, _load_texture_image,
      emit, emits; simpl.
    rewrite <- !app_assoc. simpl. f_equal. unfold omap. lia.
Qed.

Lemma _load_entity_list_eq (s : state) :
  _load_entity_list s = foldl load_entity s items.
Proof. unfold _load_entity_list, items. by destruct (entity_list oscene). Qed.

Lemma _load_mesh_register_eq (s : state) :
  _load_mesh_register s = foldl load_mesh s meshes.
Proof. unfold _load_mesh_register, meshes. by destruct (mesh_register oscene). Qed.

Lemma _load_texture_register_eq (s : state) :
  _load_texture_register s = foldl load_texture s textures.
Proof.
  unfold _load_texture_register, textures.
  by destruct (texture_register oscene).
Qed.

Lemma count_all {A} (p : A -> bool) (l : list A) :
  (forall x, x ∈ l -> p x = true) -> count p l = length l.
Proof.
  induction l as [|x l IH]; intros H; simpl; [done|].
  rewrite (H x) by left. rewrite IH; [done|]. intros y Hy. apply H. by right.
Qed.

Lemma count_mesh_requests (l : list (string * mesh_json)) :
  count mesh_pending (omap mesh_request l) = length (omap mesh_request l).
Proof.
  apply count_all. intros t [entry [_ He]]%list_elem_of_omap.
  unfold mesh_request in He. destruct (truthy _); by simplify_eq.
Qed.

Lemma count_texture_requests (l : list (string * texture_json)) :
  count image_pending (omap texture_request l)
  = length (omap texture_request l).
Proof.
  apply count_all. intros t [entry [_ He]]%list_elem_of_omap.
  unfold texture_request in He. destruct (truthy _); by simplify_eq.
Qed.

Lemma omap_callback_entities (l : list entity_json) :
  omap is_callback (entity_effect <$> l) = [].
Proof.
  induction l as [|item l IH]; simpl; [done|].
  unfold entity_effect at 1. by destruct (build item).
Qed.

Lemma omap_entity_entities (l : list entity_json) :
  omap is_entity (entity_effect <$> l) = omap build l.
Proof.
  induction l as [|item l IH]; csimpl; [done|].
  unfold entity_effect at 1. destruct (build item); csimpl; by rewrite IH.
Qed.

Lemma count_entities (p : effect -> bool) (l : list entity_json) :
  (forall e, p (AddEntity e) = false) -> (forall m, p (ConsoleError m) = false) ->
  count p (entity_effect <$> l) = 0%nat.
Proof.
  intros H1 H2. apply count_none. intros e [item [-> _]]%list_elem_of_fmap.
  unfold entity_effect. by destruct (build item).
Qed.

Lemma count_mesh_effects (p : effect -> bool) (l : list (string * mesh_json)) :
  (forall u i, p (Fetch u i) = false) -> count p (omap mesh_effect l) = 0%nat.
Proof.
  intros H. apply count_none. intros e [entry [_ He]]%list_elem_of_omap.
  unfold mesh_effect in He. destruct (truthy _); by simplify_eq.
Qed.

Lemma mesh_effects_length (l : list (string * mesh_json)) :
  length (omap mesh_effect l) = length (omap mesh_request l).
Proof.
  induction l as [|entry l IH]; csimpl; [done|].
  unfold mesh_effect at 1, mesh_request at 1.
  destruct (truthy _); csimpl; by rewrite ?IH.
Qed.

Lemma omap_callback_meshes (l : list (string * mesh_json)) :
  omap is_callback (omap mesh_effect l) = [].
Proof.
  induction l as [|entry l IH]; simpl; [done|].
  unfold mesh_effect at 1. by destruct (truthy _).
Qed.

Lemma count_image_requests (p : effect -> bool) (l : list texture_task) :
  (forall i, p (ImageRequest i) = false) ->
  count p ((fun t => ImageRequest (tt_image t)) <$> l) = 0%nat.
Proof.
  intros H. apply count_none. by intros e [t [-> _]]%list_elem_of_fmap.
Qed.

Lemma omap_callback_images (l : list texture_task) :
  omap is_callback ((fun t => ImageRequest (tt_image t)) <$> l) = [].
Proof. by induction l. Qed.

Lemma count_zero {A} (p : A -> bool) (l : list A) (i : nat) (x : A) :
  count p l = 0%nat -> l !! i = Some x -> p x = false.
Proof.
  revert i. induction l as [|a l IH]; intros [|i] H Hi; simplify_eq/=.
  - destruct (p x); [lia|done].
  - apply (IH i); [lia|done].
Qed.

Lemma count_pos {A} (p : A -> bool) (l : list A) (i : nat) (x : A) :
  l !! i = Some x -> p x = true -> (1 <= count p l)%nat.
Proof.
  intros Hi Hx. destruct (count p l) eqn:E; [|lia].
  by rewrite (count_zero p l i x E Hi) in Hx.
Qed.

(** ** The invariant is kept by every reaction *)

Ltac observe :=
  unfold callbacks, postload_calls, removeLoader_calls, addLoader_calls,
    outstanding, loaded in *;
  simpl in *;
  rewrite ?omap_app, ?count_app, ?omap_callback_entities,
    ?omap_entity_entities, ?omap_callback_meshes, ?omap_callback_images,
    ?count_entities, ?count_mesh_effects, ?count_image_requests by done;
  simpl in *;
  rewrite ?Nat.add_0_r, ?app_nil_r in *.

Ltac use_eqs :=
  repeat match goal with
    | H : omap is_callback ?t = _ |- context [omap is_callback ?t] => rewrite H
    | H : count ?p ?t = _ |- context [count ?p ?t] => rewrite H
    | H : scene_entities (_scene ?t) = _ |- context [scene_entities (_scene ?t)] =>
        rewrite H
    end.

Ltac close :=
  simpl in *; use_eqs; simpl;
  solve [ done | lia | intuition (try done; try congruence; try lia)
        | rewrite ?elem_of_difference, ?elem_of_union, ?elem_of_singleton;
          intuition congruence
        | by rewrite <- ?app_assoc, ?app_nil_r ].

Lemma invariant_new (scene : Scene) (url : string) :
  invariant scene (new_SceneLoader scene url).
Proof. split; observe; try close. Qed.

Lemma invariant_cancel (scene : Scene) (s : state) :
  invariant scene s -> invariant scene (cancel s).
Proof.
  intros H. unfold cancel. destruct (_cancelled s) eqn:C; [done|].
  destruct H as [Hb Hj Hf Hs Hc [Hk1 Hk2] Ha Hr Hrm Had He].
  specialize (Hk2 C).
  split; observe; rewrite ?Hk2, ?C in *; try close.
Qed.

Lemma invariant_cancel_job (scene : Scene) (s : state) :
  invariant scene s -> invariant scene (step s CancelJob).
Proof.
  intros H. simpl. destruct (cancel_jobs s) as [|n] eqn:J; [done|].
  destruct H as [Hb Hj Hf Hs Hc [Hk1 Hk2] Ha Hr Hrm Had He].
  assert (n = 0%nat) as -> by lia.
  unfold _cancel_callback; simpl.
  destruct (_finished s) eqn:F, (_cancelled s) eqn:C;
    split; observe; rewrite ?J, ?F, ?C in *; try close.
Qed.

Lemma invariant_scene (scene : Scene) (s : state) (e : event) :
  invariant scene s -> invariant scene (scene_step e s).
Proof.
  intros H. unfold scene_step, _check_cancel.
  destruct e as [| |[]|[]| | | | | | |]; try done;
    destruct (chain s) eqn:Ch; try done;
    destruct H as [Hb Hj Hf Hs Hc [Hk1 Hk2] Ha Hr Hrm Had He];
    destruct (Hb ltac:(congruence)) as (Hm & Ht & Hre & Hrc & Hp);
    (assert (F : _finished s = false)
       by (destruct (_finished s); [|done]; destruct Hf as [|[]]; congruence)).
  - destruct (_cancelled s) eqn:C;
      split; observe; rewrite ?F, ?C, ?Ch in *; try close.
  - split; observe; rewrite ?F, ?Ch in *; try close.
  - destruct (_cancelled s) eqn:C.
    { split; observe; rewrite ?F, ?C, ?Ch in *; try close. }
    unfold _load_object.
    rewrite _load_mesh_register_eq, load_meshes_eq, _load_texture_register_eq,
      load_textures_eq; simpl.
    rewrite Hm, Ht; simpl.
    pose proof (count_mesh_requests meshes) as HM.
    pose proof (count_texture_requests textures) as HT.
    remember (0 + Z.of_nat (length (omap mesh_request meshes))
              + Z.of_nat (length (omap texture_request textures))) as rc.
    destruct (rc =? 0) eqn:Eb.
    + pose proof (proj1 (Z.eqb_eq _ _) Eb) as E.
      unfold _postload_object; simpl. rewrite C.
      rewrite _load_entity_list_eq, load_entities_eq.
      unfold _success_callback; simpl. rewrite C.
      split; observe; rewrite ?F, ?C, ?Ch, ?Eb in *; try close.
    + pose proof (proj1 (Z.eqb_neq _ _) Eb) as E.
      split; observe; rewrite ?F, ?C, ?Ch, ?Eb in *; try close.
  - split; observe; rewrite ?F, ?Ch in *; try close.
  - unfold _fail_callback. destruct (_cancelled s) eqn:C;
      split; observe; rewrite ?F, ?C, ?Ch in *; try close.
Qed.

(** The entry into [_postload_object] from a state in which the invariant
    holds but for the request that has just completed. *)
Lemma invariant_join (scene : Scene) (s s1 : state) :
  invariant scene s ->
  chain s = SceneLoaded ->
  (outstanding s1 + 1 = outstanding s)%nat ->
  _scene s1 = _scene s -> _cancelled s1 = _cancelled s ->
  _finished s1 = _finished s -> aborted s1 = aborted s ->
  req_count s1 = req_count s -> req_ended s1 = req_ended s ->
  chain s1 = chain s -> cancel_jobs s1 = cancel_jobs s ->
  callbacks s1 = callbacks s -> postload_calls s1 = postload_calls s ->
  removeLoader_calls s1 = removeLoader_calls s ->
  addLoader_calls s1 = addLoader_calls s ->
  invariant scene (_postload_object_ifNoReq s1).
Proof.
  intros [Hb Hj Hf Hs Hc [Hk1 Hk2] Ha Hr Hrm Had He] Ch Ho.
  intros E1 E2 E3 E4 E5 E6 E7 E8 E9 E10 E11 E12.
  destruct (Hj Ch) as (Hre & Hrc & Hp).
  assert (F : _finished s = false).
  { destruct (_finished s); [|done]. destruct Hf as [|[_ ?]]; [done|congruence|lia]. }
  assert ((req_count s =? 0) = false) as Z0 by (apply Z.eqb_neq; lia).
  rewrite Z0 in Hp.
  unfold _postload_object_ifNoReq; simpl. rewrite E5, E6, Hre.
  destruct (req_count s - 1 =? 0) eqn:Eb; simpl.
  - pose proof (proj1 (Z.eqb_eq _ _) Eb) as E.
    unfold _postload_object; simpl. rewrite E2.
    destruct (_cancelled s) eqn:C.
    + split; observe;
        rewrite ?E1, ?E2, ?E3, ?E4, ?E7, ?E8, ?E9, ?E10, ?E11, ?E12,
          ?F, ?C, ?Ch, ?Eb in *; try close.
    + rewrite _load_entity_list_eq, load_entities_eq.
      unfold _success_callback; simpl. rewrite E2.
      split; observe;
        rewrite ?E1, ?E2, ?E3, ?E4, ?E7, ?E8, ?E9, ?E10, ?E11, ?E12,
          ?F, ?C, ?Ch, ?Eb in *; try close.
  - pose proof (proj1 (Z.eqb_neq _ _) Eb) as E.
    split; observe;
        rewrite ?E1, ?E2, ?E3, ?E4, ?E7, ?E8, ?E9, ?E10, ?E11, ?E12,
          ?F, ?Ch, ?Eb in *; try close.
Qed.

(** A reaction that moves a task without completing it. *)
Lemma invariant_frame (scene : Scene) (s s1 : state) :
  invariant scene s ->
  chain s = SceneLoaded ->
  outstanding s1 = outstanding s ->
  _scene s1 = _scene s -> _cancelled s1 = _cancelled s ->
  _finished s1 = _finished s -> aborted s1 = aborted s ->
  req_count s1 = req_count s -> req_ended s1 = req_ended s ->
  chain s1 = chain s -> cancel_jobs s1 = cancel_jobs s ->
  callbacks s1 = callbacks s -> postload_calls s1 = postload_calls s ->
  removeLoader_calls s1 = removeLoader_calls s ->
  addLoader_calls s1 = addLoader_calls s ->
  invariant scene s1.
Proof.
  intros [Hb Hj Hf Hs Hc [Hk1 Hk2] Ha Hr Hrm Had He] Ch Ho.
  intros E1 E2 E3 E4 E5 E6 E7 E8 E9 E10 E11 E12.
  split; unfold loaded in *;
    rewrite ?Ho, ?E1, ?E2, ?E3, ?E4, ?E5, ?E6, ?E7, ?E8, ?E9, ?E10, ?E11, ?E12;
    try done.
Qed.

Lemma mesh_loaded (scene : Scene) (s : state) (i : nat) (t : mesh_task) :
  invariant scene s -> mesh_tasks s !! i = Some t -> chain s = SceneLoaded.
Proof.
  intros [Hb _ _ _ _ _ _ _ _ _ _] Hi.
  destruct (chain s); try done; destruct Hb as [Hm _]; try done;
    by rewrite Hm in Hi.
Qed.

Lemma texture_loaded (scene : Scene) (s : state) (i : nat) (t : texture_task) :
  invariant scene s -> texture_tasks s !! i = Some t -> chain s = SceneLoaded.
Proof.
  intros [Hb _ _ _ _ _ _ _ _ _ _] Hi.
  destruct (chain s); try done; destruct Hb as (_ & Ht & _); try done;
    by rewrite Ht in Hi.
Qed.

Lemma outstanding_mesh (s : state) (i : nat) (t : mesh_task) (st : mesh_stage) :
  mesh_tasks s !! i = Some t ->
  (outstanding (set_mesh_stage i t st s)
   + (if mesh_pending t then 1 else 0)
   = outstanding s + (match st with MeshDone _ => 0 | _ => 1 end))%nat.
Proof.
  intros Hi. unfold outstanding; simpl.
  pose proof (count_insert mesh_pending _ i t
    {| mt_id := mt_id t; mt_url := mt_url t; mt_stage := st |} Hi) as H.
  unfold mesh_pending at 4 in H. simpl in H. destruct st; lia.
Qed.

Lemma outstanding_image (s : state) (i : nat) (t : texture_task)
  (st : image_stage) :
  texture_tasks s !! i = Some t ->
  (outstanding (set_image_stage i t st s)
   + (if image_pending t then 1 else 0)
   = outstanding s + (match st with ImageDone _ => 0 | _ => 1 end))%nat.
Proof.
  intros Hi. unfold outstanding; simpl.
  pose proof (count_insert image_pending _ i t
    {| tt_id := tt_id t; tt_image := tt_image t; tt_stage := st |} Hi) as H.
  unfold image_pending at 4 in H. simpl in H. destruct st; lia.
Qed.

Lemma invariant_mesh (scene : Scene) (s : state) (i : nat) (e : event)
  (t : mesh_task) :
  invariant scene s -> mesh_tasks s !! i = Some t ->
  invariant scene (mesh_step i e t s).
Proof.
  intros H Hi. pose proof (mesh_loaded _ _ _ _ H Hi) as Ch.
  unfold mesh_step, _check_cancel.
  pose proof (outstanding_mesh s i t) as Ho. unfold mesh_pending in Ho.
  destruct e as [| | | | |j []|j []|j|j| |]; try done;
    destruct (mt_stage t) eqn:St; try done;
    try (destruct (_cancelled s) eqn:C);
    match goal with
    | |- invariant _ (_postload_object_ifNoReq (set_mesh_stage _ _ ?st _)) =>
        specialize (Ho st Hi); simpl in Ho;
        eapply invariant_join; [exact H|exact Ch|..]
    | |- invariant _ (set_mesh_stage _ _ ?st _) =>
        specialize (Ho st Hi); simpl in Ho;
        eapply invariant_frame; [exact H|exact Ch|..]
    end;
    observe; rewrite ?count_app; simpl; try close.
Qed.

Lemma invariant_image (scene : Scene) (s : state) (i : nat) (e : event)
  (t : texture_task) :
  invariant scene s -> texture_tasks s !! i = Some t ->
  invariant scene (image_step i e t s).
Proof.
  intros H Hi. pose proof (texture_loaded _ _ _ _ H Hi) as Ch.
  unfold image_step.
  pose proof (outstanding_image s i t) as Ho. unfold image_pending in Ho.
  destruct e as [| | | | | | | | |j|j]; try done;
    destruct (tt_stage t) eqn:St; try done; simpl;
    try (destruct (_cancelled s) eqn:C); simpl;
    match goal with
    | |- invariant _ (_postload_object_ifNoReq _) =>
        pose proof (Ho (ImageDone true) Hi) as Ho1;
        pose proof (Ho (ImageDone false) Hi) as Ho2; simpl in Ho1, Ho2;
        eapply invariant_join; [exact H|exact Ch|..]
    end;
    observe; rewrite ?count_app; simpl; try close.
Qed.

Lemma invariant_step (scene : Scene) (s : state) (e : event) :
  invariant scene s -> invariant scene (step s e).
Proof.
  intros H. destruct e as [| |ok|ok| |i ok|i b|i|i|i|i].
  - by apply invariant_cancel.
  - by apply (invariant_cancel_job _ _ H).
  - by apply (invariant_scene _ _ (SceneResponse ok) H).
  - by apply (invariant_scene _ _ (SceneJson ok) H).
  - by apply (invariant_scene _ _ SceneCatch H).
  - unfold step. destruct (mesh_tasks s !! i) eqn:Hi; [by apply invariant_mesh|done].
  - unfold step. destruct (mesh_tasks s !! i) eqn:Hi; [by apply invariant_mesh|done].
  - unfold step. destruct (mesh_tasks s !! i) eqn:Hi; [by apply invariant_mesh|done].
  - unfold step. destruct (mesh_tasks s !! i) eqn:Hi; [by apply invariant_mesh|done].
  - unfold step. destruct (texture_tasks s !! i) eqn:Hi; [by apply invariant_image|done].
  - unfold step. destruct (texture_tasks s !! i) eqn:Hi; [by apply invariant_image|done].
Qed.

Lemma invariant_run (scene : Scene) (evs : list event) (s : state) :
  invariant scene s -> invariant scene (run s evs).
Proof.
  revert s. induction evs as [|e evs IH]; intros s H; [done|].
  apply IH. by apply invariant_step.
Qed.

(** ** What a reaction never undoes *)

Ltac closed_forms :=
  progress
    (rewrite ?_load_entity_list_eq, ?_load_texture_register_eq,
       ?_load_mesh_register_eq;
     rewrite ?load_textures_eq, ?load_meshes_eq;
     rewrite ?load_entities_eq).

Ltac unroll :=
  unfold step, scene_step, mesh_step, image_step, cancel, _cancel_callback,
    _check_cancel, _fail_callback, _postload_object_ifNoReq, _load_object,
    _postload_object, _success_callback;
  cbv zeta;
  repeat first [ closed_forms | case_match ].

Ltac extend :=
  first [ by exists []; rewrite app_nil_r
        | eexists; simpl; rewrite <- ?app_assoc; reflexivity ].

Lemma step_monotone (s : state) (e : event) :
  (_cancelled s = true -> _cancelled (step s e) = true) /\
  (_finished s = true -> _finished (step s e) = true) /\
  (exists es, trace (step s e) = trace s ++ es).
Proof.
  unroll; simpl; (split; [|split]); try done; try extend.
Qed.

Lemma run_app (s : state) (evs evs' : list event) :
  run s (evs ++ evs') = run (run s evs) evs'.
Proof. apply foldl_app. Qed.

Lemma run_monotone (evs : list event) (s : state) :
  (_cancelled s = true -> _cancelled (run s evs) = true) /\
  (_finished s = true -> _finished (run s evs) = true) /\
  (exists es, trace (run s evs) = trace s ++ es).
Proof.
  revert s. induction evs as [|e evs IH]; intros s; simpl.
  - repeat split; try done. extend.
  - destruct (step_monotone s e) as (C & F & [es1 T]).
    destruct (IH (step s e)) as (C' & F' & [es2 T']).
    repeat split; [tauto|tauto|]. exists (es1 ++ es2).
    by rewrite T', T, app_assoc.
Qed.

Lemma step_cancelled (s : state) (e : event) :
  _cancelled s = true ->
  _references (step s e) = _references s /\
  _scene (step s e) = _scene s.
Proof.
  intros C. unroll; simpl in *; rewrite ?C in *; simpl in *; split;
    congruence.
Qed.

Lemma cancel_cancelled (s : state) : _cancelled (cancel s) = true.
Proof. unfold cancel. by destruct (_cancelled s) eqn:C. Qed.

(** ** Properties of the load operation *)


(** C5: once [cancel()] has been called, no later reaction writes to the
    reference table or adds an entity to the scene. *)
Theorem no_effect_after_cancel (s : state) (evs : list event) :
  _references (run (cancel s) evs) = _references (cancel s) /\
  scene_entities (_scene (run (cancel s) evs))
  = scene_entities (_scene (cancel s)) /\
  _references (cancel s) = _references s /\
  scene_entities (_scene (cancel s)) = scene_entities (_scene s).
Proof.
  split; [|split; [|split]].
  3,4: unfold cancel; by destruct (_cancelled s).
  all: pose proof (cancel_cancelled s) as C; revert C;
    generalize (cancel s); clear s; intros s;
    revert s; induction evs as [|e evs IH]; intros s C; simpl; [done|];
    destruct (step_cancelled s e C) as [R E];
    destruct (step_monotone s e) as (C' & _ & _);
    rewrite (IH _ (C' C)); congruence.
Qed.

(** C6: the first [cancel()] sets the cancelled flag, signals the abort
    controller, removes the loader from the scene and queues the job that
    calls the finish callback, without calling the callback itself; a
    further [cancel()], at once or after any number of reactions, changes
    nothing. *)
Theorem cancel_idempotent (s : state) :
  cancel (cancel s) = cancel s /\
  (forall evs : list event, cancel (run (cancel s) evs) = run (cancel s) evs) /\
  (_cancelled s = false ->
   _cancelled (cancel s) = true /\
   aborted (cancel s) = true /\
   (this ∉ scene_loaders (_scene (cancel s))) /\
   cancel_jobs (cancel s) = S (cancel_jobs s) /\
   trace (cancel s)
   = trace s ++ [AbortRequests; RemoveLoader; QueueCancelJob] /\
   callbacks (cancel s) = callbacks s).
Proof.
  split; [|split].
  - unfold cancel at 1. by rewrite cancel_cancelled.
  - intros evs. unfold cancel at 1.
    destruct (run_monotone evs (cancel s)) as (C & _ & _).
    by rewrite (C (cancel_cancelled s)).
  - intros C. unfold cancel, callbacks. rewrite C. simpl.
    repeat split; try done.
    + intros [_ Hn]%elem_of_difference. apply Hn. by apply elem_of_singleton.
    + by rewrite <- !app_assoc.
    + by rewrite !omap_app, !app_nil_r.
Qed.

(** C3 (amended): the constructor issues the scene fetch at once and then,
    still inside the constructor and so before any response can be handled,
    adds the loader to the scene; a [cancel()] right after construction
    removes the loader from the scene again and ends in one call of the
    finish callback with [false], the entity list of the scene untouched. *)
Theorem constructor_fetches_then_registers (scene : Scene) (url : string) :
  trace (new_SceneLoader scene url)
  = [Fetch (tr_url (_transform url SCENE))
       (_make_fetch_params (_transform url SCENE)); AddLoader] /\
  chain (new_SceneLoader scene url) = SceneFetching /\
  (this ∈ scene_loaders (_scene (new_SceneLoader scene url))) /\
  callbacks (new_SceneLoader scene url) = [] /\
  (this ∉ scene_loaders (_scene (cancel (new_SceneLoader scene url)))) /\
  callbacks (run (new_SceneLoader scene url) [Cancel; CancelJob]) = [false] /\
  scene_entities (_scene (run (new_SceneLoader scene url) [Cancel; CancelJob]))
  = scene_entities scene.
Proof.
  repeat split; try done.
  - apply elem_of_union_l. by apply elem_of_singleton.
  - intros [_ Hn]%elem_of_difference. apply Hn. by apply elem_of_singleton.
Qed.

(** C2: [_postload_object], the continuation behind the join, is entered at
    most once, and it has been entered exactly when the request counter is 0
    and registration has ended, whichever came first; entered on a loader
    that is not cancelled it builds the entities and calls the finish
    callback with [true]; for a scene file without external sub-resources
    it is entered by the reaction that registers the scene file, where no
    request is issued and no task is left to wait for. *)
Theorem join_fires_once (scene : Scene) (url : string) (evs : list event) :
  (postload_calls (run (new_SceneLoader scene url) evs) <= 1)%nat /\
  (postload_calls (run (new_SceneLoader scene url) evs) = 1%nat <->
   req_count (run (new_SceneLoader scene url) evs) = 0 /\
   req_ended (run (new_SceneLoader scene url) evs) = true) /\
  (postload_calls (run (new_SceneLoader scene url) evs) = 1%nat ->
   _cancelled (run (new_SceneLoader scene url) evs) = false ->
   callbacks (run (new_SceneLoader scene url) evs) = [true] /\
   scene_entities (_scene (run (new_SceneLoader scene url) evs))
   = scene_entities scene ++ omap build items) /\
  (external_requests = 0%nat ->
   chain (run (new_SceneLoader scene url) evs) = SceneParsing ->
   _cancelled (run (new_SceneLoader scene url) evs) = false ->
   postload_calls (step (run (new_SceneLoader scene url) evs) (SceneJson true))
   = 1%nat /\
   count is_request
     (trace (step (run (new_SceneLoader scene url) evs) (SceneJson true)))
   = count is_request (trace (run (new_SceneLoader scene url) evs)) /\
   outstanding (step (run (new_SceneLoader scene url) evs) (SceneJson true))
   = 0%nat).
Proof.
  pose proof (invariant_run scene evs _ (invariant_new scene url)) as H.
  remember (run (new_SceneLoader scene url) evs) as s eqn:Hs. clear Hs.
  destruct H as [Hb Hj Hf Hsu Hc [Hk1 Hk2] Ha Hr Hrm Had He].
  assert (chain s = SceneLoaded \/ chain s ≠ SceneLoaded) as [Ch|Ch]
    by (destruct (chain s); auto).
  - destruct (Hj Ch) as (Hre & Hrc & Hp).
    destruct (req_count s =? 0) eqn:Eb.
    + apply Z.eqb_eq in Eb. repeat split; try lia; try done; try congruence.
      * rewrite Hc. destruct (_cancelled s); [done|].
        rewrite (Hsu Ch Eb eq_refl). unfold loaded. by rewrite Ch.
      * rewrite He. destruct (_cancelled s); [done|].
        rewrite (Hsu Ch Eb eq_refl). unfold loaded. by rewrite Ch.
    + apply Z.eqb_neq in Eb. repeat split; try lia; try done; try congruence.
  - destruct (Hb Ch) as (Hm & Ht & Hre & Hrc & Hp).
    split; [lia|]. split; [split; [lia|intros []; congruence]|].
    split; [lia|]. intros Hx Hch C.
    unfold external_requests in Hx.
    destruct (omap mesh_request meshes) eqn:Em; [|simpl in Hx; lia].
    destruct (omap texture_request textures) eqn:Et; [|simpl in Hx; lia].
    unfold step, scene_step, _check_cancel. rewrite Hch, C.
    unfold _load_object.
    rewrite _load_mesh_register_eq, load_meshes_eq, _load_texture_register_eq,
      load_textures_eq; simpl.
    rewrite Hm, Ht, Em, Et; simpl.
    unfold _postload_object; simpl. rewrite C.
    rewrite _load_entity_list_eq, load_entities_eq.
    unfold _success_callback; simpl. rewrite C.
    observe. rewrite Hp.
    pose proof (mesh_effects_length meshes) as Hl. rewrite Em in Hl.
    destruct (omap mesh_effect meshes); [|done]. simpl. repeat split; lia.
Qed.

(** C8 (amended): the loader is added to the scene once, by the constructor.
    It is in the scene's set of loaders exactly as long as it is neither
    finished nor cancelled, and once out it stays out.  [removeLoader] is
    called once when the load finishes and once by the first [cancel()]:
    twice when [cancel()] is called after the load has finished. *)
Theorem registered_until_terminal (scene : Scene) (url : string)
  (evs : list event) :
  addLoader_calls (run (new_SceneLoader scene url) evs) = 1%nat /\
  removeLoader_calls (run (new_SceneLoader scene url) evs)
  = ((if _finished (run (new_SceneLoader scene url) evs) then 1 else 0)
     + (if _cancelled (run (new_SceneLoader scene url) evs) then 1 else 0))%nat /\
  ((this ∈ scene_loaders (_scene (run (new_SceneLoader scene url) evs))) <->
   _finished (run (new_SceneLoader scene url) evs) = false /\
   _cancelled (run (new_SceneLoader scene url) evs) = false) /\
  (forall evs' : list event,
      (this ∉ scene_loaders (_scene (run (new_SceneLoader scene url) evs))) ->
      this ∉ scene_loaders
               (_scene (run (new_SceneLoader scene url) (evs ++ evs')))).
Proof.
  pose proof (invariant_run scene evs _ (invariant_new scene url)) as H.
  split; [apply H|]. split; [apply H|]. split; [apply H|].
  intros evs' Hout. rewrite run_app.
  pose proof (invariant_run scene evs' _ H) as H'.
  destruct (run_monotone evs' (run (new_SceneLoader scene url) evs))
    as (C & F & _).
  rewrite (inv_registered _ _ H) in Hout. rewrite (inv_registered _ _ H').
  intros [F' C'].
  destruct (_finished (run (new_SceneLoader scene url) evs)),
    (_cancelled (run (new_SceneLoader scene url) evs));
    try (specialize (F eq_refl)); try (specialize (C eq_refl));
    try congruence.
  by apply Hout.
Qed.

(** C9 (what the code does): a loader that has registered nothing answers a
    lookup of ["toString"] with the function that its reference object
    inherits from [Object.prototype], not with null. *)
Theorem getReference_inherited (scene : Scene) (url : string) :
  _references (new_SceneLoader scene url) !! "toString" = None /\
  getReference (new_SceneLoader scene url) "toString"
  = Some (Inherited "toString").
Proof. split; [apply lookup_empty|reflexivity]. Qed.

Lemma getReference_stored (s : state) (id : string) (o : Obj) :
  _references s !! id = Some o -> getReference s id = Some (Stored o).
Proof. intros H. unfold getReference, get_property. by rewrite H. Qed.

Lemma getReference_set (s : state) (id : string) (o : Obj) :
  getReference (_setReference id o s) id = Some (Stored o).
Proof. apply getReference_stored. simpl. apply lookup_insert_eq. Qed.

(** ** Where the entries of the reference table come from: proofs *)

Lemma lookup_moved {A} (P : A -> Prop) (l : list A) (i j : nat) (t t0 t0' : A) :
  l !! i = Some t -> P t -> l !! j = Some t0 -> (P t0 -> P t0') ->
  exists t', <[j := t0']> l !! i = Some t' /\ P t'.
Proof.
  intros Hi HP Hj H. destruct (decide (i = j)) as [->|Hne].
  - exists t0'. split; [apply list_lookup_insert_eq; by eapply lookup_lt_Some|].
    apply H. congruence.
  - exists t. split; [by rewrite list_lookup_insert_ne|done].
Qed.

Lemma mesh_witness_step (s : state) (e : event) (k : string) (i : nat)
  (t : mesh_task) :
  mesh_tasks s !! i = Some t -> mt_id t = k -> mesh_succeeded t = true ->
  exists t', mesh_tasks (step s e) !! i = Some t' /\
             (mt_id t' = k /\ mesh_succeeded t' = true).
Proof.
  intros Hi Hk Hs. unroll; simpl;
    try (by exists t);
    try (by exists t; split; [apply lookup_app_l_Some|]);
    try (eapply (lookup_moved (fun t' => mt_id t' = k /\ mesh_succeeded t' = true));
         [exact Hi|done|eassumption|];
         unfold mesh_succeeded; simpl; intros [? ?]; split; [done|];
         repeat case_match; congruence).
Qed.

Lemma image_witness_step (s : state) (e : event) (k : string) (i : nat)
  (t : texture_task) :
  texture_tasks s !! i = Some t -> tt_id t = k -> image_succeeded t = true ->
  exists t', texture_tasks (step s e) !! i = Some t' /\
             (tt_id t' = k /\ image_succeeded t' = true).
Proof.
  intros Hi Hk Hs. unroll; simpl;
    try (by exists t);
    try (by exists t; split; [apply lookup_app_l_Some|]);
    try (eapply (lookup_moved (fun t' => tt_id t' = k /\ image_succeeded t' = true));
         [exact Hi|done|eassumption|];
         unfold image_succeeded; simpl; intros [? ?]; split; [done|];
         repeat case_match; congruence).
Qed.

Lemma chain_loaded_step (s : state) (e : event) :
  chain s = SceneLoaded -> chain (step s e) = SceneLoaded.
Proof. intros Ch. unroll; simpl; congruence. Qed.

Lemma loaded_step (s : state) (e : event) :
  loaded s = true -> loaded (step s e) = true.
Proof.
  unfold loaded. intros H. destruct (chain s) eqn:Ch; try done.
  by rewrite chain_loaded_step.
Qed.

Lemma produced_step (s : state) (e : event) (k : string) :
  produced s k -> produced (step s e) k.
Proof.
  intros [H|[(i & t & Hi & Hk & Hs)|[(i & t & Hi & Hk & Hs)|(F & L & H)]]].
  - by left.
  - right; left. exists i.
    destruct (mesh_witness_step s e k i t Hi Hk Hs) as (t' & ? & ? & ?).
    by exists t'.
  - right; right; left. exists i.
    destruct (image_witness_step s e k i t Hi Hk Hs) as (t' & ? & ? & ?).
    by exists t'.
  - right; right; right. split; [by apply step_monotone|].
    split; [by apply loaded_step|done].
Qed.

Lemma lookup_register_mesh (l : list (string * mesh_json))
  (refs : gmap string Obj) (k : string) :
  is_Some (foldl register_mesh refs l !! k) ->
  is_Some (refs !! k) \/
  exists entry, entry ∈ l /\ entry.1 = k /\ inline_mesh entry = true.
Proof.
  revert refs. induction l as [|entry l IH]; intros refs H; simpl in *; [by left|].
  destruct (IH _ H) as [Hk|(entry' & ? & ? & ?)].
  - unfold register_mesh in Hk.
    destruct (truthy (mesh_binary entry.2)) eqn:B; [by left|].
    destruct (mesh_vertices entry.2) eqn:V; [|by left].
    destruct (decide (entry.1 = k)) as [E|E].
    + right. exists entry. split; [left|]. split; [done|].
      unfold inline_mesh. by rewrite B, V.
    + left. by rewrite lookup_insert_ne in Hk.
  - right. exists entry'. split; [by right|done].
Qed.

Lemma lookup_register_entity (l : list entity_json) (refs : gmap string Obj)
  (k : string) :
  is_Some (foldl register_entity refs l !! k) ->
  is_Some (refs !! k) \/
  exists item, item ∈ l /\ identified k item = true.
Proof.
  revert refs. induction l as [|item l IH]; intros refs H; simpl in *; [by left|].
  destruct (IH _ H) as [Hk|(item' & ? & ?)].
  - unfold register_entity in Hk.
    destruct (build item) eqn:B; [|by left].
    destruct (truthy (item_id item)) as [id|] eqn:I; [|by left].
    destruct (decide (id = k)) as [E|E].
    + right. exists item. split; [left|].
      unfold identified. rewrite B, I. by apply bool_decide_eq_true.
    + left. by rewrite lookup_insert_ne in Hk.
  - right. exists item'. split; [by right|done].
Qed.

Lemma written_step (scene : Scene) (s : state) (e : event) (k : string) :
  invariant scene s ->
  is_Some (_references (step s e) !! k) ->
  is_Some (_references s !! k) \/ produced (step s e) k.
Proof.
  intros Hinv. unroll; simpl; try (by left); intros Hw; simpl in *;
    try congruence;
    try match goal with
      | Hi : mesh_tasks s !! _ = Some _ |- _ =>
          pose proof (mesh_loaded _ _ _ _ Hinv Hi) as Ch;
          pose proof (lookup_lt_Some _ _ _ Hi) as Hlt
      | Hi : texture_tasks s !! _ = Some _ |- _ =>
          pose proof (texture_loaded _ _ _ _ Hinv Hi) as Ch;
          pose proof (lookup_lt_Some _ _ _ Hi) as Hlt
      end;
    repeat match type of Hw with
      | is_Some (foldl register_entity _ _ !! _) =>
          apply lookup_register_entity in Hw as [Hw|Hw];
          [|right; right; right; right;
            split; [done|]; split; [unfold loaded; simpl; by rewrite ?Ch|];
            exact Hw]
      | is_Some (foldl register_mesh _ _ !! _) =>
          apply lookup_register_mesh in Hw as [Hw|Hw]; [|right; left; exact Hw]
      | is_Some (<[?a := _]> _ !! ?k) =>
          destruct (decide (a = k)) as [E|E];
          [right; right; unfold produced; simpl
          |rewrite lookup_insert_ne in Hw by done]
      end; try (by left);
    first [ left; eexists _, _; split;
            [by apply list_lookup_insert_eq|by split]
          | right; left; eexists _, _; split;
            [by apply list_lookup_insert_eq|by split] ].
Qed.

Lemma references_sound_step (scene : Scene) (s : state) (e : event) :
  invariant scene s -> references_sound s -> references_sound (step s e).
Proof.
  intros Hinv Hs k Hk.
  destruct (written_step scene s e k Hinv Hk) as [H|H]; [|done].
  by apply produced_step, Hs.
Qed.

Lemma references_sound_run (scene : Scene) (evs : list event) (s : state) :
  invariant scene s -> references_sound s -> references_sound (run s evs).
Proof.
  revert s. induction evs as [|e evs IH]; intros s Hinv Hs; [done|].
  apply IH; [by apply invariant_step|by eapply references_sound_step].
Qed.

Lemma references_sound_new (scene : Scene) (url : string) :
  references_sound (new_SceneLoader scene url).
Proof. intros k [o Hk]. simpl in Hk. by rewrite lookup_empty in Hk. Qed.

(** ** After the success callback *)

Lemma settled_after_success (scene : Scene) (s : state) :
  invariant scene s -> _finished s = true -> loaded s = true ->
  (forall i t, mesh_tasks s !! i = Some t -> exists ok, mt_stage t = MeshDone ok) /\
  (forall i t, texture_tasks s !! i = Some t -> exists ok, tt_stage t = ImageDone ok).
Proof.
  intros [Hb Hj Hf Hs Hc Hk Ha Hr Hrm Had He] F L.
  unfold loaded in L. destruct (chain s) eqn:Ch; try done.
  destruct (Hf F) as [|[_ Hz]]; [done|].
  destruct (Hj eq_refl) as (_ & Hrc & _). unfold outstanding in Hrc.
  split; intros i t Hi.
  - assert (mesh_pending t = false) as Hp by (eapply count_zero; [|done]; lia).
    unfold mesh_pending in Hp. destruct (mt_stage t); try done. by eexists.
  - assert (image_pending t = false) as Hp by (eapply count_zero; [|done]; lia).
    unfold image_pending in Hp. destruct (tt_stage t); try done. by eexists.
Qed.

Lemma step_after_success (scene : Scene) (s : state) (e : event) :
  invariant scene s -> _finished s = true -> loaded s = true ->
  _references (step s e) = _references s /\
  scene_entities (_scene (step s e)) = scene_entities (_scene s).
Proof.
  intros Hinv F L.
  destruct (settled_after_success scene s Hinv F L) as [Hm Ht].
  unfold loaded in L. destruct (chain s) eqn:Ch; try done.
  destruct e as [| |ok|ok| |i ok|i b|i|i|i|i]; unfold step.
  - unfold cancel. by destruct (_cancelled s).
  - destruct (cancel_jobs s); [done|]. unfold _cancel_callback; simpl.
    by rewrite F.
  - unfold scene_step. rewrite Ch. by destruct ok.
  - unfold scene_step. rewrite Ch. by destruct ok.
  - unfold scene_step. by rewrite Ch.
  - destruct (mesh_tasks s !! i) as [t|] eqn:Hi; [|done].
    destruct (Hm i t Hi) as [ok' St]. unfold mesh_step. rewrite St.
    by destruct ok.
  - destruct (mesh_tasks s !! i) as [t|] eqn:Hi; [|done].
    destruct (Hm i t Hi) as [ok' St]. unfold mesh_step. rewrite St.
    by destruct b.
  - destruct (mesh_tasks s !! i) as [t|] eqn:Hi; [|done].
    destruct (Hm i t Hi) as [ok' St]. unfold mesh_step. by rewrite St.
  - destruct (mesh_tasks s !! i) as [t|] eqn:Hi; [|done].
    destruct (Hm i t Hi) as [ok' St]. unfold mesh_step. by rewrite St.
  - destruct (texture_tasks s !! i) as [t|] eqn:Hi; [|done].
    destruct (Ht i t Hi) as [ok' St]. unfold image_step. by rewrite St.
  - destruct (texture_tasks s !! i) as [t|] eqn:Hi; [|done].
    destruct (Ht i t Hi) as [ok' St]. unfold image_step. by rewrite St.
Qed.

Lemma success_step (scene : Scene) (s : state) (e : event) :
  invariant scene s ->
  _finished (step s e) = true -> loaded (step s e) = true ->
  (_finished s = true /\ loaded s = true) \/
  exists refs, _references (step s e) = foldl register_entity refs items.
Proof.
  intros Hinv. pose proof (inv_finished _ _ Hinv) as Hf. revert Hf.
  unroll; simpl; unfold loaded; simpl; intros Hf F L;
    try (by left); try (by right; eexists); try done.
  all: destruct (Hf F) as [|[]]; congruence.
Qed.

Lemma entities_registered_step (scene : Scene) (s : state) (e : event) :
  invariant scene s -> entities_registered s ->
  entities_registered (step s e).
Proof.
  intros Hinv Hs F L.
  destruct (success_step scene s e Hinv F L) as [[F' L']|H]; [|done].
  destruct (step_after_success scene s e Hinv F' L') as [-> _]. by apply Hs.
Qed.

Lemma entities_registered_run (scene : Scene) (evs : list event) (s : state) :
  invariant scene s -> entities_registered s ->
  entities_registered (run s evs).
Proof.
  revert s. induction evs as [|e evs IH]; intros s Hinv Hs; [done|].
  apply IH; [by apply invariant_step|by eapply entities_registered_step].
Qed.

Lemma lookup_registered_entity (k : string) (l : list entity_json)
  (refs : gmap string Obj) (entity : Entity) :
  registered_entity k l = Some entity ->
  foldl register_entity refs l !! k = Some (EntityObj entity).
Proof.
  unfold registered_entity. revert entity.
  induction l as [|item l IH] using rev_ind; intros entity H; [done|].
  rewrite foldl_app in H. rewrite foldl_app. simpl in *.
  unfold register_entity at 1.
  destruct (identified k item) eqn:Hid; unfold identified in Hid.
  - rewrite H in *.
    destruct (truthy (item_id item)) as [id|]; [|done].
    apply bool_decide_eq_true in Hid as ->. apply lookup_insert_eq.
  - destruct (build item); [|by apply IH].
    destruct (truthy (item_id item)) as [id|]; [|by apply IH].
    apply bool_decide_eq_false in Hid.
    rewrite lookup_insert_ne by done. by apply IH.
Qed.

Lemma registered_entity_some (k : string) (l : list entity_json)
  (item : entity_json) :
  item ∈ l -> identified k item = true ->
  exists entity, registered_entity k l = Some entity /\
                 truthy (item_id (entity_item entity)) = Some k.
Proof.
  unfold registered_entity.
  induction l as [|item' l IH] using rev_ind; intros Hin Hid.
  - by apply elem_of_nil in Hin.
  - rewrite foldl_app. simpl.
    destruct (identified k item') eqn:Hid'.
    + unfold identified in Hid'.
      destruct (build item') as [e'|] eqn:B; [|done].
      destruct (truthy (item_id item')) as [id|] eqn:I; [|done].
      apply bool_decide_eq_true in Hid' as ->. exists e'. split; [done|].
      unfold build in B. destruct (entity_class _); by simplify_eq.
    + apply IH; [|done]. apply elem_of_app in Hin as [|Hin]; [done|].
      apply list_elem_of_singleton in Hin as ->. congruence.
Qed.

Lemma entities_registered_new (scene : Scene) (url : string) :
  entities_registered (new_SceneLoader scene url).
Proof. by intros ?. Qed.

(** C7: once the finish callback has been called with [true], the entity
    list of the scene is what it was before the load followed by the
    entities built from the items of a known type, in the order of
    [entity_list]; an item without [type] is built as a generic entity, an
    item whose type is none of the three known tags is skipped, and every
    identifier carried by an item of a known type is in the reference table,
    bound to the entity built from the last such item. *)
Theorem entities_in_declaration_order (scene : Scene) (url : string)
  (evs : list event) :
  callbacks (run (new_SceneLoader scene url) evs) = [true] ->
  scene_entities (_scene (run (new_SceneLoader scene url) evs))
  = scene_entities scene ++ omap build items /\
  (forall item, truthy (item_type item) = None ->
     build item = Some {| entity_kind := GenericEntity; entity_item := item |}) /\
  (forall item type, truthy (item_type item) = Some type ->
     type ∉ ["generic"; "markerline"; "text"] -> build item = None) /\
  (forall item k, item ∈ items -> identified k item = true ->
     exists entity,
       registered_entity k items = Some entity /\
       truthy (item_id (entity_item entity)) = Some k /\
       getReference (run (new_SceneLoader scene url) evs) k
       = Some (Stored (EntityObj entity))).
Proof.
  intros Hcb.
  pose proof (invariant_run scene evs _ (invariant_new scene url)) as Hinv.
  pose proof (entities_registered_run scene evs _ (invariant_new scene url)
                (entities_registered_new scene url)) as Hreg.
  remember (run (new_SceneLoader scene url) evs) as s eqn:Hs. clear Hs.
  assert (_finished s = true /\ loaded s = true) as [F L].
  { rewrite (inv_callbacks _ _ Hinv) in Hcb.
    destruct (_finished s); [by simplify_eq|].
    destruct (_cancelled s); [by destruct (cancel_jobs s)|done]. }
  split; [|split; [|split]].
  - rewrite (inv_entities _ _ Hinv). by rewrite F, L.
  - intros item Ht. unfold build. by rewrite Ht.
  - intros item type Ht Hn. unfold build, entity_class. rewrite Ht. simpl.
    repeat case_decide; try done; subst; exfalso; apply Hn;
      repeat constructor.
  - intros item k Hin Hid.
    destruct (registered_entity_some k items item Hin Hid) as (entity & He & Hk).
    exists entity. split; [done|]. split; [done|].
    destruct (Hreg F L) as [refs Hr].
    apply getReference_stored. rewrite Hr.
    by apply lookup_registered_entity.
Qed.

(** C4 (amended): when the scene file has been registered, the loader is not
    cancelled and every sub-resource request has completed, the request
    counter is back at 0 and the finish callback has been called once, with
    [true], however many of the requests failed; an identifier is absent
    from the reference table when every request made for it failed and
    neither an inline mesh nor an item of a known type carries it. *)
Theorem failed_subresource_not_fatal (scene : Scene) (url : string)
  (evs : list event) (k : string) :
  chain (run (new_SceneLoader scene url) evs) = SceneLoaded ->
  _cancelled (run (new_SceneLoader scene url) evs) = false ->
  outstanding (run (new_SceneLoader scene url) evs) = 0%nat ->
  (forall i t, mesh_tasks (run (new_SceneLoader scene url) evs) !! i = Some t ->
               mt_id t = k -> mt_stage t = MeshDone false) ->
  (forall i t, texture_tasks (run (new_SceneLoader scene url) evs) !! i = Some t ->
               tt_id t = k -> tt_stage t = ImageDone false) ->
  (forall entry, entry ∈ meshes -> entry.1 = k -> inline_mesh entry = false) ->
  (forall item, item ∈ items -> identified k item = false) ->
  req_count (run (new_SceneLoader scene url) evs) = 0 /\
  callbacks (run (new_SceneLoader scene url) evs) = [true] /\
  _references (run (new_SceneLoader scene url) evs) !! k = None.
Proof.
  intros Ch C Ho Hm Ht Hi He.
  pose proof (invariant_run scene evs _ (invariant_new scene url)) as Hinv.
  pose proof (references_sound_run scene evs _ (invariant_new scene url)
                (references_sound_new scene url)) as Hsound.
  remember (run (new_SceneLoader scene url) evs) as s eqn:Hs. clear Hs.
  destruct (inv_joined _ _ Hinv Ch) as (_ & Hrc & _).
  assert (req_count s = 0) as Hz by lia.
  assert (_references s !! k = None) as Hnone.
  { destruct (_references s !! k) as [o|] eqn:Hk; [|done]. exfalso.
    destruct (Hsound k) as [(entry & Hin & Hk' & Hx)|[(i & t & Hl & Hk' & Hx)|
      [(i & t & Hl & Hk' & Hx)|(_ & _ & item & Hin & Hx)]]]; [by eexists|..].
    - by rewrite (Hi entry Hin Hk') in Hx.
    - unfold mesh_succeeded in Hx. by rewrite (Hm i t Hl Hk') in Hx.
    - unfold image_succeeded in Hx. by rewrite (Ht i t Hl Hk') in Hx.
    - by rewrite (He item Hin) in Hx. }
  split; [done|]. split; [|done].
  rewrite (inv_callbacks _ _ Hinv), (inv_success _ _ Hinv Ch Hz C).
  unfold loaded. by rewrite Ch.
Qed.

(** The entries that [_load_mesh_register] and [_load_texture_register]
    pass over: a mesh with neither [binary] nor [vertices], a texture
    without [image]. *)
Lemma load_mesh_ignored (s : state) (id : string) :
  load_mesh s (id, {| mesh_binary := None; mesh_vertices := None |}) = s.
Proof. reflexivity. Qed.

Lemma load_texture_ignored (s : state) (id : string) :
  load_texture s (id, {| texture_image := None |}) = s.
Proof. reflexivity. Qed.


(** ** Requests and console errors: proofs *)

Lemma requests_entities (l : list entity_json) :
  omap as_request (entity_effect <$> l) = [].
Proof.
  induction l as [|item l IH]; csimpl; [done|].
  unfold entity_effect at 1. by destruct (build item).
Qed.

Lemma requests_meshes (l : list (string * mesh_json)) :
  omap as_request (omap mesh_effect l) = omap mesh_effect l.
Proof.
  induction l as [|entry l IH]; csimpl; [done|].
  destruct (mesh_effect entry) as [e|] eqn:E; csimpl; [|done].
  rewrite IH. unfold mesh_effect in E. destruct (truthy _); by simplify_eq.
Qed.

Lemma requests_images (l : list texture_task) :
  omap as_request ((fun t => ImageRequest (tt_image t)) <$> l)
  = image_request <$> l.
Proof. induction l as [|t l IH]; csimpl; [done|]. by rewrite IH. Qed.

Lemma errors_entities (l : list entity_json) :
  count is_error (entity_effect <$> l) = count unknown l.
Proof.
  induction l as [|item l IH]; csimpl; [done|].
  unfold entity_effect at 1, unknown at 1. destruct (build item); simpl;
    by rewrite IH.
Qed.

Lemma count_le_length {A} (p : A -> bool) (l : list A) :
  (count p l <= length l)%nat.
Proof. induction l as [|x l IH]; simpl; [done|]. destruct (p x); lia. Qed.

Lemma fmap_insert_same {A B} (f : A -> B) (l : list A) (i : nat) (x y : A) :
  l !! i = Some x -> f y = f x -> f <$> <[i := y]> l = f <$> l.
Proof.
  intros Hi Hf. rewrite list_fmap_insert, Hf.
  apply list_insert_id. by rewrite list_lookup_fmap, Hi.
Qed.

Lemma entities_meshes (l : list (string * mesh_json)) :
  omap is_entity (omap mesh_effect l) = [].
Proof.
  induction l as [|entry l IH]; csimpl; [done|].
  destruct (mesh_effect entry) as [e|] eqn:E; csimpl; [|done].
  rewrite IH. unfold mesh_effect in E. destruct (truthy _); by simplify_eq.
Qed.

Lemma entities_images (l : list texture_task) :
  omap is_entity ((fun t => ImageRequest (tt_image t)) <$> l) = [].
Proof. by induction l. Qed.

Lemma fresh_meshes_not_failed (l : list (string * mesh_json)) :
  count mesh_failed (omap mesh_request l) = 0%nat.
Proof.
  apply count_none. intros t [entry [_ He]]%list_elem_of_omap.
  unfold mesh_request in He. destruct (truthy _); by simplify_eq.
Qed.

Lemma fresh_textures_not_failed (l : list (string * texture_json)) :
  count image_failed (omap texture_request l) = 0%nat.
Proof.
  apply count_none. intros t [entry [_ He]]%list_elem_of_omap.
  unfold texture_request in He. destruct (truthy _); by simplify_eq.
Qed.

Ltac account :=
  unfold requests, errors, entities_added, loaded, sub_requests,
    scene_request in *;
  simpl in *;
  rewrite ?omap_app, ?count_app, ?requests_entities, ?requests_meshes,
    ?requests_images, ?errors_entities, ?omap_entity_entities,
    ?entities_meshes, ?entities_images,
    ?count_mesh_effects, ?count_image_requests by done;
  simpl in *;
  rewrite ?Nat.add_0_r, ?app_nil_r in *.

Ltac use_accounts :=
  repeat match goal with
    | H : omap as_request ?t = _ |- context [omap as_request ?t] => rewrite H
    | H : omap is_entity ?t = _ |- context [omap is_entity ?t] => rewrite H
    | H : count ?p ?t = _ |- context [count ?p ?t] => rewrite H
    end.

Ltac settle :=
  simpl in *; use_accounts; simpl;
  solve [ done | lia | congruence
        | intuition (try done; try congruence; try lia)
        | by rewrite <- ?app_assoc, ?app_nil_r ].

Lemma accounts_new (scene : Scene) (url : string) :
  accounts url (new_SceneLoader scene url).
Proof. split; account; try settle. Qed.

Lemma accounts_cancel (url : string) (s : state) :
  accounts url s -> accounts url (cancel s).
Proof.
  intros H. unfold cancel. destruct (_cancelled s) eqn:C; [done|].
  destruct H as [Hu He Hf Hm Ht Hr Her Hen Htr].
  split; account; try settle.
Qed.

Lemma accounts_cancel_job (scene : Scene) (url : string) (s : state) :
  invariant scene s -> accounts url s -> accounts url (step s CancelJob).
Proof.
  intros Hinv H. simpl. destruct (cancel_jobs s) as [|n] eqn:J; [done|].
  assert (_cancelled s = true) as C.
  { destruct (_cancelled s) eqn:C; [done|].
    destruct (inv_jobs _ _ Hinv) as [_ Hj]. rewrite (Hj C) in J. done. }
  destruct H as [Hu He Hf Hm Ht Hr Her Hen Htr].
  unfold _cancel_callback; simpl.
  destruct (_finished s) eqn:F; split; account; rewrite ?F, ?C in *;
    try settle.
Qed.

Lemma accounts_scene (scene : Scene) (url : string) (s : state) (e : event) :
  invariant scene s -> accounts url s -> accounts url (scene_step e s).
Proof.
  intros Hinv H. unfold scene_step, _check_cancel.
  destruct e as [| |[]|[]| | | | | | |]; try done;
    destruct (chain s) eqn:Ch; try done;
    destruct H as [Hu He Hf Hm Ht Hr Her Hen Htr];
    destruct (inv_before _ _ Hinv ltac:(congruence)) as (Hmt & Htt & _);
    (destruct (_finished s) eqn:F;
       [destruct (inv_finished _ _ Hinv F) as [|[]]; congruence|]).
  - destruct (_cancelled s) eqn:C;
      split; account; rewrite ?F, ?C, ?Ch in *; try settle.
  - split; account; rewrite ?F, ?Ch in *; try settle.
  - destruct (_cancelled s) eqn:C.
    { split; account; rewrite ?F, ?C, ?Ch in *; try settle. }
    unfold _load_object.
    rewrite _load_mesh_register_eq, load_meshes_eq, _load_texture_register_eq,
      load_textures_eq; simpl.
    rewrite Hmt, Htt; simpl.
    remember (0 + Z.of_nat (length (omap mesh_request meshes))
              + Z.of_nat (length (omap texture_request textures))) as rc.
    pose proof (fresh_meshes_not_failed meshes) as HM.
    pose proof (fresh_textures_not_failed textures) as HT.
    destruct (rc =? 0) eqn:Eb.
    + unfold _postload_object; simpl. rewrite C.
      rewrite _load_entity_list_eq, load_entities_eq.
      unfold _success_callback; simpl. rewrite C.
      split; account; rewrite ?F, ?C, ?Ch, ?Hmt, ?Htt, ?HM, ?HT in *;
        try settle.
    + split; account; rewrite ?F, ?C, ?Ch, ?Hmt, ?Htt, ?HM, ?HT in *;
        try settle.
  - split; account; rewrite ?F, ?Ch in *; try settle.
  - unfold _fail_callback. destruct (_cancelled s) eqn:C;
      split; account; rewrite ?F, ?C, ?Ch in *; try settle.
    intros _ _. rewrite Htr, Hu by done. done.
Qed.

Lemma accounts_join (scene : Scene) (url : string) (s s1 : state) :
  invariant scene s -> accounts url s ->
  chain s = SceneLoaded ->
  (1 <= outstanding s)%nat ->
  _url s1 = _url s -> _cancelled s1 = _cancelled s ->
  _finished s1 = _finished s -> req_count s1 = req_count s ->
  req_ended s1 = req_ended s -> chain s1 = chain s ->
  mesh_key <$> mesh_tasks s1 = mesh_key <$> mesh_tasks s ->
  texture_key <$> texture_tasks s1 = texture_key <$> texture_tasks s ->
  requests s1 = requests s -> entities_added s1 = entities_added s ->
  (errors s1 + count mesh_failed (mesh_tasks s)
   + count image_failed (texture_tasks s)
   = errors s + count mesh_failed (mesh_tasks s1)
     + count image_failed (texture_tasks s1))%nat ->
  accounts url (_postload_object_ifNoReq s1).
Proof.
  intros Hinv [Hu He Hf Hm Ht Hr Her Hen Htr] Ch Ho.
  intros E1 E2 E3 E4 E5 E6 E7 E8 E9 E10 E11.
  destruct (inv_joined _ _ Hinv Ch) as (Hre & Hrc & _).
  destruct (_finished s) eqn:F.
  { destruct (inv_finished _ _ Hinv F) as [|[_ ?]]; [congruence|lia]. }
  unfold _postload_object_ifNoReq; simpl. rewrite E4, E5, Hre.
  destruct (req_count s - 1 =? 0) eqn:Eb; simpl.
  - unfold _postload_object; simpl. rewrite E2.
    destruct (_cancelled s) eqn:C.
    + split; account;
        rewrite ?E1, ?E2, ?E3, ?E6, ?E7, ?E8, ?E9, ?E10, ?F, ?C, ?Ch in *;
        try settle.
    + rewrite _load_entity_list_eq, load_entities_eq.
      unfold _success_callback; simpl. rewrite E2.
      split; account;
        rewrite ?E1, ?E2, ?E3, ?E6, ?E7, ?E8, ?E9, ?E10, ?F, ?C, ?Ch in *;
        try settle.
  - split; account;
      rewrite ?E1, ?E2, ?E3, ?E6, ?E7, ?E8, ?E9, ?E10, ?F, ?Ch in *;
      try settle.
Qed.

Lemma accounts_frame (url : string) (s s1 : state) :
  accounts url s ->
  chain s = SceneLoaded ->
  _url s1 = _url s -> _cancelled s1 = _cancelled s ->
  _finished s1 = _finished s -> chain s1 = chain s ->
  mesh_key <$> mesh_tasks s1 = mesh_key <$> mesh_tasks s ->
  texture_key <$> texture_tasks s1 = texture_key <$> texture_tasks s ->
  requests s1 = requests s -> entities_added s1 = entities_added s ->
  (errors s1 + count mesh_failed (mesh_tasks s)
   + count image_failed (texture_tasks s)
   = errors s + count mesh_failed (mesh_tasks s1)
     + count image_failed (texture_tasks s1))%nat ->
  accounts url s1.
Proof.
  intros [Hu He Hf Hm Ht Hr Her Hen Htr] Ch.
  intros E1 E2 E3 E6 E7 E8 E9 E10 E11.
  split; unfold loaded in *;
    rewrite ?E1, ?E2, ?E3, ?E6, ?E7, ?E8, ?E9, ?E10, ?Ch in *;
    try done; try congruence.
  lia.
Qed.

Lemma failed_mesh (s : state) (i : nat) (t : mesh_task) (st : mesh_stage) :
  mesh_tasks s !! i = Some t ->
  (count mesh_failed (mesh_tasks (set_mesh_stage i t st s))
   + (if mesh_failed t then 1 else 0)
   = count mesh_failed (mesh_tasks s)
     + (match st with MeshSettled false | MeshDone false => 1 | _ => 0 end))%nat.
Proof.
  intros Hi. simpl.
  pose proof (count_insert mesh_failed _ i t
    {| mt_id := mt_id t; mt_url := mt_url t; mt_stage := st |} Hi) as H.
  unfold mesh_failed at 4 in H. simpl in H. destruct st as [| | |[]|[]]; lia.
Qed.

Lemma failed_image (s : state) (i : nat) (t : texture_task) (st : image_stage) :
  texture_tasks s !! i = Some t ->
  (count image_failed (texture_tasks (set_image_stage i t st s))
   + (if image_failed t then 1 else 0)
   = count image_failed (texture_tasks s)
     + (match st with ImageDone false => 1 | _ => 0 end))%nat.
Proof.
  intros Hi. simpl.
  pose proof (count_insert image_failed _ i t
    {| tt_id := tt_id t; tt_image := tt_image t; tt_stage := st |} Hi) as H.
  unfold image_failed at 4 in H. simpl in H. destruct st as [|[]]; lia.
Qed.

Lemma accounts_mesh (scene : Scene) (url : string) (s : state) (i : nat)
  (e : event) (t : mesh_task) :
  invariant scene s -> accounts url s -> mesh_tasks s !! i = Some t ->
  accounts url (mesh_step i e t s).
Proof.
  intros Hinv H Hi. pose proof (mesh_loaded _ _ _ _ Hinv Hi) as Ch.
  unfold mesh_step, _check_cancel.
  pose proof (failed_mesh s i t) as Hc. unfold mesh_failed at 2 in Hc.
  assert (forall st, mesh_key <$> mesh_tasks (set_mesh_stage i t st s)
                     = mesh_key <$> mesh_tasks s) as Hk.
  { intros st. simpl. by eapply fmap_insert_same. }
  destruct e as [| | | | |j []|j []|j|j| |]; try done;
    destruct (mt_stage t) eqn:St; try done;
    try (destruct (_cancelled s) eqn:C);
    match goal with
    | |- accounts _ (_postload_object_ifNoReq (set_mesh_stage _ _ ?st _)) =>
        specialize (Hc st Hi); specialize (Hk st); simpl in Hc, Hk;
        eapply (accounts_join scene url s); [exact Hinv|exact H|exact Ch|..];
        [unfold outstanding;
         assert (mesh_pending t = true) as Hp
           by (unfold mesh_pending; by rewrite St);
         pose proof (count_pos mesh_pending _ i t Hi Hp); lia|..]
    | |- accounts _ (set_mesh_stage _ _ ?st _) =>
        specialize (Hc st Hi); specialize (Hk st); simpl in Hc, Hk;
        eapply (accounts_frame url s); [exact H|exact Ch|..]
    end;
    account; rewrite ?count_app; simpl; try settle;
    match goal with St : mt_stage t = MeshSettled ?b |- _ => destruct b end;
    settle.
Qed.

Lemma accounts_image (scene : Scene) (url : string) (s : state) (i : nat)
  (e : event) (t : texture_task) :
  invariant scene s -> accounts url s -> texture_tasks s !! i = Some t ->
  accounts url (image_step i e t s).
Proof.
  intros Hinv H Hi. pose proof (texture_loaded _ _ _ _ Hinv Hi) as Ch.
  unfold image_step.
  pose proof (failed_image s i t) as Hc. unfold image_failed at 2 in Hc.
  assert (forall st, texture_key <$> texture_tasks (set_image_stage i t st s)
                     = texture_key <$> texture_tasks s) as Hk.
  { intros st. simpl. by eapply fmap_insert_same. }
  destruct e as [| | | | | | | | |j|j]; try done;
    destruct (tt_stage t) eqn:St; try done; simpl;
    try (destruct (_cancelled s) eqn:C); simpl;
    match goal with
    | |- accounts _ (_postload_object_ifNoReq _) =>
        pose proof (Hc (ImageDone true) Hi) as Hc1;
        pose proof (Hc (ImageDone false) Hi) as Hc2;
        pose proof (Hk (ImageDone true)) as Hk1;
        pose proof (Hk (ImageDone false)) as Hk2;
        simpl in Hc1, Hc2, Hk1, Hk2;
        eapply (accounts_join scene url s); [exact Hinv|exact H|exact Ch|..];
        [unfold outstanding;
         assert (image_pending t = true) as Hp
           by (unfold image_pending; by rewrite St);
         pose proof (count_pos image_pending _ i t Hi Hp); lia|..]
    end;
    account; rewrite ?count_app; simpl; try settle.
Qed.

Lemma accounts_step (scene : Scene) (url : string) (s : state) (e : event) :
  invariant scene s -> accounts url s -> accounts url (step s e).
Proof.
  intros Hinv H. destruct e as [| |ok|ok| |i ok|i b|i|i|i|i].
  - by apply accounts_cancel.
  - by apply (accounts_cancel_job scene _ _ Hinv H).
  - by apply (accounts_scene scene _ _ (SceneResponse ok) Hinv H).
  - by apply (accounts_scene scene _ _ (SceneJson ok) Hinv H).
  - by apply (accounts_scene scene _ _ SceneCatch Hinv H).
  - unfold step. destruct (mesh_tasks s !! i) eqn:Hi;
      [by eapply accounts_mesh|done].
  - unfold step. destruct (mesh_tasks s !! i) eqn:Hi;
      [by eapply accounts_mesh|done].
  - unfold step. destruct (mesh_tasks s !! i) eqn:Hi;
      [by eapply accounts_mesh|done].
  - unfold step. destruct (mesh_tasks s !! i) eqn:Hi;
      [by eapply accounts_mesh|done].
  - unfold step. destruct (texture_tasks s !! i) eqn:Hi;
      [by eapply accounts_image|done].
  - unfold step. destruct (texture_tasks s !! i) eqn:Hi;
      [by eapply accounts_image|done].
Qed.

Lemma accounts_run (scene : Scene) (url : string) (evs : list event)
  (s : state) :
  invariant scene s -> accounts url s -> accounts url (run s evs).
Proof.
  revert s. induction evs as [|e evs IH]; intros s Hinv H; [done|].
  apply IH; [by apply invariant_step|by eapply accounts_step].
Qed.

Lemma step_when_cancelled (s : state) (e : event) :
  _cancelled s = true ->
  _finished (step s e) = _finished s /\
  (cancel_jobs (step s e) <= cancel_jobs s)%nat /\
  (loaded s = false -> loaded (step s e) = false).
Proof.
  intros C. unfold loaded.
  destruct e as [| |ok|ok| |i ok|i b|i|i|i|i]; unfold step.
  - unfold cancel. rewrite C. split; [done|]. split; [lia|done].
  - destruct (cancel_jobs s) eqn:J; [split; [done|]; split; [lia|done]|].
    unfold _cancel_callback; simpl. destruct (_finished s) eqn:F; simpl;
      rewrite ?F, ?J; (split; [done|]; split; [lia|done]).
  - unfold scene_step, _check_cancel. rewrite C.
    destruct ok, (chain s) eqn:Ch; simpl; rewrite ?Ch;
      (split; [done|]; split; [lia|done]).
  - unfold scene_step, _check_cancel. rewrite C.
    destruct ok, (chain s) eqn:Ch; simpl; rewrite ?Ch;
      (split; [done|]; split; [lia|done]).
  - unfold scene_step, _fail_callback. rewrite C.
    destruct (chain s) eqn:Ch; simpl; rewrite ?Ch;
      (split; [done|]; split; [lia|done]).
  - destruct (mesh_tasks s !! i); [|split; [done|]; split; [lia|done]].
    unroll; simpl in *; rewrite ?C in *;
      (split; [done|]; split; [lia|first [done|congruence]]).
  - destruct (mesh_tasks s !! i); [|split; [done|]; split; [lia|done]].
    unroll; simpl in *; rewrite ?C in *;
      (split; [done|]; split; [lia|first [done|congruence]]).
  - destruct (mesh_tasks s !! i); [|split; [done|]; split; [lia|done]].
    unroll; simpl in *; rewrite ?C in *;
      (split; [done|]; split; [lia|first [done|congruence]]).
  - destruct (mesh_tasks s !! i); [|split; [done|]; split; [lia|done]].
    unroll; simpl in *; rewrite ?C in *;
      (split; [done|]; split; [lia|first [done|congruence]]).
  - destruct (texture_tasks s !! i); [|split; [done|]; split; [lia|done]].
    unroll; simpl in *; rewrite ?C in *;
      (split; [done|]; split; [lia|first [done|congruence]]).
  - destruct (texture_tasks s !! i); [|split; [done|]; split; [lia|done]].
    unroll; simpl in *; rewrite ?C in *;
      (split; [done|]; split; [lia|first [done|congruence]]).
Qed.

Lemma run_when_cancelled (evs : list event) (s : state) :
  _cancelled s = true ->
  _cancelled (run s evs) = true /\
  _finished (run s evs) = _finished s /\
  (cancel_jobs (run s evs) <= cancel_jobs s)%nat /\
  (loaded s = false -> loaded (run s evs) = false).
Proof.
  revert s. induction evs as [|e evs IH]; intros s C; simpl.
  - split; [done|]. split; [done|]. split; [lia|done].
  - destruct (step_when_cancelled s e C) as (F & J & L).
    destruct (step_monotone s e) as (C' & _ & _).
    destruct (IH (step s e) (C' C)) as (C2 & F2 & J2 & L2).
    split; [done|]. split; [congruence|]. split; [lia|auto].
Qed.

Lemma accounts_reachable (scene : Scene) (url : string) (evs : list event) :
  invariant scene (run (new_SceneLoader scene url) evs) /\
  accounts url (run (new_SceneLoader scene url) evs).
Proof.
  pose proof (invariant_new scene url) as I.
  split; [by apply invariant_run|].
  by eapply accounts_run; [|apply accounts_new].
Qed.

Lemma run_cons (s : state) (e : event) (evs : list event) :
  run s (e :: evs) = run (step s e) evs.
Proof. done. Qed.

Lemma loaded_cases (s : state) :
  (chain s = SceneLoaded /\ loaded s = true) \/
  (chain s ≠ SceneLoaded /\ loaded s = false).
Proof. unfold loaded. destruct (chain s); try (by right); by left. Qed.

Lemma loaded_cancel (s : state) : loaded (cancel s) = loaded s.
Proof. unfold loaded, cancel. by destruct (_cancelled s). Qed.

Lemma finished_cancel (s : state) : _finished (cancel s) = _finished s.
Proof. unfold cancel. by destruct (_cancelled s). Qed.

Lemma tasks_length (url : string) (s : state) :
  accounts url s -> chain s = SceneLoaded ->
  (length (mesh_tasks s) + length (texture_tasks s))%nat = external_requests.
Proof.
  intros A L. unfold external_requests.
  pose proof (f_equal length (acc_meshes _ _ A L)) as Hm.
  pose proof (f_equal length (acc_textures _ _ A L)) as Ht.
  rewrite !length_fmap in Hm. rewrite !length_fmap in Ht. lia.
Qed.

(** X1: a scene file that cannot be retrieved or parsed ends the load with
    one console error naming the transformed URL, one removal from the
    scene and the finish callback called with [false], in that order and
    with nothing else; the reference table is empty, the scene has received
    no entity and no longer lists the loader. *)
Theorem scene_failure_reported (scene : Scene) (url : string)
  (evs : list event) :
  chain (run (new_SceneLoader scene url) evs) = SceneFailed ->
  _cancelled (run (new_SceneLoader scene url) evs) = false ->
  trace (run (new_SceneLoader scene url) evs)
  = [scene_request url; AddLoader;
     ConsoleError (failed_to_retrieve (tr_url (_transform url SCENE)));
     RemoveLoader; Callback false] /\
  _finished (run (new_SceneLoader scene url) evs) = true /\
  _references (run (new_SceneLoader scene url) evs) = ∅ /\
  scene_entities (_scene (run (new_SceneLoader scene url) evs))
  = scene_entities scene /\
  (this ∉ scene_loaders (_scene (run (new_SceneLoader scene url) evs))).
Proof.
  destruct (accounts_reachable scene url evs) as [I A].
  revert I A. generalize (run (new_SceneLoader scene url) evs) as s.
  intros s I A Ch C.
  assert (_finished s = true) as F
    by (destruct (acc_failed _ _ A Ch); congruence).
  assert (chain s ≠ SceneLoaded) as NL by congruence.
  split; [|split; [done|]; split; [|split]].
  - rewrite (acc_trace _ _ A C NL), F. done.
  - by apply (acc_empty _ _ A).
  - rewrite (inv_entities _ _ I). unfold loaded. rewrite Ch, F. simpl.
    by rewrite app_nil_r.
  - intros [F' _]%(inv_registered _ _ I). congruence.
Qed.


(** X3: a load cancelled before its scene file has been read never
    requests a mesh or an image, whatever responses arrive afterwards: the
    only request it has made is the fetch of the scene file, and its
    reference table stays empty. *)
Theorem cancel_before_scene_stops_requests (scene : Scene) (url : string)
  (evs evs' : list event) :
  loaded (run (new_SceneLoader scene url) evs) = false ->
  requests (run (new_SceneLoader scene url) (evs ++ Cancel :: evs'))
  = [scene_request url] /\
  _references (run (new_SceneLoader scene url) (evs ++ Cancel :: evs')) = ∅ /\
  mesh_tasks (run (new_SceneLoader scene url) (evs ++ Cancel :: evs')) = [] /\
  texture_tasks (run (new_SceneLoader scene url) (evs ++ Cancel :: evs')) = [].
Proof.
  intros L.
  destruct (accounts_reachable scene url (evs ++ Cancel :: evs')) as [I A].
  assert (loaded (run (new_SceneLoader scene url) (evs ++ Cancel :: evs'))
          = false) as L'.
  { rewrite run_app. simpl.
    apply run_when_cancelled; [apply cancel_cancelled|].
    by rewrite loaded_cancel. }
  revert I A L'.
  generalize (run (new_SceneLoader scene url) (evs ++ Cancel :: evs')) as s.
  intros s I A L'.
  assert (chain s ≠ SceneLoaded) as NL
    by (unfold loaded in L'; intros E; rewrite E in L'; done).
  split; [|split; [by apply (acc_empty _ _ A)|]].
  - by rewrite (acc_requests _ _ A), L'.
  - destruct (inv_before _ _ I NL) as (Hm & Ht & _). done.
Qed.

(** X4: the console errors of a load are counted by what went wrong: one
    per mesh whose fetch failed, one per texture whose image failed, and,
    once the load has finished, one for a scene file that could not be
    retrieved or one per item of an unknown type of a scene that loaded. *)
Theorem console_errors_accounted (scene : Scene) (url : string)
  (evs : list event) :
  errors (run (new_SceneLoader scene url) evs)
  = (count mesh_failed (mesh_tasks (run (new_SceneLoader scene url) evs))
     + count image_failed (texture_tasks (run (new_SceneLoader scene url) evs))
     + (if _finished (run (new_SceneLoader scene url) evs)
        then (if loaded (run (new_SceneLoader scene url) evs)
              then count unknown items else 1)
        else 0))%nat /\
  (errors (run (new_SceneLoader scene url) evs)
   <= 1 + external_requests + length items)%nat.
Proof.
  destruct (accounts_reachable scene url evs) as [I A].
  revert I A. generalize (run (new_SceneLoader scene url) evs) as s.
  intros s I A. pose proof (acc_errors _ _ A) as E.
  split; [done|]. rewrite E.
  pose proof (count_le_length mesh_failed (mesh_tasks s)).
  pose proof (count_le_length image_failed (texture_tasks s)).
  pose proof (count_le_length unknown items).
  destruct (loaded_cases s) as [[L L']|[NL L']]; rewrite L'.
  - pose proof (tasks_length _ _ A L). destruct (_finished s); lia.
  - destruct (inv_before _ _ I NL) as (Hm & Ht & _). rewrite Hm, Ht.
    destruct (_finished s); simpl; lia.
Qed.

(** X5: the counter of pending sub-resource requests is never negative and
    never exceeds the number of external sub-resources of the scene file;
    it is the number of meshes and textures whose last reaction has not
    run yet. *)
Theorem request_counter_bounds (scene : Scene) (url : string)
  (evs : list event) :
  req_count (run (new_SceneLoader scene url) evs)
  = Z.of_nat (outstanding (run (new_SceneLoader scene url) evs)) /\
  0 <= req_count (run (new_SceneLoader scene url) evs)
    <= Z.of_nat external_requests.
Proof.
  destruct (accounts_reachable scene url evs) as [I A].
  revert I A. generalize (run (new_SceneLoader scene url) evs) as s.
  intros s I A.
  destruct (loaded_cases s) as [[L _]|[NL _]].
  - destruct (inv_joined _ _ I L) as (_ & R & _).
    pose proof (tasks_length _ _ A L).
    pose proof (count_le_length mesh_pending (mesh_tasks s)).
    pose proof (count_le_length image_pending (texture_tasks s)).
    unfold outstanding in *. lia.
  - destruct (inv_before _ _ I NL) as (Hm & Ht & _ & R & _).
    unfold outstanding. rewrite Hm, Ht, R. simpl. lia.
Qed.

(** X6: the scene receives entities only from a load that succeeds: while
    the finish callback has not been called with [true], the scene's entity
    list is the one the loader was constructed on. *)
Theorem no_entity_before_success (scene : Scene) (url : string)
  (evs : list event) :
  callbacks (run (new_SceneLoader scene url) evs) ≠ [true] ->
  scene_entities (_scene (run (new_SceneLoader scene url) evs))
  = scene_entities scene /\
  entities_added (run (new_SceneLoader scene url) evs) = [].
Proof.
  destruct (accounts_reachable scene url evs) as [I A].
  revert I A. generalize (run (new_SceneLoader scene url) evs) as s.
  intros s I A NC.
  rewrite (inv_entities _ _ I), (acc_entities _ _ A).
  rewrite (inv_callbacks _ _ I) in NC.
  destruct (_finished s), (loaded s); simpl; try done;
    by rewrite app_nil_r.
Qed.

Lemma cancel_job_runs (scene : Scene) (s : state) :
  invariant scene s -> cancel_jobs (step s CancelJob) = 0%nat.
Proof.
  intros I. destruct (inv_jobs _ _ I) as [J _]. unfold step.
  destruct (cancel_jobs s) as [|n] eqn:E; [done|].
  assert (n = 0%nat) as -> by lia.
  unfold _cancel_callback. simpl. by destruct (_finished s).
Qed.

(** X7: cancelling a load that has not finished makes it fail: whatever
    responses arrive before and after the queued job runs, the load never
    finishes, the finish callback has been called exactly once, with
    [false], pending requests are aborted and the scene no longer lists the
    loader nor has received any entity. *)
Theorem cancel_reports_false (scene : Scene) (url : string)
  (evs evs1 evs2 : list event) :
  _finished (run (new_SceneLoader scene url) evs) = false ->
  callbacks (run (new_SceneLoader scene url)
               (evs ++ Cancel :: evs1 ++ CancelJob :: evs2)) = [false] /\
  _finished (run (new_SceneLoader scene url)
               (evs ++ Cancel :: evs1 ++ CancelJob :: evs2)) = false /\
  aborted (run (new_SceneLoader scene url)
             (evs ++ Cancel :: evs1 ++ CancelJob :: evs2)) = true /\
  (this ∉ scene_loaders
            (_scene (run (new_SceneLoader scene url)
                       (evs ++ Cancel :: evs1 ++ CancelJob :: evs2)))) /\
  scene_entities (_scene (run (new_SceneLoader scene url)
                            (evs ++ Cancel :: evs1 ++ CancelJob :: evs2)))
  = scene_entities scene.
Proof.
  intros F.
  destruct (accounts_reachable scene url
              (evs ++ Cancel :: evs1 ++ CancelJob :: evs2)) as [I _].
  destruct (accounts_reachable scene url (evs ++ Cancel :: evs1)) as [I1 _].
  revert I I1.
  replace (evs ++ Cancel :: evs1 ++ CancelJob :: evs2)
    with ((evs ++ Cancel :: evs1) ++ CancelJob :: evs2)
    by (by rewrite <- app_assoc).
  rewrite (run_app _ (evs ++ Cancel :: evs1)).
  rewrite (run_app _ evs), !run_cons.
  set (s := run (new_SceneLoader scene url) evs) in *.
  change (step s Cancel) with (cancel s).
  destruct (run_when_cancelled evs1 (cancel s) (cancel_cancelled s))
    as (C1 & F1 & _ & _).
  rewrite finished_cancel in F1.
  set (s1 := run (cancel s) evs1) in *.
  intros I I1.
  destruct (step_when_cancelled s1 CancelJob C1) as (F2 & _ & _).
  destruct (step_monotone s1 CancelJob) as (C2 & _ & _).
  specialize (C2 C1).
  pose proof (cancel_job_runs scene s1 I1) as J2.
  destruct (run_when_cancelled evs2 (step s1 CancelJob) C2)
    as (C3 & F3 & J3 & _).
  set (s3 := run (step s1 CancelJob) evs2) in *.
  assert (_finished s3 = false) as F' by congruence.
  assert (cancel_jobs s3 = 0%nat) as J' by lia.
  split; [|split; [done|]; split; [|split]].
  - by rewrite (inv_callbacks _ _ I), F', C3, J'.
  - by rewrite (inv_aborted _ _ I).
  - intros [_ C']%(inv_registered _ _ I). congruence.
  - rewrite (inv_entities _ _ I), F'. simpl. by rewrite app_nil_r.
Qed.

Lemma step_after_success_tasks (scene : Scene) (s : state) (e : event) :
  invariant scene s -> _finished s = true -> loaded s = true ->
  mesh_tasks (step s e) = mesh_tasks s /\
  texture_tasks (step s e) = texture_tasks s.
Proof.
  intros Hinv F L.
  destruct (settled_after_success scene s Hinv F L) as [Hm Ht].
  unfold loaded in L. destruct (chain s) eqn:Ch; try done.
  destruct e as [| |ok|ok| |i ok|i b|i|i|i|i]; unfold step.
  - unfold cancel. by destruct (_cancelled s).
  - destruct (cancel_jobs s); [done|]. unfold _cancel_callback; simpl.
    by rewrite F.
  - unfold scene_step. rewrite Ch. by destruct ok.
  - unfold scene_step. rewrite Ch. by destruct ok.
  - unfold scene_step. by rewrite Ch.
  - destruct (mesh_tasks s !! i) as [t|] eqn:Hi; [|done].
    destruct (Hm i t Hi) as [ok' St]. unfold mesh_step. rewrite St.
    by destruct ok.
  - destruct (mesh_tasks s !! i) as [t|] eqn:Hi; [|done].
    destruct (Hm i t Hi) as [ok' St]. unfold mesh_step. rewrite St.
    by destruct b.
  - destruct (mesh_tasks s !! i) as [t|] eqn:Hi; [|done].
    destruct (Hm i t Hi) as [ok' St]. unfold mesh_step. by rewrite St.
  - destruct (mesh_tasks s !! i) as [t|] eqn:Hi; [|done].
    destruct (Hm i t Hi) as [ok' St]. unfold mesh_step. by rewrite St.
  - destruct (texture_tasks s !! i) as [t|] eqn:Hi; [|done].
    destruct (Ht i t Hi) as [ok' St]. unfold image_step. by rewrite St.
  - destruct (texture_tasks s !! i) as [t|] eqn:Hi; [|done].
    destruct (Ht i t Hi) as [ok' St]. unfold image_step. by rewrite St.
Qed.

Lemma run_after_success (scene : Scene) (evs : list event) (s : state) :
  invariant scene s -> _finished s = true -> loaded s = true ->
  _finished (run s evs) = true /\ loaded (run s evs) = true /\
  _references (run s evs) = _references s /\
  scene_entities (_scene (run s evs)) = scene_entities (_scene s) /\
  mesh_tasks (run s evs) = mesh_tasks s /\
  texture_tasks (run s evs) = texture_tasks s.
Proof.
  revert s. induction evs as [|e evs IH]; intros s I F L; [done|].
  rewrite run_cons.
  destruct (step_after_success scene s e I F L) as [R E].
  destruct (step_after_success_tasks scene s e I F L) as [M T].
  destruct (step_monotone s e) as (_ & F' & _).
  destruct (IH (step s e) (invariant_step _ _ _ I) (F' F) (loaded_step _ _ L))
    as (F2 & L2 & R2 & E2 & M2 & T2).
  repeat split; congruence.
Qed.

(** X8: a successful load is final: once the finish callback has been
    called with [true], every mesh and texture request has run its last
    reaction, and no later response, cancel() call or queued job changes
    the reference table, the scene's entities, the requests issued or the
    errors reported. *)
Theorem success_is_final (scene : Scene) (url : string)
  (evs evs' : list event) :
  callbacks (run (new_SceneLoader scene url) evs) = [true] ->
  outstanding (run (new_SceneLoader scene url) evs) = 0%nat /\
  _references (run (new_SceneLoader scene url) (evs ++ evs'))
  = _references (run (new_SceneLoader scene url) evs) /\
  scene_entities (_scene (run (new_SceneLoader scene url) (evs ++ evs')))
  = scene_entities (_scene (run (new_SceneLoader scene url) evs)) /\
  requests (run (new_SceneLoader scene url) (evs ++ evs'))
  = requests (run (new_SceneLoader scene url) evs) /\
  errors (run (new_SceneLoader scene url) (evs ++ evs'))
  = errors (run (new_SceneLoader scene url) evs).
Proof.
  destruct (accounts_reachable scene url evs) as [I A].
  destruct (accounts_reachable scene url (evs ++ evs')) as [_ A'].
  revert A'. rewrite run_app.
  revert I A. generalize (run (new_SceneLoader scene url) evs) as s.
  intros s I A A' Cb.
  rewrite (inv_callbacks _ _ I) in Cb.
  assert (_finished s = true /\ loaded s = true) as [F L].
  { destruct (_finished s), (loaded s), (_cancelled s), (cancel_jobs s);
      simpl in Cb; try done; congruence. }
  destruct (run_after_success scene evs' s I F L)
    as (F' & L' & R & E & M & T).
  destruct (loaded_cases s) as [[Ch _]|[_ NL]]; [|congruence].
  destruct (inv_finished _ _ I F) as [|[_ Z]]; [congruence|].
  destruct (inv_joined _ _ I Ch) as (_ & O & _).
  split; [lia|]. split; [done|]. split; [done|]. split.
  - by rewrite (acc_requests _ _ A'), (acc_requests _ _ A), L, L'.
  - by rewrite (acc_errors _ _ A'), (acc_errors _ _ A), M, T, F, F', L, L'.
Qed.

Lemma kept_register_mesh (l : list (string * mesh_json))
  (refs : gmap string Obj) (k : string) :
  is_Some (refs !! k) -> is_Some (foldl register_mesh refs l !! k).
Proof.
  revert refs. induction l as [|entry l IH]; intros refs H; [done|].
  simpl. apply IH. unfold register_mesh.
  destruct (truthy (mesh_binary entry.2)), (mesh_vertices entry.2); try done.
  rewrite lookup_insert_is_Some'. by right.
Qed.

Lemma kept_register_entity (l : list entity_json) (refs : gmap string Obj)
  (k : string) :
  is_Some (refs !! k) -> is_Some (foldl register_entity refs l !! k).
Proof.
  revert refs. induction l as [|item l IH]; intros refs H; [done|].
  simpl. apply IH. unfold register_entity.
  destruct (build item), (truthy (item_id item)); try done.
  rewrite lookup_insert_is_Some'. by right.
Qed.

Lemma references_kept_step (s : state) (e : event) (k : string) :
  is_Some (_references s !! k) -> is_Some (_references (step s e) !! k).
Proof.
  intros H. unroll; simpl;
    repeat first [ done | apply kept_register_entity
                 | apply kept_register_mesh
                 | rewrite lookup_insert_is_Some'; right ].
Qed.

Lemma references_kept_run (evs : list event) (s : state) (k : string) :
  is_Some (_references s !! k) -> is_Some (_references (run s evs) !! k).
Proof.
  revert s. induction evs as [|e evs IH]; intros s H; [done|].
  rewrite run_cons. by apply IH, references_kept_step.
Qed.










(** X9: the reference table only grows: an identifier that resolves to an
    own entry of the table keeps resolving to one after every later
    response, cancel() call and queued job (the object it resolves to may
    be replaced by a later registration under the same identifier). *)
Theorem references_never_removed (s : state) (evs : list event) (k : string) :
  is_Some (_references s !! k) -> is_Some (_references (run s evs) !! k).
Proof. apply references_kept_run. Qed.


Lemma step_after_success_trace (scene : Scene) (s : state) (e : event) :
  invariant scene s -> _finished s = true -> loaded s = true ->
  (_cancelled (step s e) = _cancelled s /\ trace (step s e) = trace s) \/
  (_cancelled s = false /\ _cancelled (step s e) = true /\
   trace (step s e)
   = trace s ++ [AbortRequests; RemoveLoader; QueueCancelJob]).
Proof.
  intros Hinv F L.
  destruct (settled_after_success scene s Hinv F L) as [Hm Ht].
  unfold loaded in L. destruct (chain s) eqn:Ch; try done.
  destruct e as [| |ok|ok| |i ok|i b|i|i|i|i]; unfold step.
  - unfold cancel. destruct (_cancelled s) eqn:C; [by left|right].
    simpl. rewrite <- !app_assoc. done.
  - destruct (cancel_jobs s); [by left|]. unfold _cancel_callback; simpl.
    rewrite F. by left.
  - unfold scene_step. rewrite Ch. left. by destruct ok.
  - unfold scene_step. rewrite Ch. left. by destruct ok.
  - unfold scene_step. rewrite Ch. by left.
  - left. destruct (mesh_tasks s !! i) as [t|] eqn:Hi; [|done].
    destruct (Hm i t Hi) as [ok' St]. unfold mesh_step. rewrite St.
    by destruct ok.
  - left. destruct (mesh_tasks s !! i) as [t|] eqn:Hi; [|done].
    destruct (Hm i t Hi) as [ok' St]. unfold mesh_step. rewrite St.
    by destruct b.
  - left. destruct (mesh_tasks s !! i) as [t|] eqn:Hi; [|done].
    destruct (Hm i t Hi) as [ok' St]. unfold mesh_step. by rewrite St.
  - left. destruct (mesh_tasks s !! i) as [t|] eqn:Hi; [|done].
    destruct (Hm i t Hi) as [ok' St]. unfold mesh_step. by rewrite St.
  - left. destruct (texture_tasks s !! i) as [t|] eqn:Hi; [|done].
    destruct (Ht i t Hi) as [ok' St]. unfold image_step. by rewrite St.
  - left. destruct (texture_tasks s !! i) as [t|] eqn:Hi; [|done].
    destruct (Ht i t Hi) as [ok' St]. unfold image_step. by rewrite St.
Qed.

Lemma success_trace_step (scene : Scene) (s : state) (e : event) :
  invariant scene s ->
  _finished (step s e) = true -> loaded (step s e) = true ->
  (_finished s = true /\ loaded s = true) \/
  (_cancelled (step s e) = false /\
   suffix success_effects (trace (step s e))).
Proof.
  intros Hinv. pose proof (inv_finished _ _ Hinv) as Hf. revert Hf.
  unfold success_effects.
  unroll; simpl; unfold loaded; simpl; intros Hf F L;
    try (by left); try done.
  all: try (right; split; [done|]; rewrite <- !app_assoc; simpl;
            repeat first [ reflexivity | apply suffix_app_r
                         | apply suffix_cons_r ]).
  all: destruct (Hf F) as [|[]]; congruence.
Qed.

Lemma success_is_last_step (scene : Scene) (s : state) (e : event) :
  invariant scene s -> success_is_last s -> success_is_last (step s e).
Proof.
  intros I Hs F L.
  destruct (success_trace_step scene s e I F L) as [[F0 L0]|[C [pre ->]]].
  - destruct (Hs F0 L0) as [pre Hp].
    destruct (step_after_success_trace scene s e I F0 L0)
      as [[C ->]|(C & C' & ->)].
    + exists pre. unfold cancel_effects in *. by rewrite C.
    + exists pre. unfold cancel_effects in *. rewrite C in Hp. rewrite C', Hp.
      by rewrite <- !app_assoc.
  - exists pre. unfold cancel_effects. rewrite C. by rewrite app_nil_r.
Qed.

Lemma success_is_last_run (scene : Scene) (evs : list event) (s : state) :
  invariant scene s -> success_is_last s -> success_is_last (run s evs).
Proof.
  revert s. induction evs as [|e evs IH]; intros s I Hs; [done|].
  rewrite run_cons.
  apply IH; [by apply invariant_step|by eapply success_is_last_step].
Qed.

Lemma omap_entity_effects (l : list entity_json) :
  omap is_entity (entity_effect <$> l) = omap build l.
Proof.
  induction l as [|item l IH]; [done|]. csimpl. rewrite IH.
  unfold entity_effect. by destruct (build item).
Qed.

Lemma omap_callback_effects (l : list entity_json) :
  omap is_callback (entity_effect <$> l) = [].
Proof.
  induction l as [|item l IH]; [done|]. csimpl. rewrite IH.
  unfold entity_effect. by destruct (build item).
Qed.

Lemma app_app_self {A} (l1 l2 l3 : list A) :
  l1 ++ l2 ++ l3 = l2 -> l1 = [] /\ l3 = [].
Proof.
  intros H. pose proof (f_equal length H) as E. rewrite !length_app in E.
  split; apply nil_length_inv; lia.
Qed.

(** X11: a successful load ends in one uninterrupted batch: the entities
    of the scene file are handed to the scene in order (an item of an
    unknown type gives a console error in its place), then the loader is
    removed from the scene, then the finish callback is called with
    [true]. No entity is added and no callback is called before this
    batch, and nothing follows it except what a later cancel() does. *)
Theorem success_callback_last (scene : Scene) (url : string)
  (evs : list event) :
  callbacks (run (new_SceneLoader scene url) evs) = [true] ->
  exists pre,
    trace (run (new_SceneLoader scene url) evs)
    = pre ++ (entity_effect <$> items) ++ [RemoveLoader; Callback true]
      ++ (if _cancelled (run (new_SceneLoader scene url) evs)
          then [AbortRequests; RemoveLoader; QueueCancelJob] else []) /\
    omap is_entity pre = [] /\
    omap is_callback pre = [].
Proof.
  destruct (accounts_reachable scene url evs) as [I A].
  assert (success_is_last (new_SceneLoader scene url)) as S0 by done.
  pose proof (success_is_last_run scene evs _ (invariant_new scene url) S0)
    as S.
  revert I A S. generalize (run (new_SceneLoader scene url) evs) as s.
  intros s I A S Cb.
  pose proof Cb as Cb'. rewrite (inv_callbacks _ _ I) in Cb'.
  assert (_finished s = true /\ loaded s = true) as [F L].
  { destruct (_finished s), (loaded s), (_cancelled s), (cancel_jobs s);
      simpl in Cb'; try done; congruence. }
  destruct (S F L) as [pre Hp]. exists pre.
  unfold success_effects, cancel_effects in Hp.
  rewrite <- app_assoc in Hp. split; [done|].
  pose proof (acc_entities _ _ A) as E. unfold entities_added in E.
  rewrite F, L, Hp in E. simpl in E.
  rewrite !omap_app, omap_entity_effects in E.
  unfold callbacks in Cb. rewrite Hp in Cb.
  rewrite !omap_app, omap_callback_effects in Cb.
  split.
  - by apply app_app_self in E as [E _].
  - destruct (omap is_callback pre) as [|b l]; [done|].
    destruct l; simpl in Cb; [|destruct l]; discriminate.
Qed.

(** ** Termination *)

Lemma sum_insert {A} (f : A -> nat) (l : list A) (i : nat) (x y : A) :
  l !! i = Some x ->
  (sum_list (f <$> <[i := y]> l) + f x = sum_list (f <$> l) + f y)%nat.
Proof.
  revert i. induction l as [|a l IH]; intros [|i] H; simplify_eq/=.
  - lia.
  - specialize (IH i H). lia.
Qed.

Lemma postload_keeps (s : state) :
  chain (_postload_object_ifNoReq s) = chain s /\
  mesh_tasks (_postload_object_ifNoReq s) = mesh_tasks s /\
  texture_tasks (_postload_object_ifNoReq s) = texture_tasks s /\
  _cancelled (_postload_object_ifNoReq s) = _cancelled s.
Proof. unroll; simpl; done. Qed.

Lemma mesh_step_shape (s : state) (i : nat) (e : event) (t : mesh_task) :
  mesh_step i e t s = s \/
  exists st,
    chain (mesh_step i e t s) = chain s /\
    _cancelled (mesh_step i e t s) = _cancelled s /\
    mesh_tasks (mesh_step i e t s)
    = <[i := {| mt_id := mt_id t; mt_url := mt_url t; mt_stage := st |}]>
        (mesh_tasks s) /\
    texture_tasks (mesh_step i e t s) = texture_tasks s /\
    (stage_reactions st < mesh_reactions t)%nat.
Proof.
  unfold mesh_step, mesh_reactions.
  repeat case_match; try (by left); right; eexists;
    rewrite ?(proj1 (postload_keeps _)),
      ?(proj1 (proj2 (postload_keeps _))),
      ?(proj1 (proj2 (proj2 (postload_keeps _)))),
      ?(proj2 (proj2 (proj2 (postload_keeps _))));
    simpl; (split; [done|]; split; [done|]; split; [done|]; split; [done|]);
    simpl; lia.
Qed.

Lemma image_step_shape (s : state) (i : nat) (e : event) (t : texture_task) :
  image_step i e t s = s \/
  exists st,
    chain (image_step i e t s) = chain s /\
    _cancelled (image_step i e t s) = _cancelled s /\
    mesh_tasks (image_step i e t s) = mesh_tasks s /\
    texture_tasks (image_step i e t s)
    = <[i := {| tt_id := tt_id t; tt_image := tt_image t; tt_stage := st |}]>
        (texture_tasks s) /\
    (image_stage_reactions st < image_reactions t)%nat.
Proof.
  unfold image_step, image_reactions. cbv zeta.
  repeat case_match; try (by left); right; eexists;
    rewrite ?(proj1 (postload_keeps _)),
      ?(proj1 (proj2 (postload_keeps _))),
      ?(proj1 (proj2 (proj2 (postload_keeps _)))),
      ?(proj2 (proj2 (proj2 (postload_keeps _))));
    simpl; (split; [done|]; split; [done|]; split; [done|]; split; [done|]);
    simpl; lia.
Qed.

Lemma scene_step_shape (s : state) (e : event) :
  scene_step e s = s \/
  (reactions_left (scene_step e s) < reactions_left s)%nat.
Proof.
  unfold scene_step, reactions_left, _fail_callback, _check_cancel,
    _load_object, _postload_object, _success_callback. cbv zeta.
  repeat first [ closed_forms | case_match ]; try (by left); right; simpl;
    rewrite ?fmap_app, ?sum_list_with_app; unfold sub_reactions;
    repeat match goal with H : chain _ = _ |- _ => rewrite H end; simpl;
    try lia.
  all: rewrite ?fmap_app, ?sum_list_app; lia.
Qed.

Lemma reactions_mesh (s s1 : state) (i : nat) (t : mesh_task)
  (st : mesh_stage) :
  mesh_tasks s !! i = Some t ->
  chain s1 = chain s ->
  mesh_tasks s1
  = <[i := {| mt_id := mt_id t; mt_url := mt_url t; mt_stage := st |}]>
      (mesh_tasks s) ->
  texture_tasks s1 = texture_tasks s ->
  (stage_reactions st < mesh_reactions t)%nat ->
  (reactions_left s1 < reactions_left s)%nat.
Proof.
  intros Hi Hc Hm Ht Hlt. unfold reactions_left. rewrite Hc, Hm, Ht.
  pose proof (sum_insert mesh_reactions _ i t
    {| mt_id := mt_id t; mt_url := mt_url t; mt_stage := st |} Hi) as H.
  change (mesh_reactions {| mt_id := mt_id t; mt_url := mt_url t;
                            mt_stage := st |})
    with (stage_reactions st) in H.
  lia.
Qed.

Lemma reactions_image (s s1 : state) (i : nat) (t : texture_task)
  (st : image_stage) :
  texture_tasks s !! i = Some t ->
  chain s1 = chain s ->
  mesh_tasks s1 = mesh_tasks s ->
  texture_tasks s1
  = <[i := {| tt_id := tt_id t; tt_image := tt_image t; tt_stage := st |}]>
      (texture_tasks s) ->
  (image_stage_reactions st < image_reactions t)%nat ->
  (reactions_left s1 < reactions_left s)%nat.
Proof.
  intros Hi Hc Hm Ht Hlt. unfold reactions_left. rewrite Hc, Hm, Ht.
  pose proof (sum_insert image_reactions _ i t
    {| tt_id := tt_id t; tt_image := tt_image t; tt_stage := st |} Hi) as H.
  change (image_reactions {| tt_id := tt_id t; tt_image := tt_image t;
                             tt_stage := st |})
    with (image_stage_reactions st) in H.
  lia.
Qed.

Lemma reactions_step (s : state) (e : event) :
  is_response e = true ->
  step s e = s \/ (reactions_left (step s e) < reactions_left s)%nat.
Proof.
  intros R. destruct e as [| |ok|ok| |i ok|i b|i|i|i|i]; try done;
    unfold step; try apply scene_step_shape.
  all: try (destruct (mesh_tasks s !! i) as [t|] eqn:Hi; [|by left];
            match goal with |- mesh_step ?i ?e ?t ?s = _ \/ _ =>
              destruct (mesh_step_shape s i e t)
                as [H|(st & Hc & _ & Hm & Ht & Hlt)]
            end; [by left|right]; by eapply reactions_mesh).
  all: destruct (texture_tasks s !! i) as [t|] eqn:Hi; [|by left];
       match goal with |- image_step ?i ?e ?t ?s = _ \/ _ =>
         destruct (image_step_shape s i e t)
           as [H|(st & Hc & _ & Hm & Ht & Hlt)]
       end; [by left|right]; by eapply reactions_image.
Qed.

Lemma reactions_user (s : state) (e : event) :
  is_response e = false -> reactions_left (step s e) = reactions_left s.
Proof.
  intros R. destruct e; try done; unfold step.
  - unfold cancel. by destruct (_cancelled s).
  - destruct (cancel_jobs s); [done|]. unfold _cancel_callback. simpl.
    by destruct (_finished s).
Qed.

Lemma response_keeps_cancelled (s : state) (e : event) :
  is_response e = true -> _cancelled (step s e) = _cancelled s.
Proof.
  intros R. destruct e as [| |ok|ok| |i ok|i b|i|i|i|i]; try done;
    unfold step.
  1-3: unfold scene_step, _fail_callback, _check_cancel, _load_object,
         _postload_object, _success_callback; cbv zeta;
       repeat first [ closed_forms | case_match ]; simpl; congruence.
  all: try (destruct (mesh_tasks s !! i) as [t|] eqn:Hi; [|done];
            match goal with |- _cancelled (mesh_step ?i ?e ?t ?s) = _ =>
              destruct (mesh_step_shape s i e t)
                as [H|(st & _ & Hc & _)]
            end; congruence).
  all: destruct (texture_tasks s !! i) as [t|] eqn:Hi; [|done];
       match goal with |- _cancelled (image_step ?i ?e ?t ?s) = _ =>
         destruct (image_step_shape s i e t)
           as [H|(st & _ & Hc & _)]
       end; congruence.
Qed.

Lemma reactions_run (evs : list event) (s : state) :
  (reactions_left (run s evs) <= reactions_left s)%nat.
Proof.
  revert s. induction evs as [|e evs IH]; intros s; [done|].
  rewrite run_cons. specialize (IH (step s e)).
  destruct (is_response e) eqn:R.
  - destruct (reactions_step s e R) as [E|H]; [|lia].
    assert (reactions_left (step s e) = reactions_left s) as E'
      by (by rewrite E).
    lia.
  - rewrite (reactions_user s e R) in IH. done.
Qed.

Lemma fresh_mesh_reactions (l : list (string * mesh_json)) :
  sum_list (mesh_reactions <$> omap mesh_request l)
  = (4 * length (omap mesh_request l))%nat.
Proof.
  induction l as [|x l IH]; [done|]. csimpl.
  destruct (mesh_request x) as [t|] eqn:E; csimpl; [|done].
  assert (mesh_reactions t = 4%nat) as ->; [|lia].
  unfold mesh_request in E. destruct (truthy (mesh_binary x.2)); by simplify_eq.
Qed.

Lemma fresh_image_reactions (l : list (string * texture_json)) :
  sum_list (image_reactions <$> omap texture_request l)
  = length (omap texture_request l).
Proof.
  induction l as [|x l IH]; [done|]. csimpl.
  destruct (texture_request x) as [t|] eqn:E; csimpl; [|done].
  assert (image_reactions t = 1%nat) as ->; [|lia].
  unfold texture_request in E.
  destruct (truthy (texture_image x.2)); by simplify_eq.
Qed.

(** X12: every reaction to a response either finds nothing to react to
    and leaves the loader as it is, or consumes one of the reactions that
    the load still has to run; cancel() and its queued job do not touch
    this number. A load constructed on a scene file with m mesh binaries
    and n texture images runs at most 3 + 4 m + n reactions. *)
Theorem reactions_decrease (scene : Scene) (url : string) (s : state)
  (e : event) (evs : list event) :
  (if is_response e
   then step s e = s \/ (reactions_left (step s e) < reactions_left s)%nat
   else reactions_left (step s e) = reactions_left s) /\
  (reactions_left (run s evs) <= reactions_left s)%nat /\
  reactions_left (new_SceneLoader scene url)
  = (3 + 4 * length (omap mesh_request meshes)
     + length (omap texture_request textures))%nat.
Proof.
  split; [|split].
  - destruct (is_response e) eqn:R;
      [by apply reactions_step|by apply reactions_user].
  - apply reactions_run.
  - unfold reactions_left, new_SceneLoader. simpl. unfold sub_reactions.
    rewrite fresh_mesh_reactions, fresh_image_reactions. lia.
Qed.

Lemma sum_zero {A} (f : A -> nat) (l : list A) :
  sum_list (f <$> l) = 0%nat <-> forall x, x ∈ l -> f x = 0%nat.
Proof.
  induction l as [|a l IH]; csimpl.
  - split; [|done]. intros _ x Hx. by apply elem_of_nil in Hx.
  - split.
    + intros H x [->|Hx]%elem_of_cons; [lia|]. apply IH; [lia|done].
    + intros H. rewrite (H a) by left. apply IH. intros x Hx. apply H.
      by right.
Qed.

Lemma sum_pos {A} (f : A -> nat) (l : list A) :
  (0 < sum_list (f <$> l))%nat ->
  exists i x, l !! i = Some x /\ (0 < f x)%nat.
Proof.
  induction l as [|a l IH]; csimpl; [lia|]. intros H.
  destruct (f a) as [|n] eqn:E.
  - destruct (IH H) as (i & x & Hi & Hx). by exists (S i), x.
  - exists 0%nat, a. split; [done|lia].
Qed.

Lemma finished_iff_settled (scene : Scene) (url : string) (s : state) :
  invariant scene s -> accounts url s -> _cancelled s = false ->
  _finished s = true <-> reactions_left s = 0%nat.
Proof.
  intros I A C. unfold reactions_left. split.
  - intros F. destruct (inv_finished _ _ I F) as [Ch|[Ch Z]].
    + assert (chain s ≠ SceneLoaded) as NL by congruence.
      destruct (inv_before _ _ I NL) as (-> & -> & _). by rewrite Ch.
    + assert (loaded s = true) as L by (unfold loaded; by rewrite Ch).
      destruct (settled_after_success scene s I F L) as [Hm Ht].
      rewrite Ch. simpl.
      assert (sum_list (mesh_reactions <$> mesh_tasks s) = 0%nat) as ->.
      { apply sum_zero. intros t [i Hi]%list_elem_of_lookup_1.
        destruct (Hm i t Hi) as [ok St]. unfold mesh_reactions.
        by rewrite St. }
      assert (sum_list (image_reactions <$> texture_tasks s) = 0%nat) as ->.
      { apply sum_zero. intros t [i Hi]%list_elem_of_lookup_1.
        destruct (Ht i t Hi) as [ok St]. unfold image_reactions.
        by rewrite St. }
      done.
  - intros Z.
    assert (scene_reactions (chain s) = 0%nat) as Zc by lia.
    assert (sum_list (mesh_reactions <$> mesh_tasks s) = 0%nat) as Zm by lia.
    assert (sum_list (image_reactions <$> texture_tasks s) = 0%nat) as Zt
      by lia.
    destruct (chain s) eqn:Ch; simpl in Zc; try lia.
    + destruct (acc_failed _ _ A Ch); congruence.
    + destruct (inv_joined _ _ I Ch) as (_ & R & _).
      apply (inv_success _ _ I Ch); [|done].
      rewrite R. unfold outstanding.
      rewrite (count_none mesh_pending), (count_none image_pending); [done| |].
      * intros t Hin. pose proof (proj1 (sum_zero _ _) Zt t Hin) as Ht.
        unfold image_reactions in Ht. unfold image_pending.
        by destruct (tt_stage t).
      * intros t Hin. pose proof (proj1 (sum_zero _ _) Zm t Hin) as Hm.
        unfold mesh_reactions in Hm. unfold mesh_pending.
        by destruct (mt_stage t).
Qed.

Lemma response_enabled (s : state) :
  (0 < reactions_left s)%nat ->
  exists e, is_response e = true /\
            (reactions_left (step s e) < reactions_left s)%nat.
Proof.
  intros H.
  destruct (scene_reactions (chain s)) as [|n] eqn:Zc.
  - destruct (sum_list (mesh_reactions <$> mesh_tasks s)) as [|m] eqn:Zm.
    + assert (0 < sum_list (image_reactions <$> texture_tasks s))%nat as P
        by (unfold reactions_left in H; lia).
      destruct (sum_pos _ _ P) as (i & t & Hi & Ht).
      exists (ImageError i). split; [done|]. unfold step. rewrite Hi.
      unfold image_reactions in Ht. unfold image_step.
      destruct (tt_stage t) eqn:St; simpl in Ht; [|lia]. cbv zeta.
      eapply (reactions_image s _ i t (ImageDone false) Hi);
        rewrite ?(proj1 (postload_keeps _)),
          ?(proj1 (proj2 (postload_keeps _))),
          ?(proj1 (proj2 (proj2 (postload_keeps _)))); try done.
      unfold image_reactions. rewrite St. simpl. lia.
    + assert (0 < sum_list (mesh_reactions <$> mesh_tasks s))%nat as P by lia.
      destruct (sum_pos _ _ P) as (i & t & Hi & Ht).
      unfold mesh_reactions in Ht.
      destruct (mt_stage t) as [| | |ok|ok] eqn:St; simpl in Ht; [| | | |lia].
      * exists (MeshResponse i false). split; [done|]. unfold step.
        rewrite Hi. unfold mesh_step. rewrite St.
        eapply (reactions_mesh s _ i t MeshRejected Hi); try done.
        unfold mesh_reactions. rewrite St. simpl. lia.
      * exists (MeshBuffer i None). split; [done|]. unfold step.
        rewrite Hi. unfold mesh_step. rewrite St.
        eapply (reactions_mesh s _ i t MeshRejected Hi); try done.
        unfold mesh_reactions. rewrite St. simpl. lia.
      * exists (MeshCatch i). split; [done|]. unfold step.
        rewrite Hi. unfold mesh_step. rewrite St.
        eapply (reactions_mesh s _ i t (MeshSettled false) Hi); try done.
        unfold mesh_reactions. rewrite St. simpl. lia.
      * exists (MeshThen i). split; [done|]. unfold step.
        rewrite Hi. unfold mesh_step. rewrite St.
        eapply (reactions_mesh s _ i t (MeshDone ok) Hi);
          rewrite ?(proj1 (postload_keeps _)),
            ?(proj1 (proj2 (postload_keeps _))),
            ?(proj1 (proj2 (proj2 (postload_keeps _)))); try done.
        unfold mesh_reactions. rewrite St. simpl. lia.
  - destruct (chain s) eqn:Ch; simpl in Zc; try lia.
    + exists (SceneResponse false). split; [done|].
      unfold step, scene_step, reactions_left. rewrite Ch. simpl. lia.
    + exists (SceneJson false). split; [done|].
      unfold step, scene_step, reactions_left. rewrite Ch. simpl. lia.
    + exists SceneCatch. split; [done|].
      unfold step, scene_step, reactions_left, _fail_callback. rewrite Ch.
      destruct (_cancelled s); simpl; lia.
Qed.

Lemma terminates_within (scene : Scene) (url : string) (n : nat) (s : state) :
  invariant scene s -> accounts url s -> _cancelled s = false ->
  (reactions_left s <= n)%nat ->
  exists evs, forallb is_response evs = true /\ (length evs <= n)%nat /\
              _finished (run s evs) = true /\
              _cancelled (run s evs) = false.
Proof.
  revert s. induction n as [|n IH]; intros s I A C Hn.
  - exists []. split; [done|]. split; [done|]. split; [|done].
    apply (finished_iff_settled scene url s I A C). lia.
  - destruct (reactions_left s) as [|m] eqn:E.
    + exists []. split; [done|]. split; [simpl; lia|]. split; [|done].
      by apply (finished_iff_settled scene url s I A C).
    + destruct (response_enabled s) as (e & R & Hlt); [lia|].
      destruct (IH (step s e)) as (evs & Hr & Hl & F & C').
      * by apply invariant_step.
      * by eapply accounts_step.
      * by rewrite response_keeps_cancelled.
      * lia.
      * exists (e :: evs). simpl. rewrite R. split; [done|].
        split; [lia|]. done.
Qed.

(** X13: a load that has not been cancelled has finished exactly when no
    reaction is left for it to run: the loader never waits without a
    request pending, and it never finishes while a response to one of its
    requests is still to come. *)
Theorem finished_when_settled (scene : Scene) (url : string)
  (evs : list event) :
  _cancelled (run (new_SceneLoader scene url) evs) = false ->
  (_finished (run (new_SceneLoader scene url) evs) = true <->
   reactions_left (run (new_SceneLoader scene url) evs) = 0%nat) /\
  (_finished (run (new_SceneLoader scene url) evs) = false ->
   exists e, is_response e = true /\
     (reactions_left (step (run (new_SceneLoader scene url) evs) e)
      < reactions_left (run (new_SceneLoader scene url) evs))%nat).
Proof.
  destruct (accounts_reachable scene url evs) as [I A].
  revert I A. generalize (run (new_SceneLoader scene url) evs) as s.
  intros s I A C.
  pose proof (finished_iff_settled scene url s I A C) as H.
  split; [done|]. intros F. apply response_enabled.
  destruct (reactions_left s); [|lia].
  rewrite (proj2 H eq_refl) in F. done.
Qed.

(** X14: every load that is not cancelled can be brought to its end by
    the responses to its requests alone: from every state it reaches there
    is a sequence of responses, no longer than the number of reactions
    left, after which the finish callback has been called. *)
Theorem load_terminates (scene : Scene) (url : string) (evs : list event) :
  _cancelled (run (new_SceneLoader scene url) evs) = false ->
  exists evs',
    forallb is_response evs' = true /\
    (length evs' <= reactions_left (run (new_SceneLoader scene url) evs))%nat /\
    _finished (run (new_SceneLoader scene url) (evs ++ evs')) = true /\
    length (callbacks (run (new_SceneLoader scene url) (evs ++ evs'))) = 1%nat.
Proof.
  intros C.
  destruct (accounts_reachable scene url evs) as [I A].
  destruct (terminates_within scene url _ _ I A C (le_n _))
    as (evs' & R & Hl & F & C').
  exists evs'. split; [done|]. split; [done|]. rewrite run_app.
  split; [done|].
  pose proof (invariant_run scene evs' _ I) as I'.
  by rewrite (inv_callbacks _ _ I'), F.
Qed.
End Loader.

(** ** Entries without anything to load *)

Section Ignored.

Variable this : nat.
Variable _transform : string -> ResourceType -> TransformResult.

Lemma load_meshes_without_ignored (l : list (string * mesh_json)) (s : state) :
  foldl (load_mesh _transform) s
    (filter (fun entry => ignored_mesh entry = false) l)
  = foldl (load_mesh _transform) s l.
Proof.
  revert s. induction l as [|[id [b v]] l IH]; intros s; [done|].
  rewrite filter_cons. case_decide as H; simpl; [apply IH|].
  unfold ignored_mesh in H; simpl in H.
  destruct b, v; try done; apply IH.
Qed.

Lemma load_textures_without_ignored (l : list (string * texture_json))
  (s : state) :
  foldl (load_texture _transform) s
    (filter (fun entry => ignored_texture entry = false) l)
  = foldl (load_texture _transform) s l.
Proof.
  revert s. induction l as [|[id [i]] l IH]; intros s; [done|].
  rewrite filter_cons. case_decide as H; simpl; [apply IH|].
  unfold ignored_texture in H; simpl in H.
  destruct i; try done; apply IH.
Qed.

Lemma _load_object_without_ignored (m : manifest) (s : state) :
  _load_object this _transform (without_ignored m) s
  = _load_object this _transform m s.
Proof.
  unfold _load_object. cbv zeta.
  rewrite !_load_mesh_register_eq, !_load_texture_register_eq.
  unfold meshes, textures, without_ignored; simpl.
  destruct (mesh_register m) as [lm|], (texture_register m) as [lt|]; simpl;
    by rewrite ?load_meshes_without_ignored, ?load_textures_without_ignored.
Qed.

Lemma step_without_ignored (m : manifest) (s : state) (e : event) :
  step this _transform (without_ignored m) s e = step this _transform m s e.
Proof.
  destruct e as [| |ok|ok| |i ok|i b|i|i|i|i]; try reflexivity.
  unfold step, scene_step. by rewrite _load_object_without_ignored.
Qed.

(** C10: a mesh entry with neither [binary] nor [vertices] and a texture
    entry without [image] leave the loader as it is when their register is
    read (no entry in the reference table, no request, the counter as it
    was), and a load goes the same way, reaction by reaction, whether the
    scene file has such entries or not. *)
Theorem ignored_entries_have_no_effect (m : manifest) (s : state)
  (evs : list event) (id : string) :
  load_mesh _transform s
    (id, {| mesh_binary := None; mesh_vertices := None |}) = s /\
  load_texture _transform s (id, {| texture_image := None |}) = s /\
  run this _transform (without_ignored m) s evs = run this _transform m s evs.
Proof.
  split; [done|]. split; [done|].
  revert s. induction evs as [|e evs IH]; intros s; [done|].
  simpl. by rewrite step_without_ignored, IH.
Qed.

End Ignored.

(** ** Concrete loads *)


(** The same load: the continuation has been entered once, on a loader that
    is not cancelled; and a scene file without sub-resources enters it when
    the scene file is registered. *)
Lemma join_fires_once_witness :
  (callbacks
     (run 1%nat defaultTransformCallback texture_and_entity
        (new_SceneLoader 1%nat defaultTransformCallback empty_scene "scene.json")
        [SceneResponse true; SceneJson true; ImageLoad 0]) = [true] /\
   scene_entities
     (_scene
        (run 1%nat defaultTransformCallback texture_and_entity
           (new_SceneLoader 1%nat defaultTransformCallback empty_scene
              "scene.json")
           [SceneResponse true; SceneJson true; ImageLoad 0]))
   = scene_entities empty_scene ++ omap build (items texture_and_entity)) /\
  postload_calls
    (step 1%nat defaultTransformCallback empty_manifest
       (run 1%nat defaultTransformCallback empty_manifest
          (new_SceneLoader 1%nat defaultTransformCallback empty_scene
             "scene.json")
          [SceneResponse true])
       (SceneJson true)) = 1%nat.
Proof.
  split.
  - apply (join_fires_once 1%nat defaultTransformCallback texture_and_entity
             empty_scene "scene.json"
             [SceneResponse true; SceneJson true; ImageLoad 0]);
      reflexivity.
  - apply (join_fires_once 1%nat defaultTransformCallback empty_manifest
             empty_scene "scene.json" [SceneResponse true]);
      reflexivity.
Defined.

(** C3 (as stated, on the code): the constructor issues the scene fetch
    before it adds the loader to the scene. *)
Lemma registers_before_io_counterexample :
  trace (new_SceneLoader 1%nat defaultTransformCallback empty_scene "scene.json")
  = [Fetch "scene.json" {| init_credentials := "omit"; init_headers := None |};
     AddLoader] /\
  registered_before_io
    (trace (new_SceneLoader 1%nat defaultTransformCallback empty_scene
              "scene.json")) = false.
Proof. split; reflexivity. Qed.

(** C4 (as stated, on the code): the image of texture ["t1"] fails, the
    load succeeds, and the identifier ["t1"] is bound all the same, to the
    entity that carries the same identifier. *)
Lemma failed_texture_key_set_counterexample :
  texture_tasks
    (run 1%nat defaultTransformCallback shared_identifier
       (new_SceneLoader 1%nat defaultTransformCallback empty_scene "scene.json")
       [SceneResponse true; SceneJson true; ImageError 0]) !! 0%nat
  = Some {| tt_id := "t1";
            tt_image := {| image_crossOrigin := None; image_src := "a.png" |};
            tt_stage := ImageDone false |} /\
  callbacks
    (run 1%nat defaultTransformCallback shared_identifier
       (new_SceneLoader 1%nat defaultTransformCallback empty_scene "scene.json")
       [SceneResponse true; SceneJson true; ImageError 0]) = [true] /\
  getReference
    (run 1%nat defaultTransformCallback shared_identifier
       (new_SceneLoader 1%nat defaultTransformCallback empty_scene "scene.json")
       [SceneResponse true; SceneJson true; ImageError 0]) "t1"
  = Some (Stored (EntityObj
                    {| entity_kind := GenericEntity;
                       entity_item := {| item_type := Some "generic";
                                         item_id := Some "t1";
                                         item_payload := EmptyString |} |})).
Proof. repeat split; reflexivity. Qed.

(** The texture of the scenario fails: the load succeeds and the table has
    no entry for ["t1"]. *)
Lemma failed_subresource_not_fatal_witness :
  callbacks
    (run 1%nat defaultTransformCallback texture_and_entity
       (new_SceneLoader 1%nat defaultTransformCallback empty_scene "scene.json")
       [SceneResponse true; SceneJson true; ImageError 0]) = [true] /\
  _references
    (run 1%nat defaultTransformCallback texture_and_entity
       (new_SceneLoader 1%nat defaultTransformCallback empty_scene "scene.json")
       [SceneResponse true; SceneJson true; ImageError 0]) !! "t1" = None.
Proof.
  pose proof (failed_subresource_not_fatal 1%nat defaultTransformCallback
    texture_and_entity empty_scene "scene.json"
    [SceneResponse true; SceneJson true; ImageError 0] "t1") as H.
  destruct H as (_ & Hc & Hg).
  - reflexivity.
  - reflexivity.
  - reflexivity.
  - intros i t Hi. by destruct i.
  - intros [|[|i]] t Hi _; vm_compute in Hi; by simplify_eq.
  - intros entry Hin. by apply elem_of_nil in Hin.
  - intros item Hin. vm_compute in Hin.
    apply list_elem_of_singleton in Hin as ->. reflexivity.
  - by split.
Defined.

(** A first [cancel()] on a fresh loader. *)
Lemma cancel_idempotent_witness :
  _cancelled
    (new_SceneLoader 1%nat defaultTransformCallback empty_scene "scene.json")
  = false /\
  cancel_jobs
    (cancel 1%nat
       (new_SceneLoader 1%nat defaultTransformCallback empty_scene "scene.json"))
  = 1%nat.
Proof.
  split; [reflexivity|].
  apply (cancel_idempotent 1%nat defaultTransformCallback empty_manifest
           (new_SceneLoader 1%nat defaultTransformCallback empty_scene
              "scene.json")).
  reflexivity.
Defined.

(** The scenario, loaded: one entity in the scene. *)
Lemma entities_in_declaration_order_witness :
  callbacks
    (run 1%nat defaultTransformCallback texture_and_entity
       (new_SceneLoader 1%nat defaultTransformCallback empty_scene "scene.json")
       [SceneResponse true; SceneJson true; ImageLoad 0]) = [true] /\
  scene_entities
    (_scene
       (run 1%nat defaultTransformCallback texture_and_entity
          (new_SceneLoader 1%nat defaultTransformCallback empty_scene
             "scene.json")
          [SceneResponse true; SceneJson true; ImageLoad 0]))
  = scene_entities empty_scene ++ omap build (items texture_and_entity).
Proof.
  split; [reflexivity|].
  apply (entities_in_declaration_order 1%nat defaultTransformCallback
           texture_and_entity empty_scene "scene.json"
           [SceneResponse true; SceneJson true; ImageLoad 0]).
  reflexivity.
Defined.

(** C8 (as stated, on the code): the load of an empty scene file succeeds,
    then [cancel()] is called: [removeLoader] has been called twice. *)
Lemma removeLoader_twice_counterexample :
  callbacks
    (run 1%nat defaultTransformCallback empty_manifest
       (new_SceneLoader 1%nat defaultTransformCallback empty_scene "scene.json")
       [SceneResponse true; SceneJson true; Cancel; CancelJob]) = [true] /\
  removeLoader_calls
    (run 1%nat defaultTransformCallback empty_manifest
       (new_SceneLoader 1%nat defaultTransformCallback empty_scene "scene.json")
       [SceneResponse true; SceneJson true; Cancel; CancelJob]) = 2%nat.
Proof. split; reflexivity. Qed.

(** A cancelled loader stays out of the scene. *)
Lemma registered_until_terminal_witness :
  (1%nat ∉ scene_loaders
     (_scene
        (run 1%nat defaultTransformCallback empty_manifest
           (new_SceneLoader 1%nat defaultTransformCallback empty_scene
              "scene.json")
           [Cancel]))) /\
  (1%nat ∉ scene_loaders
     (_scene
        (run 1%nat defaultTransformCallback empty_manifest
           (new_SceneLoader 1%nat defaultTransformCallback empty_scene
              "scene.json")
           ([Cancel] ++ [CancelJob; SceneResponse false; SceneCatch])))).
Proof.
  assert (1%nat ∉ scene_loaders
     (_scene
        (run 1%nat defaultTransformCallback empty_manifest
           (new_SceneLoader 1%nat defaultTransformCallback empty_scene
              "scene.json")
           [Cancel]))) as H.
  { simpl. intros [_ Hn]%elem_of_difference. apply Hn.
    by apply elem_of_singleton. }
  split; [exact H|].
  by apply (registered_until_terminal 1%nat defaultTransformCallback
              empty_manifest empty_scene "scene.json" [Cancel]).
Defined.

(** ** Concrete loads, continued *)

Lemma scene_failure_reported_witness :
  callbacks
    (run 1%nat defaultTransformCallback texture_and_entity
       (new_SceneLoader 1%nat defaultTransformCallback empty_scene "scene.json")
       [SceneResponse false; SceneCatch]) = [false] /\
  _references
    (run 1%nat defaultTransformCallback texture_and_entity
       (new_SceneLoader 1%nat defaultTransformCallback empty_scene "scene.json")
       [SceneResponse false; SceneCatch]) = ∅.
Proof.
  split; [reflexivity|].
  apply (scene_failure_reported 1%nat defaultTransformCallback
           texture_and_entity empty_scene "scene.json"
           [SceneResponse false; SceneCatch]); reflexivity.
Defined.

Lemma cancel_before_scene_stops_requests_witness :
  requests
    (run 1%nat defaultTransformCallback texture_and_entity
       (new_SceneLoader 1%nat defaultTransformCallback empty_scene "scene.json")
       ([SceneResponse true]
        ++ Cancel :: [SceneJson true; ImageLoad 0; CancelJob]))
  = [scene_request defaultTransformCallback "scene.json"].
Proof.
  apply (cancel_before_scene_stops_requests 1%nat defaultTransformCallback
           texture_and_entity empty_scene "scene.json" [SceneResponse true]
           [SceneJson true; ImageLoad 0; CancelJob]).
  reflexivity.
Defined.

Lemma no_entity_before_success_witness :
  scene_entities
    (_scene
       (run 1%nat defaultTransformCallback texture_and_entity
          (new_SceneLoader 1%nat defaultTransformCallback empty_scene
             "scene.json")
          [SceneResponse true; SceneJson true]))
  = scene_entities empty_scene.
Proof.
  apply (no_entity_before_success 1%nat defaultTransformCallback
           texture_and_entity empty_scene "scene.json"
           [SceneResponse true; SceneJson true]).
  vm_compute. discriminate.
Defined.

Lemma cancel_reports_false_witness :
  callbacks
    (run 1%nat defaultTransformCallback texture_and_entity
       (new_SceneLoader 1%nat defaultTransformCallback empty_scene "scene.json")
       ([SceneResponse true; SceneJson true]
        ++ Cancel :: [ImageLoad 0] ++ CancelJob :: [Cancel])) = [false].
Proof.
  apply (cancel_reports_false 1%nat defaultTransformCallback
           texture_and_entity empty_scene "scene.json"
           [SceneResponse true; SceneJson true] [ImageLoad 0] [Cancel]).
  reflexivity.
Defined.

Lemma success_is_final_witness :
  _references
    (run 1%nat defaultTransformCallback texture_and_entity
       (new_SceneLoader 1%nat defaultTransformCallback empty_scene "scene.json")
       ([SceneResponse true; SceneJson true; ImageLoad 0]
        ++ [ImageError 0; Cancel; CancelJob; SceneCatch]))
  = _references
      (run 1%nat defaultTransformCallback texture_and_entity
         (new_SceneLoader 1%nat defaultTransformCallback empty_scene
            "scene.json")
         [SceneResponse true; SceneJson true; ImageLoad 0]).
Proof.
  apply (success_is_final 1%nat defaultTransformCallback
           texture_and_entity empty_scene "scene.json"
           [SceneResponse true; SceneJson true; ImageLoad 0]
           [ImageError 0; Cancel; CancelJob; SceneCatch]).
  reflexivity.
Defined.

Lemma references_never_removed_witness :
  is_Some
    (_references
       (run 1%nat defaultTransformCallback texture_and_entity
          (run 1%nat defaultTransformCallback texture_and_entity
             (new_SceneLoader 1%nat defaultTransformCallback empty_scene
                "scene.json")
             [SceneResponse true; SceneJson true; ImageLoad 0])
          [Cancel; CancelJob]) !! "t1").
Proof.
  apply (references_never_removed 1%nat defaultTransformCallback
           texture_and_entity).
  vm_compute. by eexists.
Defined.


Lemma success_callback_last_witness :
  exists pre,
    trace
      (run 1%nat defaultTransformCallback texture_and_entity
         (new_SceneLoader 1%nat defaultTransformCallback empty_scene
            "scene.json")
         [SceneResponse true; SceneJson true; ImageLoad 0])
    = pre ++ (entity_effect <$> items texture_and_entity)
      ++ [RemoveLoader; Callback true] /\
    omap is_entity pre = [].
Proof.
  destruct (success_callback_last 1%nat defaultTransformCallback
              texture_and_entity empty_scene "scene.json"
              [SceneResponse true; SceneJson true; ImageLoad 0])
    as (pre & Ht & He & _); [reflexivity|].
  exists pre. split; [|exact He].
  rewrite Ht. by rewrite app_nil_r.
Defined.

Lemma finished_when_settled_witness :
  _finished
    (run 1%nat defaultTransformCallback texture_and_entity
       (new_SceneLoader 1%nat defaultTransformCallback empty_scene "scene.json")
       [SceneResponse true; SceneJson true; ImageError 0]) = true <->
  reactions_left defaultTransformCallback texture_and_entity
    (run 1%nat defaultTransformCallback texture_and_entity
       (new_SceneLoader 1%nat defaultTransformCallback empty_scene "scene.json")
       [SceneResponse true; SceneJson true; ImageError 0]) = 0%nat.
Proof.
  apply (finished_when_settled 1%nat defaultTransformCallback
           texture_and_entity empty_scene "scene.json"
           [SceneResponse true; SceneJson true; ImageError 0]).
  reflexivity.
Defined.

Lemma load_terminates_witness :
  exists evs',
    (length evs' <= 1)%nat /\
    _finished
      (run 1%nat defaultTransformCallback texture_and_entity
         (new_SceneLoader 1%nat defaultTransformCallback empty_scene
            "scene.json")
         ([SceneResponse true; SceneJson true] ++ evs')) = true.
Proof.
  destruct (load_terminates 1%nat defaultTransformCallback
              texture_and_entity empty_scene "scene.json"
              [SceneResponse true; SceneJson true])
    as (evs' & _ & Hl & F & _); [reflexivity|].
  exists evs'. split; [exact Hl|exact F].
Defined.

(** * The viewer *)

Section ViewerProofs.

Import Viewer.

Variable number : Type.
Variable zero : number.
Variable sub : number -> number -> number.
Variable div : number -> number -> number.
Variable thousand : number.

Local Abbreviation step := (Viewer.step zero sub div thousand).
Local Abbreviation run := (Viewer.run zero sub div thousand).
Local Abbreviation _updateFrame := (Viewer._updateFrame zero sub div thousand).
Local Abbreviation elapsed := (Viewer.elapsed zero sub div thousand).
Local Abbreviation timing := (Viewer.timing zero sub div thousand).
Local Abbreviation construct := (Viewer.construct number).
Local Abbreviation frame_effects :=
  (Viewer.frame_effects zero sub div thousand).
Local Abbreviation delta_time := (Viewer.delta_time zero sub div thousand).

Local Arguments N.succ : simpl never.

Implicit Types (s : state number) (e : event number)
  (evs : list (event number)).

Lemma viewer_run_cons s e evs : run s (e :: evs) = run (step s e) evs.
Proof. done. Qed.

Lemma viewer_run_app s evs evs' : run s (evs ++ evs') = run (run s evs) evs'.
Proof. apply foldl_app. Qed.

(** ** The frame loop *)

Lemma updateCanvasSize_keeps s :
  _is_destroyed (_updateCanvasSize s) = _is_destroyed s /\
  raf_pending (_updateCanvasSize s) = raf_pending s /\
  _frame_req_id (_updateCanvasSize s) = _frame_req_id s /\
  displayed (_updateCanvasSize s) = displayed s /\
  _render_callback (_updateCanvasSize s) = _render_callback s /\
  _debug_stats (_updateCanvasSize s) = _debug_stats s /\
  _previous_time (_updateCanvasSize s) = _previous_time s.
Proof.
  unfold _updateCanvasSize, set_width, set_height; cbv zeta.
  by repeat case_match.
Qed.

Lemma lifecycle_ext s s' :
  _is_destroyed s' = _is_destroyed s ->
  raf_pending s' = raf_pending s ->
  _frame_req_id s' = _frame_req_id s ->
  displayed s' = displayed s ->
  _render_callback s' = _render_callback s ->
  lifecycle s -> lifecycle s'.
Proof. unfold lifecycle. by intros -> -> -> -> ->. Qed.

Lemma lifecycle_construct (element : string) (options : option Options)
  (client : N * N) (raf : N) :
  lifecycle (construct element options client raf).
Proof.
  unfold Viewer.construct. cbv zeta.
  match goal with |- lifecycle (_updateCanvasSize ?s) =>
    destruct (updateCanvasSize_keeps s) as (D & P & F & V & C & _);
    apply (lifecycle_ext s); [done..|]
  end.
  unfold lifecycle. simpl. split; [by rewrite union_empty_r_L|].
  split; [lia|done].
Qed.

Lemma lifecycle_destroy s : lifecycle s -> lifecycle (destroy s).
Proof.
  unfold lifecycle, destroy. destruct (_is_destroyed s) eqn:D.
  - by rewrite D.
  - intros (P & F & V). simpl.
    destruct (_frame_req_id s =? 0)%N eqn:E; [apply N.eqb_eq in E; done|].
    simpl. rewrite P. split; [by rewrite difference_diag_L|done].
Qed.

Lemma updateFrame_keeps s (now_time : number) :
  _is_destroyed (_updateFrame now_time s) = _is_destroyed s /\
  raf_pending (_updateFrame now_time s)
  = {[N.succ (raf_last s)]} ∪ raf_pending s /\
  _frame_req_id (_updateFrame now_time s) = N.succ (raf_last s) /\
  displayed (_updateFrame now_time s) = displayed s /\
  _render_callback (_updateFrame now_time s) = _render_callback s /\
  _debug_stats (_updateFrame now_time s) = _debug_stats s /\
  _previous_time (_updateFrame now_time s) = Some now_time.
Proof.
  unfold Viewer._updateFrame, _updateTime, _finishDebugStats. cbv zeta.
  match goal with |- context [_updateCanvasSize ?s0] =>
    destruct (updateCanvasSize_keeps s0) as (D & P & F & V & C & S & T);
    simpl in D, P, F, V, C, S, T
  end.
  simpl. rewrite S.
  destruct (_debug_stats s) eqn:E; simpl; rewrite ?S, ?E; simpl; done.
Qed.

Lemma lifecycle_frame s (handle : N) (now_time : number) :
  lifecycle s -> handle ∈ raf_pending s ->
  _is_destroyed s = false /\ handle = _frame_req_id s /\
  lifecycle (_updateFrame now_time
               (set_raf (raf_last s) (raf_pending s ∖ {[handle]}) s)).
Proof.
  unfold lifecycle. destruct (_is_destroyed s) eqn:D.
  - intros (P & _) Hin. rewrite P in Hin. by apply not_elem_of_empty in Hin.
  - intros (P & F & V) Hin. rewrite P in Hin.
    apply elem_of_singleton in Hin as ->. split; [done|]. split; [done|].
    destruct (updateFrame_keeps
                (set_raf (raf_last s) (raf_pending s ∖ {[_frame_req_id s]}) s)
                now_time) as (D' & P' & F' & V' & _).
    rewrite D', P', F', V'. simpl.
    rewrite D, P, V, difference_diag_L, union_empty_r_L.
    split; [done|]. split; [lia|done].
Qed.

Lemma lifecycle_step s e : lifecycle s -> lifecycle (step s e).
Proof.
  intros L. destruct e as [|val|handle now_time|w h]; simpl.
  - by apply lifecycle_destroy.
  - by apply (lifecycle_ext s).
  - destruct (decide (handle ∈ raf_pending s)) as [Hin|]; [|done].
    by apply lifecycle_frame.
  - by apply (lifecycle_ext s).
Qed.

Lemma lifecycle_run evs s : lifecycle s -> lifecycle (run s evs).
Proof.
  revert s. induction evs as [|e evs IH]; intros s L; [done|].
  rewrite viewer_run_cons. by apply IH, lifecycle_step.
Qed.

(** X15: a viewer keeps exactly one animation frame requested while it
    lives, the one whose handle it holds in [_frame_req_id], which is not
    0, and its canvas stays in the container; once destroyed it has no
    frame request pending, holds the handle 0, and its canvas is out of the
    container and its render callback replaced by a null callback. *)
Theorem frame_loop_single (element : string) (options : option Options)
  (client : N * N) (raf : N) evs :
  if _is_destroyed (run (construct element options client raf) evs)
  then raf_pending (run (construct element options client raf) evs) = ∅ /\
       _frame_req_id (run (construct element options client raf) evs) = 0%N /\
       displayed (run (construct element options client raf) evs) = false /\
       _render_callback (run (construct element options client raf) evs)
       = NullRenderCallback
  else raf_pending (run (construct element options client raf) evs)
       = {[_frame_req_id (run (construct element options client raf) evs)]} /\
       _frame_req_id (run (construct element options client raf) evs) ≠ 0%N /\
       displayed (run (construct element options client raf) evs) = true.
Proof.
  apply (lifecycle_run evs), lifecycle_construct.
Qed.

(** ** After destroy *)

Lemma destroy_destroyed s : _is_destroyed (destroy s) = true.
Proof. unfold destroy. by destruct (_is_destroyed s) eqn:D. Qed.

Lemma destroy_again s : destroy (destroy s) = destroy s.
Proof. unfold destroy at 1. by rewrite destroy_destroyed. Qed.

Lemma step_destroyed s e :
  lifecycle s -> _is_destroyed s = true ->
  trace (step s e) = trace s /\ _is_destroyed (step s e) = true.
Proof.
  unfold lifecycle. intros L D. rewrite D in L. destruct L as (P & _).
  destruct e as [|val|handle now_time|w h]; simpl; try done.
  - unfold destroy. by rewrite D.
  - destruct (decide (handle ∈ raf_pending s)) as [Hin|]; [|done].
    rewrite P in Hin. by apply not_elem_of_empty in Hin.
Qed.

Lemma run_destroyed evs s :
  lifecycle s -> _is_destroyed s = true ->
  trace (run s evs) = trace s /\ _is_destroyed (run s evs) = true.
Proof.
  revert s. induction evs as [|e evs IH]; intros s L D; [done|].
  rewrite viewer_run_cons.
  destruct (step_destroyed s e L D) as [T D'].
  destruct (IH (step s e) (lifecycle_step s e L) D') as [T' D''].
  split; [congruence|done].
Qed.

Lemma destroy_trace s :
  lifecycle s -> _is_destroyed s = false ->
  trace (destroy s) = trace s ++ destroy_effects s.
Proof.
  unfold lifecycle, destroy, destroy_effects. intros L D. rewrite D in *.
  destruct L as (_ & F & _).
  destruct (_frame_req_id s =? 0)%N eqn:E; [apply N.eqb_eq in E; done|].
  simpl. by rewrite <- !app_assoc.
Qed.

(** X16: destroy() is final and idempotent: on a viewer that lives it
    cancels the pending frame request, detaches the render callback,
    attaches a null callback, takes the canvas out of the container and
    cancels the requests of the globe, the tile cache, the layers and the
    scene loaders, in this order; a second destroy() does nothing; and
    after destroy() no frame runs and nothing is called any more, whatever
    the browser or the user does. *)
Theorem destroy_is_final (element : string) (options : option Options)
  (client : N * N) (raf : N) evs evs' :
  destroy (destroy (run (construct element options client raf) evs))
  = destroy (run (construct element options client raf) evs) /\
  trace (run (destroy (run (construct element options client raf) evs)) evs')
  = trace (destroy (run (construct element options client raf) evs)) /\
  raf_pending
    (run (destroy (run (construct element options client raf) evs)) evs') = ∅ /\
  displayed (destroy (run (construct element options client raf) evs))
  = false /\
  trace (destroy (run (construct element options client raf) evs))
  = trace (run (construct element options client raf) evs)
    ++ (if _is_destroyed (run (construct element options client raf) evs)
        then []
        else destroy_effects (run (construct element options client raf) evs)).
Proof.
  pose proof (lifecycle_run evs _
                (lifecycle_construct element options client raf)) as L.
  revert L. generalize (run (construct element options client raf) evs) as s.
  intros s L.
  pose proof (lifecycle_destroy s L) as Ld.
  pose proof (destroy_destroyed s) as D.
  destruct (run_destroyed evs' (destroy s) Ld D) as [T D'].
  pose proof (lifecycle_run evs' _ Ld) as L'.
  unfold lifecycle in L', Ld. rewrite D' in L'. rewrite D in Ld.
  destruct L' as (P & _). destruct Ld as (_ & _ & V & _).
  split; [apply destroy_again|]. split; [done|]. split; [done|].
  split; [done|].
  destruct (_is_destroyed s) eqn:Ds.
  - unfold destroy. by rewrite Ds, app_nil_r.
  - by apply destroy_trace.
Qed.

(** ** Frames *)

Lemma updateCanvasSize_trace s :
  trace (_updateCanvasSize s) = trace s ++ resize_effects s /\
  stale (_updateCanvasSize s) = 0%nat /\
  length (resize_effects s) = stale s.
Proof.
  unfold _updateCanvasSize, resize_effects, stale, set_width, set_height.
  cbv zeta.
  destruct (width (_canvas_element s) =? clientWidth (_canvas_element s))%N
    eqn:W;
    destruct (height (_canvas_element s) =? clientHeight (_canvas_element s))%N
      eqn:H; simpl; rewrite ?W, ?H, ?N.eqb_refl; simpl;
    rewrite ?W, ?H, ?N.eqb_refl, ?app_nil_r, <- ?app_assoc; done.
Qed.

Lemma updateFrame_trace s (now_time : number) :
  trace (_updateFrame now_time s) = trace s ++ frame_effects now_time s /\
  stale (_updateFrame now_time s) = 0%nat.
Proof.
  unfold Viewer._updateFrame, _updateTime, _finishDebugStats,
    Viewer.frame_effects, Viewer.delta_time.
  cbv zeta.
  match goal with |- context [_updateCanvasSize ?s0] =>
    destruct (updateCanvasSize_keeps s0) as (_ & _ & _ & _ & C & S & _);
    destruct (updateCanvasSize_trace s0) as (T & Z & _);
    simpl in C, S, T;
    assert (resize_effects s0 = resize_effects s) as R by done
  end.
  rewrite R in T. unfold stale in *. simpl. rewrite S.
  destruct (_debug_stats s) eqn:E; simpl; rewrite ?S, ?E; simpl;
    rewrite T, C; (split; [|done]);
    rewrite <- !app_assoc; simpl; rewrite <- ?app_assoc; done.
Qed.

Lemma observe_frame s (now_time : number) :
  omap is_now (frame_effects now_time s) = [now_time] /\
  omap is_delta (frame_effects now_time s) = [delta_time now_time s] /\
  length (filter is_render (frame_effects now_time s)) = 1%nat /\
  length (filter is_stats (frame_effects now_time s))
  = match _debug_stats s with Some _ => 2%nat | None => 0%nat end /\
  length (filter is_resize (frame_effects now_time s)) = stale s.
Proof.
  unfold Viewer.frame_effects, resize_effects, stale.
  destruct (width (_canvas_element s) =? clientWidth (_canvas_element s))%N;
    destruct (height (_canvas_element s) =? clientHeight (_canvas_element s))%N;
    destruct (_debug_stats s); done.
Qed.

Lemma observe_resize s :
  omap is_now (resize_effects s) = [] /\
  omap is_delta (resize_effects s) = [] /\
  filter is_render (resize_effects s) = [] /\
  filter is_stats (resize_effects s) = [].
Proof.
  unfold resize_effects.
  destruct (width (_canvas_element s) =? clientWidth (_canvas_element s))%N;
    destruct (height (_canvas_element s) =? clientHeight (_canvas_element s))%N;
    done.
Qed.

Lemma observe_destroy s :
  omap is_now (destroy_effects s) = [] /\
  omap is_delta (destroy_effects s) = [] /\
  filter is_render (destroy_effects s) = [] /\
  filter is_stats (destroy_effects s) = [] /\
  filter is_resize (destroy_effects s) = [].
Proof. done. Qed.

Lemma elapsed_snoc (p : option number) (l : list number) (t : number) :
  elapsed p (l ++ [t])
  = elapsed p l
    ++ [match from_option Some p (last l) with
        | Some q => div (sub t q) thousand
        | None => zero
        end].
Proof.
  revert p. induction l as [|a l IH]; intros p; [done|].
  simpl. rewrite IH. do 3 f_equal.
  destruct l as [|b l]; [done|].
  change (last (a :: b :: l)) with (last (b :: l)).
  destruct (last (b :: l)) eqn:E; [done|]. by apply last_None in E.
Qed.

Lemma timing_construct (element : string) (options : option Options)
  (client : N * N) (raf : N) :
  timing (construct element options client raf) /\
  _debug_stats (construct element options client raf)
  = options ≫= debug_stats.
Proof.
  unfold Viewer.construct. cbv zeta.
  match goal with |- context [_updateCanvasSize ?s0] =>
    destruct (updateCanvasSize_keeps s0) as (_ & _ & _ & _ & _ & S & P);
    destruct (updateCanvasSize_trace s0) as (T & _ & _)
  end.
  unfold Viewer.timing, frame_times, delta_times, renders, stats_calls.
  rewrite S, P, T, !omap_app, !filter_app.
  match goal with |- context [resize_effects ?s0] =>
    destruct (observe_resize s0) as (-> & -> & -> & ->)
  end.
  split; [|done]. rewrite !app_nil_r. split; [done|]. split; [done|].
  split; [done|]. cbn. by destruct (options ≫= debug_stats).
Qed.

Lemma timing_ext s s' :
  trace s' = trace s -> _previous_time s' = _previous_time s ->
  _debug_stats s' = _debug_stats s -> timing s -> timing s'.
Proof.
  unfold Viewer.timing, frame_times, delta_times, renders, stats_calls.
  by intros -> -> ->.
Qed.

Lemma timing_destroy s : lifecycle s -> timing s -> timing (destroy s).
Proof.
  intros L. destruct (_is_destroyed s) eqn:D.
  - unfold destroy. by rewrite D.
  - pose proof (destroy_trace s L D) as T.
    assert (_previous_time (destroy s) = _previous_time s /\
            _debug_stats (destroy s) = _debug_stats s) as [P S].
    { unfold destroy. rewrite D. by destruct (_frame_req_id s =? 0)%N. }
    unfold Viewer.timing, frame_times, delta_times, renders, stats_calls.
    rewrite T, P, S, !omap_app, !filter_app.
    destruct (observe_destroy s) as (-> & -> & -> & -> & _).
    by rewrite !app_nil_r.
Qed.

Lemma timing_frame s (now_time : number) (pending : gset N) :
  timing s -> timing (_updateFrame now_time (set_raf (raf_last s) pending s)).
Proof.
  destruct (updateFrame_trace (set_raf (raf_last s) pending s) now_time)
    as [T _].
  destruct (updateFrame_keeps (set_raf (raf_last s) pending s) now_time)
    as (_ & _ & _ & _ & _ & S & P).
  destruct (observe_frame (set_raf (raf_last s) pending s) now_time)
    as (On & Od & Or & Os & _).
  unfold Viewer.timing, frame_times, delta_times, renders, stats_calls.
  rewrite T, S, P, !omap_app, !filter_app, !length_app, On, Od, Or, Os.
  simpl. intros (Hd & Hp & Hr & Hs).
  rewrite Hd, Hr, Hs, elapsed_snoc, <- Hp, last_snoc.
  unfold Viewer.delta_time. simpl.
  split; [by destruct (_previous_time s)|]. split; [done|].
  split; [done|]. destruct (_debug_stats s); simpl; lia.
Qed.

Lemma timing_step s e : lifecycle s -> timing s -> timing (step s e).
Proof.
  intros L H. destruct e as [|val|handle now_time|w h]; simpl.
  - by apply timing_destroy.
  - by apply (timing_ext s).
  - destruct (decide (handle ∈ raf_pending s)); [|done].
    by apply timing_frame.
  - by apply (timing_ext s).
Qed.

Lemma timing_run evs s : lifecycle s -> timing s -> timing (run s evs).
Proof.
  revert s. induction evs as [|e evs IH]; intros s L H; [done|].
  rewrite viewer_run_cons.
  apply IH; [by apply lifecycle_step|by apply timing_step].
Qed.

Lemma debug_stats_step s e : _debug_stats (step s e) = _debug_stats s.
Proof.
  destruct e as [|val|handle now_time|w h]; simpl; try done.
  - unfold destroy. destruct (_is_destroyed s); [done|].
    by destruct (_frame_req_id s =? 0)%N.
  - destruct (decide (handle ∈ raf_pending s)); [|done].
    by destruct (updateFrame_keeps
                   (set_raf (raf_last s) (raf_pending s ∖ {[handle]}) s)
                   now_time) as (_ & _ & _ & _ & _ & -> & _).
Qed.

Lemma debug_stats_run evs s : _debug_stats (run s evs) = _debug_stats s.
Proof.
  revert s. induction evs as [|e evs IH]; intros s; [done|].
  by rewrite viewer_run_cons, IH, debug_stats_step.
Qed.

(** X17: every frame that runs reads the time once, calls the render
    callback once and renders once: the elapsed times handed to the render
    callback are 0 for the first frame and, for every later frame, the
    difference of its time stamp to the one of the frame before, divided by
    1000; the statistics object, when one was given, is cleared and updated
    once per frame, and never called otherwise. *)
Theorem frame_deltas (element : string) (options : option Options)
  (client : N * N) (raf : N) evs :
  delta_times (run (construct element options client raf) evs)
  = elapsed None (frame_times (run (construct element options client raf) evs)) /\
  _previous_time (run (construct element options client raf) evs)
  = last (frame_times (run (construct element options client raf) evs)) /\
  renders (run (construct element options client raf) evs)
  = length (frame_times (run (construct element options client raf) evs)) /\
  stats_calls (run (construct element options client raf) evs)
  = match options ≫= debug_stats with
    | Some _ =>
        (2 * length (frame_times
                       (run (construct element options client raf) evs)))%nat
    | None => 0%nat
    end.
Proof.
  destruct (timing_construct element options client raf) as [H S].
  pose proof (timing_run evs _
                (lifecycle_construct element options client raf) H) as Ht.
  unfold Viewer.timing in Ht. by rewrite debug_stats_run, S in Ht.
Qed.

(** ** The size of the canvas *)

Lemma resizes_step s e :
  (resizes (step s e) + stale (step s e)
   <= resizes s + stale s + (if is_layout e then 2 else 0))%nat.
Proof.
  unfold resizes.
  destruct e as [|val|handle now_time|w h]; simpl.
  - unfold destroy. destruct (_is_destroyed s); [lia|].
    unfold stale.
    destruct (_frame_req_id s =? 0)%N; simpl; rewrite !filter_app; simpl;
      rewrite ?length_app; simpl; lia.
  - unfold stale. simpl. lia.
  - destruct (decide (handle ∈ raf_pending s)); [|lia].
    destruct (updateFrame_trace
                (set_raf (raf_last s) (raf_pending s ∖ {[handle]}) s) now_time)
      as [-> ->].
    destruct (observe_frame
                (set_raf (raf_last s) (raf_pending s ∖ {[handle]}) s) now_time)
      as (_ & _ & _ & _ & R).
    rewrite filter_app, length_app, R. unfold stale. simpl. lia.
  - unfold stale. simpl. repeat case_match; lia.
Qed.

Lemma resizes_run evs s :
  (resizes (run s evs) + stale (run s evs)
   <= resizes s + stale s + 2 * length (filter is_layout evs))%nat.
Proof.
  revert s. induction evs as [|e evs IH]; intros s; [simpl; lia|].
  rewrite viewer_run_cons. specialize (IH (step s e)).
  pose proof (resizes_step s e) as H. rewrite filter_cons.
  destruct (is_layout e) eqn:E.
  - rewrite decide_True by done. simpl. lia.
  - rewrite decide_False by (intros []). lia.
Qed.

(** X18: the bitmap of the canvas follows the size that layout gives the
    element: it has that size when the constructor returns and after every
    frame, and it is assigned (which clears the canvas) only when the two
    differ, so that a viewer assigns a width or a height at most twice at
    construction and twice per change of layout, however many frames
    run. *)
Theorem canvas_follows_layout (element : string) (options : option Options)
  (client : N * N) (raf : N) evs (now_time : number) :
  stale (construct element options client raf) = 0%nat /\
  (resizes (run (construct element options client raf) evs)
   <= 2 + 2 * length (filter is_layout evs))%nat /\
  (if _is_destroyed (run (construct element options client raf) evs)
   then True
   else
     stale (step (run (construct element options client raf) evs)
              (AnimationFrame
                 (_frame_req_id (run (construct element options client raf) evs))
                 now_time)) = 0%nat /\
     resizes (step (run (construct element options client raf) evs)
                (AnimationFrame
                   (_frame_req_id
                      (run (construct element options client raf) evs))
                   now_time))
     = (resizes (run (construct element options client raf) evs)
        + stale (run (construct element options client raf) evs))%nat).
Proof.
  assert (stale (construct element options client raf) = 0%nat /\
          (resizes (construct element options client raf) <= 2)%nat) as [Z R].
  { unfold Viewer.construct, resizes. cbv zeta.
    match goal with |- context [_updateCanvasSize ?s0] =>
      destruct (updateCanvasSize_trace s0) as (-> & -> & Hl);
      pose proof (length_filter (fun x => is_resize x) (resize_effects s0))
        as Hf;
      assert (stale s0 <= 2)%nat as Hs
        by (unfold stale; repeat case_match; lia);
      assert (length (filter (fun x => is_resize x) (trace s0)) = 0%nat)
        as Ht by done
    end.
    split; [done|]. rewrite filter_app, length_app, Ht. lia. }
  split; [done|]. split.
  - pose proof (resizes_run evs (construct element options client raf)). lia.
  - pose proof (lifecycle_run evs _
                  (lifecycle_construct element options client raf)) as L.
    revert L. generalize (run (construct element options client raf) evs) as s.
    intros s L. unfold lifecycle in L.
    destruct (_is_destroyed s); [done|]. destruct L as (P & _).
    simpl. rewrite decide_True by (rewrite P; by apply elem_of_singleton).
    destruct (updateFrame_trace
                (set_raf (raf_last s)
                   (raf_pending s ∖ {[_frame_req_id s]}) s) now_time)
      as [T Z'].
    destruct (observe_frame
                (set_raf (raf_last s)
                   (raf_pending s ∖ {[_frame_req_id s]}) s) now_time)
      as (_ & _ & _ & _ & Rz).
    split; [done|]. unfold resizes. rewrite T, filter_app, length_app, Rz.
    done.
Qed.

End ViewerProofs.
